(** * FormScanner AI (app.py): prompt construction, reply handling,
      rasterization, caching and the session handler

    A shallow embedding of [src/app.py].  Python [str] values are sequences
    of Unicode code points, the calls that leave the program (the PDF
    rendering backend and the hosted model) are parameters of the
    definitions, and the Streamlit script is a function from the widget
    values of one run to the elements it emits and the state it leaves. *)

From Stdlib Require Import List NArith ZArith Bool Lia String Ascii.
Import ListNotations.

Set Implicit Arguments.
Set Warnings "-register-all".

(** ** Python strings *)

Module Str.

(** A code point; a Python [str] is a sequence of them. *)
Abbreviation char := N (only parsing).
Abbreviation str := (list N) (only parsing).

Definition str_eq_dec : forall a b : str, {a = b} + {a <> b} :=
  list_eq_dec N.eq_dec.

(** ASCII literals of the source are written as Rocq strings. *)
Fixpoint lit (s : string) : str :=
  match s with
  | EmptyString => []
  | String a s' => N_of_ascii a :: lit s'
  end.

(** The double quote and the line feed. *)
Definition dq : str := [34%N].
Definition nl : str := [10%N].

(** [str.isspace] for one code point, the characters [str.strip()]
    removes. *)
Definition isspace (c : char) : bool :=
  ((9 <=? c) && (c <=? 13) || (28 <=? c) && (c <=? 32)
   || (c =? 133) || (c =? 160) || (c =? 5760)
   || (8192 <=? c) && (c <=? 8202)
   || (c =? 8232) || (c =? 8233) || (c =? 8239) || (c =? 8287)
   || (c =? 12288))%N.

Fixpoint lstrip (s : str) : str :=
  match s with
  | [] => []
  | c :: t => if isspace c then lstrip t else s
  end.

Definition rstrip (s : str) : str := rev (lstrip (rev s)).

(** [s.strip()] *)
Definition strip (s : str) : str := rstrip (lstrip s).

(** [s.startswith(p)] *)
Fixpoint startswith (p s : str) : bool :=
  match p, s with
  | [], _ => true
  | _ :: _, [] => false
  | a :: p', b :: s' => (a =? b)%N && startswith p' s'
  end.

(** The scan of [s.replace(old, new)] for a non-empty [old]: the leftmost
    occurrence is replaced and the scan resumes after it; [skip] counts
    the characters of the current occurrence still to pass. *)
Fixpoint replace_from (old new : str) (skip : nat) (s : str) : str :=
  match s with
  | [] => []
  | c :: t =>
      match skip with
      | S k => replace_from old new k t
      | O =>
          if startswith old s
          then new ++ replace_from old new (List.length old - 1) t
          else c :: replace_from old new 0 t
      end
  end.

(** [s.replace(old, new)]; an empty [old] matches before every character
    and at the end. *)
Definition replace (old new s : str) : str :=
  match old with
  | [] => new ++ flat_map (fun c => c :: new) s
  | _ :: _ => replace_from old new 0 s
  end.

(** [sep.join(parts)] *)
Fixpoint join (sep : str) (parts : list str) : str :=
  match parts with
  | [] => []
  | [p] => p
  | p :: rest => p ++ sep ++ join sep rest
  end.

(** [s.split(sep)] for a one-character separator: always at least one
    piece. *)
Fixpoint split (sep : char) (s : str) : list str :=
  match s with
  | [] => [[]]
  | c :: t =>
      if (c =? sep)%N then [] :: split sep t
      else match split sep t with
           | [] => [[c]]
           | p :: ps => (c :: p) :: ps
           end
  end.

(** [x in s] *)
Definition contains (x s : str) : Prop :=
  exists pre post, s = pre ++ x ++ post.

(** A string of whitespace only. *)
Definition blank (w : str) : Prop := Forall (fun c => isspace c = true) w.

(** Truth value of a string: non-empty. *)
Definition truthy (s : str) : bool :=
  match s with [] => false | _ :: _ => true end.

End Str.
Import Str.

(** ** Python values and exceptions *)

Module Py.

(** The values [json.loads] can build.  A [float] is kept as the decimal
    it was read from ([digits * 10 ^ exp10], with its sign); Python rounds
    that decimal to a binary64, of which the program uses the truth value
    and the [str()], kept symbolic. *)
Inductive value :=
| VNone
| VBool (b : bool)
| VInt (z : Z)
| VFloat (neg : bool) (digits : N) (exp10 : Z)
| VNaN
| VInf (neg : bool)
| VStr (s : str)
| VList (l : list value)
| VDict (items : list (str * value)).

(** Exceptions of class [Exception] the program can meet.  [Raised] is an
    exception of a call that leaves the program, with its class name and
    its message; [RecursionError] is what the decoder raises when it runs
    out of fuel, which it never does ([JsonFacts.loads_total]);
    [UnicodeEncodeError] is what encoding a lone surrogate as UTF-8
    raises. *)
Inductive exn :=
| JSONDecodeError (msg : string)
| RecursionError
| AttributeError (msg : string)
| UnicodeEncodeError
| Raised (cls : string) (msg : str).

(** A decimal [digits * 10 ^ exp10] rounds to the float zero exactly when
    it is at most [2 ^ -1075], half of the least positive binary64 (ties
    go to the even neighbour, which is zero). *)
Definition float_is_zero (digits : N) (exp10 : Z) : bool :=
  (digits =? 0)%N ||
  ((exp10 <? 0)%Z && (Z.of_N digits * 2 ^ 1075 <=? 10 ^ (- exp10))%Z).

(** [bool(v)] *)
Definition truthy (v : value) : bool :=
  match v with
  | VNone => false
  | VBool b => b
  | VInt z => negb (z =? 0)%Z
  | VFloat _ d e => negb (float_is_zero d e)
  | VNaN => true
  | VInf _ => true
  | VStr s => Str.truthy s
  | VList l => match l with [] => false | _ :: _ => true end
  | VDict d => match d with [] => false | _ :: _ => true end
  end.

Definition is_dict (v : value) : bool :=
  match v with VDict _ => true | _ => false end.

(** [d[k] = v] on a dict kept in insertion order: an existing key keeps
    its place and takes the new value. *)
Fixpoint dict_set (d : list (str * value)) (k : str) (v : value)
  : list (str * value) :=
  match d with
  | [] => [(k, v)]
  | (k', v') :: d' =>
      if str_eq_dec k k' then (k', v) :: d'
      else (k', v') :: dict_set d' k v
  end.

(** [dict(pairs)] *)
Definition dict_of_pairs (pairs : list (str * value)) : list (str * value) :=
  fold_left (fun d kv => dict_set d (fst kv) (snd kv)) pairs [].

End Py.
Import Py.

(** ** [json.loads]

    The decoder of the standard library on a [str]: the scanner dispatches
    on the first character, strings are read in strict mode, objects and
    arrays recurse into the scanner, and [NaN], [Infinity] and [-Infinity]
    are accepted.  The positions a [JSONDecodeError] carries are left out,
    and the interpreter's own limits (recursion depth, digits of an [int])
    are not modelled. *)

Module Json.

Inductive res (A : Type) :=
| Ok (a : A)
| Err (msg : string)
| OutOfFuel.
Arguments Ok {A} a.
Arguments Err {A} msg.
Arguments OutOfFuel {A}.

Definition bind {A B} (m : res A) (f : A -> res B) : res B :=
  match m with
  | Ok a => f a
  | Err e => Err e
  | OutOfFuel => OutOfFuel
  end.

Notation "x <- m ;; k" := (bind m (fun x => k))
  (at level 61, m at next level, right associativity).

(** [WHITESPACE]: space, tab, line feed, carriage return. *)
Definition is_ws (c : char) : bool :=
  ((c =? 32) || (c =? 9) || (c =? 10) || (c =? 13))%N.

Fixpoint skip_ws (s : str) : str :=
  match s with
  | [] => []
  | c :: t => if is_ws c then skip_ws t else s
  end.

Definition isdigit (c : char) : bool := ((48 <=? c) && (c <=? 57))%N.

Definition hexval (c : char) : option N :=
  if isdigit c then Some (c - 48)%N
  else if ((97 <=? c) && (c <=? 102))%N then Some (c - 87)%N
  else if ((65 <=? c) && (c <=? 70))%N then Some (c - 55)%N
  else None.

Definition hex4 (a b c d : char) : option N :=
  match hexval a, hexval b, hexval c, hexval d with
  | Some x, Some y, Some z, Some w => Some (((x * 16 + y) * 16 + z) * 16 + w)%N
  | _, _, _, _ => None
  end.

(** [BACKSLASH]: the one-character escapes. *)
Definition escape (c : char) : option char :=
  if (c =? 34)%N then Some 34%N
  else if (c =? 92)%N then Some 92%N
  else if (c =? 47)%N then Some 47%N
  else if (c =? 98)%N then Some 8%N
  else if (c =? 102)%N then Some 12%N
  else if (c =? 110)%N then Some 10%N
  else if (c =? 114)%N then Some 13%N
  else if (c =? 116)%N then Some 9%N
  else None.

Definition is_high (u : N) : bool := ((55296 <=? u) && (u <=? 56319))%N.
Definition is_low (u : N) : bool := ((56320 <=? u) && (u <=? 57343))%N.

(** A low surrogate escape at the head of [s], and the text after it. *)
Definition low_escape (s : str) : option (N * str) :=
  match s with
  | b :: u :: h1 :: h2 :: h3 :: h4 :: r =>
      if ((b =? 92) && (u =? 117))%N then
        match hex4 h1 h2 h3 h4 with
        | Some u2 => if is_low u2 then Some (u2, r) else None
        | None => None
        end
      else None
  | _ => None
  end.

Definition push (c : char) (m : res (str * str)) : res (str * str) :=
  p <- m ;; Ok (c :: fst p, snd p).

(** [scanstring], on the text after the opening quote: the decoded
    string and the text after the closing quote. *)
Fixpoint scanstring (s : str) : res (str * str) :=
  match s with
  | [] => Err "Unterminated string starting at"
  | c :: t =>
      if (c =? 34)%N then Ok ([], t)
      else if (c =? 92)%N then
        match t with
        | [] => Err "Unterminated string starting at"
        | e :: t1 =>
            if (e =? 117)%N then
              match t1 with
              | h1 :: h2 :: h3 :: h4 :: t2 =>
                  match hex4 h1 h2 h3 h4 with
                  | None => Err "Invalid \uXXXX escape"
                  | Some u =>
                      match t2 with
                      | b :: u' :: g1 :: g2 :: g3 :: g4 :: t3 =>
                          match (if is_high u then low_escape t2 else None) with
                          | Some (u2, _) =>
                              push (65536 + (N.lor (N.shiftl (u - 55296) 10)
                                                   (u2 - 56320)))%N
                                   (scanstring t3)
                          | None => push u (scanstring t2)
                          end
                      | _ => push u (scanstring t2)
                      end
                  end
              | _ => Err "Invalid \uXXXX escape"
              end
            else
              match escape e with
              | Some d => push d (scanstring t1)
              | None => Err "Invalid \escape"
              end
        end
      else if (c <? 32)%N then Err "Invalid control character at"
      else push c (scanstring t)
  end.

Fixpoint span_digits (s : str) : str * str :=
  match s with
  | [] => ([], [])
  | c :: t =>
      if isdigit c
      then let p := span_digits t in (c :: fst p, snd p)
      else ([], s)
  end.

Definition digits_val (d : str) : N :=
  fold_left (fun acc c => (acc * 10 + (c - 48))%N) d 0%N.

(** The integer part of [NUMBER_RE]: [0], or a non-zero digit and any
    digits. *)
Definition int_part (s : str) : option (str * str) :=
  match s with
  | [] => None
  | c :: t =>
      if (c =? 48)%N then Some ([c], t)
      else if isdigit c then Some (span_digits s)
      else None
  end.

(** The fraction of [NUMBER_RE]: a dot and at least one digit. *)
Definition frac_part (s : str) : option (str * str) :=
  match s with
  | d :: (c :: _) as t =>
      if ((d =? 46) && isdigit c)%N then Some (span_digits t) else None
  | _ => None
  end.

(** The exponent of [NUMBER_RE]: [e] or [E], a sign if any, at least one
    digit. *)
Definition exp_part (s : str) : option (Z * str) :=
  match s with
  | e :: t =>
      if ((e =? 101) || (e =? 69))%N then
        let '(neg, t') :=
          match t with
          | g :: u => if (g =? 45)%N then (true, u)
                      else if (g =? 43)%N then (false, u)
                      else (false, t)
          | [] => (false, t)
          end in
        match span_digits t' with
        | ([], _) => None
        | (d, r) =>
            let n := Z.of_N (digits_val d) in
            Some (if neg then (- n)%Z else n, r)
        end
      else None
  | [] => None
  end.

(** [match_number] and the conversion of its groups: an [int] when there
    is neither fraction nor exponent, a [float] otherwise. *)
Definition match_number (s : str) : option (value * str) :=
  let '(neg, s1) :=
    match s with
    | c :: t => if (c =? 45)%N then (true, t) else (false, s)
    | [] => (false, s)
    end in
  match int_part s1 with
  | None => None
  | Some (i, r1) =>
      match frac_part r1, exp_part (match frac_part r1 with
                                    | Some (_, r2) => r2
                                    | None => r1
                                    end) with
      | None, None =>
          let n := Z.of_N (digits_val i) in
          Some (VInt (if neg then (- n)%Z else n), r1)
      | Some (f, r2), None =>
          Some (VFloat neg (digits_val (i ++ f))
                       (- Z.of_nat (List.length f)), r2)
      | None, Some (e, r3) => Some (VFloat neg (digits_val i) e, r3)
      | Some (f, _), Some (e, r3) =>
          Some (VFloat neg (digits_val (i ++ f))
                       (e - Z.of_nat (List.length f)), r3)
      end
  end.

(** A constant of the scanner: the word at the head of the text. *)
Definition constant (w : string) (v : value) (s : str) : option (value * str) :=
  if startswith (lit w) s then Some (v, skipn (List.length (lit w)) s)
  else None.

Definition first_of {A} (a b : option A) : option A :=
  match a with Some _ => a | None => b end.

(** The scanner's cases other than string, object and array, in its
    order. *)
Definition scan_atom (s : str) : option (value * str) :=
  first_of (constant "null" VNone s)
 (first_of (constant "true" (VBool true) s)
 (first_of (constant "false" (VBool false) s)
 (first_of (match_number s)
 (first_of (constant "NaN" VNaN s)
 (first_of (constant "Infinity" (VInf false) s)
           (constant "-Infinity" (VInf true) s)))))).

(** [scan_once], with the loops of [JSONObject] and [JSONArray].  Each
    call uses one unit of [fuel]. *)
Fixpoint scan_once (fuel : nat) (s : str) : res (value * str) :=
  match fuel with
  | O => OutOfFuel
  | S n =>
      match s with
      | [] => Err "Expecting value"
      | c :: t =>
          if (c =? 34)%N then
            p <- scanstring t ;; Ok (VStr (fst p), snd p)
          else if (c =? 123)%N then
            match skip_ws t with
            | [] => Err "Expecting property name enclosed in double quotes"
            | c' :: t' =>
                if (c' =? 125)%N then Ok (VDict [], t')
                else
                  p <- object_loop n (c' :: t') ;;
                  Ok (VDict (dict_of_pairs (fst p)), snd p)
            end
          else if (c =? 91)%N then
            match skip_ws t with
            | [] => Err "Expecting value"
            | c' :: t' =>
                if (c' =? 93)%N then Ok (VList [], t')
                else
                  p <- array_loop n (c' :: t') ;;
                  Ok (VList (fst p), snd p)
            end
          else
            match scan_atom s with
            | Some p => Ok p
            | None => Err "Expecting value"
            end
      end
  end

with object_loop (fuel : nat) (s : str) : res (list (str * value) * str) :=
  match fuel with
  | O => OutOfFuel
  | S n =>
      match s with
      | [] => Err "Expecting property name enclosed in double quotes"
      | q :: t =>
          if (q =? 34)%N then
            k <- scanstring t ;;
            match skip_ws (snd k) with
            | [] => Err "Expecting ':' delimiter"
            | d :: r =>
                if (d =? 58)%N then
                  v <- scan_once n (skip_ws r) ;;
                  match skip_ws (snd v) with
                  | [] => Err "Expecting ',' delimiter"
                  | e :: r' =>
                      if (e =? 125)%N then Ok ([(fst k, fst v)], r')
                      else if (e =? 44)%N then
                        p <- object_loop n (skip_ws r') ;;
                        Ok ((fst k, fst v) :: fst p, snd p)
                      else Err "Expecting ',' delimiter"
                  end
                else Err "Expecting ':' delimiter"
            end
          else Err "Expecting property name enclosed in double quotes"
      end
  end

with array_loop (fuel : nat) (s : str) : res (list value * str) :=
  match fuel with
  | O => OutOfFuel
  | S n =>
      v <- scan_once n s ;;
      match skip_ws (snd v) with
      | [] => Err "Expecting ',' delimiter"
      | e :: r' =>
          if (e =? 93)%N then Ok ([fst v], r')
          else if (e =? 44)%N then
            p <- array_loop n (skip_ws r') ;;
            Ok (fst v :: fst p, snd p)
          else Err "Expecting ',' delimiter"
      end
  end.

(** The fuel [loads] gives the scanner for a text. *)
Definition fuel_for (s : str) : nat := 2 * List.length s + 1.

(** [json.loads(s)] for a [str]: no byte order mark, one value between
    optional whitespace, nothing after it. *)
Definition loads (s : str) : exn + value :=
  if startswith [65279%N] s
  then inl (JSONDecodeError "Unexpected UTF-8 BOM (decode using utf-8-sig)")
  else
    match scan_once (fuel_for (skip_ws s)) (skip_ws s) with
    | Ok (v, r) =>
        match skip_ws r with
        | [] => inr v
        | _ :: _ => inl (JSONDecodeError "Extra data")
        end
    | Err msg => inl (JSONDecodeError msg)
    | OutOfFuel => inl RecursionError
    end.

(** A parse that did not run out of fuel and, when it succeeded, left
    fewer than [n] characters. *)
Definition shrinks {A} (m : res (A * str)) (n : nat) : Prop :=
  match m with
  | Ok p => List.length (snd p) < n
  | Err _ => True
  | OutOfFuel => False
  end.

End Json.

(** ** The Streamlit script *)

Module App.

Definition bytes := list Byte.byte.

(** A PIL image, by its pixel data. *)
Inductive image := Image (pixels : list N).

(** *** What a run puts on the page *)

(** An f-string: literal text and the [str()] of interpolated objects. *)
Inductive piece :=
| Text (s : str)
| StrOfExn (e : exn)
| StrOfInt (z : Z)
| StrOfValue (v : value).
Definition fstring := list piece.

(** The calls of the main area.  The title, the introduction and the
    sidebar's widgets are the same in every run and are not recorded; the
    sidebar's values are the [inputs] of a run. *)
Inductive element :=
| st_error (body : fstring) (icon : str)
| st_warning (body : fstring) (icon : str)
| st_info (body : fstring)
| st_header (body : str)
| st_subheader (body : str)
| st_text_input (label : str) (value : fstring) (disabled : bool)
                (key : fstring)
| st_image (img : image) (caption : fstring).

(** *** Session state and caches *)

(** [st.session_state]: the last result and the last image. *)
Record session_state := {
  result : value;
  image_to_display : option image }.

(** Lines 96-99: a new session holds [None] under both keys. *)
Definition fresh_session : session_state :=
  {| result := VNone; image_to_display := None |}.

(** An argument of a cached function. *)
Inductive arg :=
| ABytes (b : bytes)
| AInt (z : Z)
| AImage (i : image)
| AFields (l : list str).

Definition image_eq_dec : forall a b : image, {a = b} + {a <> b}.
Proof. decide equality; apply (list_eq_dec N.eq_dec). Defined.

Definition arg_eq_dec : forall a b : arg, {a = b} + {a <> b}.
Proof.
  decide equality.
  - apply (list_eq_dec Byte.byte_eq_dec).
  - apply Z.eq_dec.
  - apply image_eq_dec.
  - apply (list_eq_dec str_eq_dec).
Defined.

(** An entry of [st.cache_data]: the value returned and the elements the
    call emitted, which a hit replays. *)
Definition entry (A : Type) : Type := (A * list element)%type.
Definition cache (A : Type) : Type := list (list arg * entry A).

(** Everything a run can read or change. *)
Record world := {
  elements : list element;
  stdout : list fstring;
  backend_calls : list (bytes * Z * Z);
  model_calls : list (str * image);
  raster_cache : cache (option image);
  analysis_cache : cache value;
  session : session_state }.

Definition empty_world : world :=
  {| elements := []; stdout := []; backend_calls := []; model_calls := [];
     raster_cache := []; analysis_cache := []; session := fresh_session |}.

(** *** Computations: state and exceptions *)

Definition M (A : Type) : Type := world -> (exn + A) * world.

Definition ret {A} (a : A) : M A := fun w => (inr a, w).

Definition raise {A} (e : exn) : M A := fun w => (inl e, w).

Definition bind {A B} (m : M A) (k : A -> M B) : M B :=
  fun w =>
    match m w with
    | (inr a, w') => k a w'
    | (inl e, w') => (inl e, w')
    end.

(** [try: m except Exception as e: h e] *)
Definition try_except {A} (m : M A) (h : exn -> M A) : M A :=
  fun w =>
    match m w with
    | (inr a, w') => (inr a, w')
    | (inl e, w') => h e w'
    end.

Declare Scope app_scope.
Delimit Scope app_scope with app.
Notation "x <- m ;; k" := (bind m (fun x => k))
  (at level 61, m at next level, right associativity) : app_scope.
Notation "m ;; k" := (bind m (fun _ => k))
  (at level 61, right associativity) : app_scope.
Local Open Scope app_scope.

Definition emit (el : element) : M unit :=
  fun w =>
    (inr tt,
     {| elements := elements w ++ [el]; stdout := stdout w;
        backend_calls := backend_calls w; model_calls := model_calls w;
        raster_cache := raster_cache w; analysis_cache := analysis_cache w;
        session := session w |}).

(** [print(line)] *)
Definition print (line : fstring) : M unit :=
  fun w =>
    (inr tt,
     {| elements := elements w; stdout := stdout w ++ [line];
        backend_calls := backend_calls w; model_calls := model_calls w;
        raster_cache := raster_cache w; analysis_cache := analysis_cache w;
        session := session w |}).

Definition set_session (s : session_state) : M unit :=
  fun w =>
    (inr tt,
     {| elements := elements w; stdout := stdout w;
        backend_calls := backend_calls w; model_calls := model_calls w;
        raster_cache := raster_cache w; analysis_cache := analysis_cache w;
        session := s |}).

Definition get_session : M session_state := fun w => (inr (session w), w).

(** [st.session_state.result = v] *)
Definition set_result (v : value) : M unit :=
  s <- get_session ;;
  set_session {| result := v; image_to_display := image_to_display s |}.

(** [st.session_state.image_to_display = i] *)
Definition set_image_to_display (i : option image) : M unit :=
  s <- get_session ;;
  set_session {| result := result s; image_to_display := i |}.

(** *** [st.cache_data] *)

(** A parameter whose name starts with an underscore is left out of the
    key. *)
Definition underscored (name : string) : bool :=
  match name with
  | String c _ => Ascii.eqb c "_"%char
  | EmptyString => false
  end.

Definition cache_key (params : list (string * arg)) : list arg :=
  map snd (filter (fun p => negb (underscored (fst p))) params).

Fixpoint cache_find {A} (k : list arg) (c : cache A) : option (entry A) :=
  match c with
  | [] => None
  | (k', e) :: c' =>
      if list_eq_dec arg_eq_dec k k' then Some e else cache_find k c'
  end.

(** How a decorated function reaches its own cache in the world. *)
Record slot (A : Type) := {
  slot_get : world -> cache A;
  slot_set : cache A -> world -> world }.

Definition with_elements (els : list element) (w : world) : world :=
  {| elements := els; stdout := stdout w;
     backend_calls := backend_calls w; model_calls := model_calls w;
     raster_cache := raster_cache w; analysis_cache := analysis_cache w;
     session := session w |}.

(** A call of a function decorated with [@st.cache_data]: on a hit the
    stored value is returned and the stored elements are replayed, the
    body is not run; on a miss the body runs and, when it returns, its
    value and the elements it emitted are stored under the key. *)
Definition cache_data {A} (sl : slot A) (params : list (string * arg))
           (body : M A) : M A :=
  fun w =>
    match cache_find (cache_key params) (slot_get sl w) with
    | Some (a, els) => (inr a, with_elements (elements w ++ els) w)
    | None =>
        match body (with_elements [] w) with
        | (inr a, w') =>
            (inr a,
             slot_set sl ((cache_key params, (a, elements w')) :: slot_get sl w')
                      (with_elements (elements w ++ elements w') w'))
        | (inl e, w') =>
            (inl e, with_elements (elements w ++ elements w') w')
        end
    end.

Definition raster_slot : slot (option image) :=
  {| slot_get := raster_cache;
     slot_set := fun c w =>
       {| elements := elements w; stdout := stdout w;
          backend_calls := backend_calls w; model_calls := model_calls w;
          raster_cache := c; analysis_cache := analysis_cache w;
          session := session w |} |}.

Definition analysis_slot : slot value :=
  {| slot_get := analysis_cache;
     slot_set := fun c w =>
       {| elements := elements w; stdout := stdout w;
          backend_calls := backend_calls w; model_calls := model_calls w;
          raster_cache := raster_cache w; analysis_cache := c;
          session := session w |} |}.

(** *** The prompt (lines 44-64) *)

Definition task_statement : str :=
  lit "    You are an expert document analysis AI. Your task is to analyze the provided image of a document and extract specific information.".

Definition json_object_rule : str :=
  lit "    3.  Your response **MUST** be a single, valid JSON object.".

Definition matching_keys_rule : str :=
  lit "    4.  The keys of the JSON object must exactly match the field names provided in the list.".

Definition sentinel_rule : str :=
  lit "    5.  If a value for a field cannot be found in the document, the corresponding value in the JSON object should be "
  ++ dq ++ lit "N/A" ++ dq ++ lit ".".

Definition example_fields : str :=
  lit "    **Example Request Fields**: ["
  ++ dq ++ lit "Invoice Number" ++ dq ++ lit ", "
  ++ dq ++ lit "Customer Name" ++ dq ++ lit ", "
  ++ dq ++ lit "Total Amount" ++ dq ++ lit "]".

(** The example reply, from its opening brace to its closing brace. *)
Definition example_json : str :=
  lit "{" ++ nl
  ++ lit "      " ++ dq ++ lit "Invoice Number" ++ dq ++ lit ": "
                  ++ dq ++ lit "INV-12345" ++ dq ++ lit "," ++ nl
  ++ lit "      " ++ dq ++ lit "Customer Name" ++ dq ++ lit ": "
                  ++ dq ++ lit "John Doe" ++ dq ++ lit "," ++ nl
  ++ lit "      " ++ dq ++ lit "Total Amount" ++ dq ++ lit ": "
                  ++ dq ++ lit "$999.99" ++ dq ++ nl
  ++ lit "    }".

Definition worked_example : str :=
  example_fields ++ nl
  ++ lit "    **Example JSON Response**:" ++ nl
  ++ lit "    " ++ example_json.

(** The f-string of lines 45-64 around [placeholders_str]. *)
Definition prompt_before : str :=
  nl ++ task_statement ++ nl
  ++ nl
  ++ lit "    **Instructions**:" ++ nl
  ++ lit "    1.  Carefully examine the document image." ++ nl
  ++ lit "    2.  Extract the values for the following fields: **".

Definition prompt_after : str :=
  lit "**" ++ nl
  ++ json_object_rule ++ nl
  ++ matching_keys_rule ++ nl
  ++ sentinel_rule ++ nl
  ++ nl
  ++ worked_example ++ nl
  ++ nl
  ++ lit "    Now, analyze the provided image and extract the data for the requested fields." ++ nl
  ++ lit "    ".

Definition make_prompt (placeholders : list str) : str :=
  let placeholders_str := join (lit ", ") placeholders in
  prompt_before ++ placeholders_str ++ prompt_after.

(** *** The helpers and the script, over the calls that leave the program *)

(** The values of the sidebar in one run.  [page_selector] is what
    [st.number_input(min_value=1, value=1)] returns; [uploaded_file] is
    the content of the uploaded file, if any. *)
Record inputs := {
  extract_button : bool;
  uploaded_file : option bytes;
  page_selector : Z;
  placeholders_text : str }.

Section Script.

(** [convert_from_bytes(pdf_bytes, first_page=f, last_page=l)] of
    pdf2image: a list of images, or an exception. *)
Variable convert_from_bytes : bytes -> Z -> Z -> exn + list image.

(** [GEMINI_MODEL.generate_content([prompt, image]).text]: the text of
    the reply, or the exception of the request or of reading [.text]. *)
Variable generate_content : str -> image -> exn + str.

Definition call_backend (pdf : bytes) (first last : Z) : M (list image) :=
  fun w =>
    (convert_from_bytes pdf first last,
     {| elements := elements w; stdout := stdout w;
        backend_calls := backend_calls w ++ [(pdf, first, last)];
        model_calls := model_calls w;
        raster_cache := raster_cache w; analysis_cache := analysis_cache w;
        session := session w |}).

Definition call_model (prompt : str) (img : image) : M str :=
  fun w =>
    (generate_content prompt img,
     {| elements := elements w; stdout := stdout w;
        backend_calls := backend_calls w;
        model_calls := model_calls w ++ [(prompt, img)];
        raster_cache := raster_cache w; analysis_cache := analysis_cache w;
        session := session w |}).

(** [images[0] if images else None] *)
Definition first_image (images : list image) : option image :=
  match images with
  | i :: _ => Some i
  | [] => None
  end.

(** Lines 28-36: the first definition of [pdf_to_image], decorated.  The
    name is bound again at line 79, before any call. *)
Definition pdf_to_image_line29 (pdf_bytes : bytes) (page_number : Z)
  : M (option image) :=
  cache_data raster_slot
    [("pdf_bytes"%string, ABytes pdf_bytes);
     ("page_number"%string, AInt page_number)]
    (try_except
       (images <- call_backend pdf_bytes (page_number + 1) (page_number + 1) ;;
        ret (first_image images))
       (fun e =>
          emit (st_error [Text (lit "Error converting PDF to image: ");
                          StrOfExn e]
                         [128444%N; 65039%N]) ;;
          ret None)).

(** Lines 79-87: [pdf_to_image] as the handler calls it. *)
Definition pdf_to_image (pdf_bytes : bytes) (page_number : Z)
  : M (option image) :=
  try_except
    (images <- call_backend pdf_bytes (page_number + 1) (page_number + 1) ;;
     ret (first_image images))
    (fun e =>
       print [Text (lit "Error: "); StrOfExn e] ;;
       ret None).

(** Line 71: the reply without its code fences. *)
Definition json_str (text : str) : str :=
  strip (replace (lit "```") [] (replace (lit "```json") [] (strip text))).

(** The two replacements of line 71 alone. *)
Definition unfence (s : str) : str :=
  replace (lit "```") [] (replace (lit "```json") [] s).

(** A reply inside a fenced block: the opening fence, with or without
    the [json] tag, on a line of its own, the text, and the closing
    fence on a line of its own. *)
Definition fence_open (tagged : bool) : str :=
  if tagged then lit "```json" else lit "```".

Definition fenced (tagged : bool) (j : str) : str :=
  fence_open tagged ++ nl ++ j ++ nl ++ lit "```".

(** [json.loads] inside the [try]. *)
Definition json_loads (s : str) : M value :=
  match Json.loads s with
  | inr v => ret v
  | inl e => raise e
  end.

(** Line 75: the error shown for the exception [e]. *)
Definition analysis_error (e : exn) : element :=
  st_error [Text (lit "Error during AI analysis: "); StrOfExn e] [128293%N].

(** Lines 44-76: the body of [analyze_document_with_gemini]. *)
Definition analyze_body (_image : image) (_placeholders : list str)
  : M value :=
  let prompt := make_prompt _placeholders in
  try_except
    (text <- call_model prompt _image ;;
     json_loads (json_str text))
    (fun e =>
       emit (analysis_error e) ;;
       ret VNone).

(** Lines 38-39: the decorated function. *)
Definition analyze_document_with_gemini (_image : image)
           (_placeholders : list str) : M value :=
  cache_data analysis_slot
    [("_image"%string, AImage _image);
     ("_placeholders"%string, AFields _placeholders)]
    (analyze_body _image _placeholders).

(** Lines 107-110: [page_number]. *)
Definition page_number (inp : inputs) : Z :=
  match uploaded_file inp with
  | Some _ => page_selector inp - 1
  | None => 0
  end.

(** Line 133: the stripped, non-blank lines of the text area. *)
Definition placeholders_of (text : str) : list str :=
  map strip
      (filter (fun p => Str.truthy (strip p)) (split 10%N (strip text))).

(** Line 135: the warning. *)
Definition placeholder_warning : element :=
  st_warning [Text (lit "Please define at least one placeholder.")]
             [9888%N; 65039%N].

(** Lines 132-148: the handler of the button.  The guard of line 132 is
    the button, the uploaded file and a non-empty text. *)
Definition handle_extract (inp : inputs) : M unit :=
  match uploaded_file inp with
  | Some pdf_bytes =>
      if extract_button inp && Str.truthy (placeholders_text inp) then
        match placeholders_of (placeholders_text inp) with
        | [] => emit placeholder_warning
        | (_ :: _) as placeholders =>
            image <- pdf_to_image pdf_bytes (page_number inp) ;;
            match image with
            | Some img =>
                set_image_to_display (Some img) ;;
                analysis_result <-
                  analyze_document_with_gemini img placeholders ;;
                set_result analysis_result
            | None =>
                set_result VNone ;;
                set_image_to_display None
            end
        end
      else ret tt
  | None => ret tt
  end.

Definition type_name (v : value) : string :=
  match v with
  | VNone => "NoneType"
  | VBool _ => "bool"
  | VInt _ => "int"
  | VFloat _ _ _ | VNaN | VInf _ => "float"
  | VStr _ => "str"
  | VList _ => "list"
  | VDict _ => "dict"
  end.

(** What [v.items()] raises when [v] is not a dict. *)
Definition no_items (v : value) : exn :=
  AttributeError ("'" ++ type_name v ++ "' object has no attribute 'items'").

(** [v.items()] *)
Definition items (v : value) : M (list (str * value)) :=
  match v with
  | VDict d => ret d
  | _ => raise (no_items v)
  end.

Fixpoint for_each {A} (l : list A) (body : A -> M unit) : M unit :=
  match l with
  | [] => ret tt
  | a :: l' => body a ;; for_each l' body
  end.

(** A code point of the surrogate range. *)
Definition surrogate (c : char) : bool :=
  ((55296 <=? c) && (c <=? 57343))%N.

(** [s.encode("utf-8")] succeeds: [s] holds no surrogate. *)
Definition encodable (s : str) : bool :=
  forallb (fun c => negb (surrogate c)) s.

(** [str(v).encode("utf-8")] succeeds.  The [str()] of a [str] is the
    string itself; that of a number, a boolean or [None] is ASCII; that of
    a list or a dict is made of the [repr] of its items, which writes a
    surrogate as its escape. *)
Definition str_encodable (v : value) : bool :=
  match v with
  | VStr s => encodable s
  | _ => true
  end.

(** The label, the value and the key of a result can be sent to the
    browser. *)
Definition field_encodable (kv : str * value) : bool :=
  encodable (fst kv) && str_encodable (snd kv).

(** Lines 160-165: the widget of one item.  Its label, value and key are
    encoded as UTF-8 for the browser; a lone surrogate, which [json.loads]
    builds from an escape such as [\ud83d], cannot be encoded and the call
    raises. *)
Definition text_input (kv : str * value) : M unit :=
  if field_encodable kv then
    emit (st_text_input (fst kv) [StrOfValue (snd kv)] true
                        [Text (lit "result_"); Text (fst kv)])
  else raise UnicodeEncodeError.

(** Lines 152-173: the results. *)
Definition show_results (inp : inputs) : M unit :=
  s <- get_session ;;
  if Py.truthy (result s) then
    emit (st_header (lit "Extracted Information")) ;;
    emit (st_subheader (lit "Results")) ;;
    kvs <- items (result s) ;;
    for_each kvs text_input ;;
    emit (st_subheader (lit "Analyzed Document")) ;;
    s' <- get_session ;;
    match image_to_display s' with
    | Some img =>
        emit (st_image img [Text (lit "Analyzed Page ");
                            StrOfInt (page_number inp + 1)])
    | None => ret tt
    end
  else if negb (extract_button inp) then
    emit (st_info
            [Text (lit "Upload a PDF and define placeholders in the sidebar to begin.")])
  else ret tt.

(** One run of the script from line 131 on. *)
Definition run_script (inp : inputs) : M unit :=
  handle_extract inp ;; show_results inp.

(** *** Vocabulary of the statements *)

(** The reply to a request cannot be used: the request, or reading
    [.text], raised [e], or [json.loads] raised [e] on the text of
    line 71. *)
Definition extraction_fails (reply : exn + str) (e : exn) : Prop :=
  match reply with
  | inl e' => e' = e
  | inr text => Json.loads (json_str text) = inl e
  end.

(** A run in which the button is pressed on the file [pdf], the text
    area gives the non-empty list [fields], and the backend returns
    [img] first for the selected page. *)
Definition extraction_run (inp : inputs) (pdf : bytes) (img : image)
           (fields : list str) : Prop :=
  extract_button inp = true
  /\ uploaded_file inp = Some pdf
  /\ placeholders_of (placeholders_text inp) = fields
  /\ fields <> []
  /\ exists rest,
      convert_from_bytes pdf (page_number inp + 1) (page_number inp + 1)
      = inr (img :: rest).

(** The backend gives no image: it raises, or it returns an empty
    list (which is what it does for a page the document lacks). *)
Definition rasterization_fails (r : exn + list image) : Prop :=
  match r with
  | inl _ => True
  | inr images => images = []
  end.

(** What line 86 prints for the result [r] of the backend. *)
Definition printed (r : exn + list image) : list fstring :=
  match r with
  | inl e => [[Text (lit "Error: "); StrOfExn e]]
  | inr _ => []
  end.

(** The mapping of the worked example. *)
Definition example_mapping : value :=
  VDict [(lit "Invoice Number", VStr (lit "INV-12345"));
         (lit "Customer Name", VStr (lit "John Doe"));
         (lit "Total Amount", VStr (lit "$999.99"))].

(** No entry of the analysis cache can answer a call. *)
Definition analysis_miss (w : world) : Prop :=
  cache_find [] (analysis_cache w) = None.

End Script.

(** pdf2image on a document whose pages render to [pages]: the images of
    the pages [first] to [last], counted from 1, that the document has. *)
Definition pages_between (pages : list image) (first last : Z) : list image :=
  firstn (Z.to_nat (last - first + 1)) (skipn (Z.to_nat (first - 1)) pages).


(** *** Sample documents, services and runs *)

Module Samples.

Definition page_one : image := Image [0%N; 255%N].
Definition page_two : image := Image [255%N; 0%N].

(** The first bytes of a PDF file. *)
Definition pdf : bytes :=
  [Byte.x25; Byte.x50; Byte.x44; Byte.x46].

(** A backend that renders every document to two pages. *)
Definition renders (_ : bytes) (first last : Z) : exn + list image :=
  inr (pages_between [page_one; page_two] first last).

(** A backend that cannot read the document. *)
Definition unreadable (_ : bytes) (_ _ : Z) : exn + list image :=
  inl (Raised "PDFPageCountError" (lit "Unable to get page count.")).

(** A model with one fixed reply. *)
Definition replies (text : str) (_ : str) (_ : image) : exn + str :=
  inr text.

(** A model that cannot be reached. *)
Definition unreachable (_ : str) (_ : image) : exn + str :=
  inl (Raised "ServiceUnavailable" (lit "503 The service is unavailable.")).

(** A model that answers with the number of the page it is shown. *)
Definition page_teller (_ : str) (img : image) : exn + str :=
  match img with
  | Image (0%N :: _) => inr (lit "{" ++ dq ++ lit "page" ++ dq ++ lit ": 1}")
  | _ => inr (lit "{" ++ dq ++ lit "page" ++ dq ++ lit ": 2}")
  end.

(** A reply in plain prose, and a reply that is a JSON array. *)
Definition prose : str := lit "I could not read the document.".
Definition array_reply : str := lit "[1, 2]".

Definition one_field : list str := [lit "Invoice Number"].

(** The button pressed on [pdf], page 1 selected, with the given text. *)
Definition click (text : str) : inputs :=
  {| extract_button := true; uploaded_file := Some pdf;
     page_selector := 1; placeholders_text := text |}.

(** The button pressed with no file uploaded. *)
Definition click_without_file (text : str) : inputs :=
  {| extract_button := true; uploaded_file := None;
     page_selector := 1; placeholders_text := text |}.

End Samples.

End App.

(** ** More vocabulary: fields, runs, the results section *)

Module Vocab.
Import App.

(** [x in s], decided. *)
Fixpoint occurs (x s : str) : bool :=
  startswith x s ||
  match s with
  | [] => false
  | _ :: t => occurs x t
  end.

(** A field name as line 133 leaves it: not empty, no whitespace at either
    end, no line break. *)
Definition clean (f : str) : Prop :=
  f <> [] /\ strip f = f /\ ~ In 10%N f.

(** The guard of line 132 and the test of line 134 together: the run goes
    on to [pdf_to_image]. *)
Definition reaches_pipeline (inp : inputs) : bool :=
  match uploaded_file inp with
  | Some _ =>
      extract_button inp && Str.truthy (placeholders_text inp)
      && match placeholders_of (placeholders_text inp) with
         | [] => false
         | _ :: _ => true
         end
  | None => false
  end.

(** A stored result comes with a stored image. *)
Definition result_has_image (s : session_state) : Prop :=
  result s <> VNone -> image_to_display s <> None.

(** Lines 160-165: the widget of one item of the result. *)
Definition result_field (kv : str * value) : element :=
  st_text_input (fst kv) [StrOfValue (snd kv)] true
                [Text (lit "result_"); Text (fst kv)].

(** The [key=] of a widget. *)
Definition widget_key (el : element) : option fstring :=
  match el with
  | st_text_input _ _ _ k => Some k
  | _ => None
  end.

(** Line 170: the image with its caption. *)
Definition analyzed_page (img : image) (page : Z) : element :=
  st_image img [Text (lit "Analyzed Page "); StrOfInt page].

(** Lines 153-170 for a dict [d]: the header, the widgets of the items in
    their order, and the image, if one is stored, with the page number of
    the run. *)
Definition results_section (d : list (str * value)) (img : option image)
           (page : Z) : list element :=
  [st_header (lit "Extracted Information"); st_subheader (lit "Results")]
  ++ map result_field d
  ++ [st_subheader (lit "Analyzed Document")]
  ++ match img with
     | Some i => [analyzed_page i page]
     | None => []
     end.

(** The items the loop of line 159 reaches before one that cannot be
    encoded. *)
Fixpoint shown_fields (d : list (str * value)) : list (str * value) :=
  match d with
  | [] => []
  | kv :: d' => if field_encodable kv then kv :: shown_fields d' else []
  end.

(** Lines 153-165 up to the widget that raises: the header and the
    widgets of the items before it. *)
Definition results_begun (d : list (str * value)) : list element :=
  [st_header (lit "Extracted Information"); st_subheader (lit "Results")]
  ++ map result_field (shown_fields d).

(** RFC 8259: outside its strings a JSON text is made of whitespace, the
    six structural characters, numbers and the names [false], [null] and
    [true].  These are the characters they are written with. *)
Definition json_token_char (c : char) : bool :=
  existsb (N.eqb c) (lit " []{}:,+-.0123456789Eaeflnrstu")
  || (c =? 9)%N || (c =? 10)%N || (c =? 13)%N.

(** Every character of [s] outside a string is one of them, which holds
    of every valid JSON text; [in_string] tells whether [s] starts inside
    a string. *)
Fixpoint within_json_alphabet (in_string : bool) (s : str) : bool :=
  match s with
  | [] => true
  | c :: t =>
      if in_string then
        if (c =? 92)%N then
          match t with
          | [] => true
          | _ :: t' => within_json_alphabet true t'
          end
        else within_json_alphabet (negb (c =? 34)%N) t
      else if (c =? 34)%N then within_json_alphabet true t
      else json_token_char c && within_json_alphabet false t
  end.

(** A character that is neither a backslash nor a surrogate. *)
Definition plain_char (c : char) : bool :=
  negb (surrogate c) && negb (c =? 92)%N.

(** A text without escapes and without surrogates. *)
Definition plain_text (s : str) : bool := forallb plain_char s.

(** [r] is what is left of [s] after some characters. *)
Definition rest_of (s r : str) : Prop := exists pre, s = pre ++ r.

(** A value that is neither a list nor a dict. *)
Definition scalar (v : value) : bool :=
  match v with
  | VList _ | VDict _ => false
  | _ => true
  end.

(** The backtick. *)
Definition tick : N := 96%N.

(** The world [w'] differs from [w] in the page only. *)
Definition only_elements (w w' : world) : Prop :=
  stdout w' = stdout w
  /\ backend_calls w' = backend_calls w
  /\ model_calls w' = model_calls w
  /\ raster_cache w' = raster_cache w
  /\ analysis_cache w' = analysis_cache w
  /\ session w' = session w.

(** A run without the button, on the sample file, with the selector at
    [selector]. *)
Definition rerun (selector : Z) : inputs :=
  {| extract_button := false; uploaded_file := Some Samples.pdf;
     page_selector := selector; placeholders_text := lit "Invoice Number" |}.

(** A world whose session holds [v] and [img] and nothing else. *)
Definition stored (v : value) (img : option image) : world :=
  snd (set_session {| result := v; image_to_display := img |} empty_world).

(** Line 173: the invitation shown when nothing is stored. *)
Definition begin_info : element :=
  st_info [Text (lit "Upload a PDF and define placeholders in the sidebar to begin.")].

End Vocab.

(** * Facts *)

Import App.
Unset Implicit Arguments.

(** ** Strings *)

Module StrFacts.

Lemma startswith_In (p s : str) (c : char) :
  p <> [] -> ~ In c p -> startswith p (c :: s) = false.
Proof.
  destruct p as [|a p]; [congruence|]. intros _ Hc. simpl.
  destruct (N.eqb_spec a c) as [->|]; [|reflexivity].
  exfalso. apply Hc. now left.
Qed.

(** A match never runs over a character that is not in the pattern. *)
Lemma startswith_sep (p a b : str) (c : char) :
  ~ In c p ->
  startswith p (a ++ c :: b) = startswith p a.
Proof.
  revert a. induction p as [|x p IH]; intros a Hc; [reflexivity|].
  destruct a as [|y a]; simpl.
  - destruct (N.eqb_spec x c) as [->|]; [|reflexivity].
    exfalso. apply Hc. now left.
  - rewrite IH; [reflexivity|]. intro H. apply Hc. now right.
Qed.

Lemma startswith_length (p s : str) :
  startswith p s = true -> List.length p <= List.length s.
Proof.
  revert s. induction p as [|x p IH]; intros [|y s]; simpl; try lia; try discriminate.
  intros H. apply andb_prop in H as [_ H]. apply IH in H. lia.
Qed.

Lemma replace_from_sep (old new a b : str) (c : char) (k : nat) :
  old <> [] -> ~ In c old -> k <= List.length a ->
  replace_from old new k (a ++ c :: b)
  = replace_from old new k a ++ c :: replace_from old new 0 b.
Proof.
  intros Hne Hc. revert k.
  induction a as [|x a IH]; intros k Hk.
  - assert (k = 0) as -> by (simpl in Hk; lia).
    cbn [app replace_from].
    now rewrite (@startswith_In old b c Hne Hc).
  - destruct k as [|k].
    + change ((x :: a) ++ c :: b) with (x :: (a ++ c :: b)).
      cbn [replace_from].
      change (x :: a ++ c :: b) with ((x :: a) ++ c :: b).
      rewrite (@startswith_sep old (x :: a) b c Hc).
      destruct (startswith old (x :: a)) eqn:Hs.
      * apply startswith_length in Hs. simpl in Hs.
        rewrite IH by lia. now rewrite app_assoc.
      * rewrite IH by lia. reflexivity.
    + cbn [app replace_from]. apply IH. simpl in Hk. lia.
Qed.

Lemma replace_sep (old new a b : str) (c : char) :
  old <> [] -> ~ In c old ->
  replace old new (a ++ c :: b)
  = replace old new a ++ c :: replace old new b.
Proof.
  intros Hne Hc. destruct old as [|o old]; [congruence|].
  unfold replace. apply replace_from_sep; auto. lia.
Qed.

Lemma replace_nil (old new : str) : old <> [] -> replace old new [] = [].
Proof. destruct old; [congruence|reflexivity]. Qed.

(** Characters outside the pattern at either end are left where they are. *)
Lemma replace_outside_l (old new w s : str) :
  old <> [] -> Forall (fun c => ~ In c old) w ->
  replace old new (w ++ s) = w ++ replace old new s.
Proof.
  intros Hne Hw. induction Hw as [|c w Hc _ IH]; [reflexivity|].
  change ((c :: w) ++ s) with ([] ++ c :: (w ++ s)).
  rewrite replace_sep by assumption.
  rewrite replace_nil by assumption. simpl. now rewrite IH.
Qed.

Lemma replace_outside_r (old new w s : str) :
  old <> [] -> Forall (fun c => ~ In c old) w ->
  replace old new (s ++ w) = replace old new s ++ w.
Proof.
  intros Hne Hw. destruct Hw as [|c w Hc Hw].
  - now rewrite !app_nil_r.
  - rewrite replace_sep by assumption. f_equal. f_equal.
    rewrite <- (app_nil_r w) at 1.
    rewrite replace_outside_l by assumption.
    now rewrite replace_nil, app_nil_r.
Qed.

(** *** [strip] *)

Lemma lstrip_blank_l (w s : str) : blank w -> lstrip (w ++ s) = lstrip s.
Proof.
  induction 1 as [|c w Hc _ IH]; [reflexivity|].
  simpl. now rewrite Hc.
Qed.

Lemma lstrip_blank (w : str) : blank w -> lstrip w = [].
Proof.
  intros H. rewrite <- (app_nil_r w). now rewrite lstrip_blank_l.
Qed.

Lemma lstrip_split (s : str) :
  exists w, blank w /\ s = w ++ lstrip s.
Proof.
  induction s as [|c s [w [Hw Hs]]].
  - exists []. split; [constructor|reflexivity].
  - simpl. destruct (isspace c) eqn:Hc.
    + exists (c :: w). split; [now constructor|]. simpl. now f_equal.
    + exists []. split; [constructor|reflexivity].
Qed.

Lemma lstrip_app_blank (s w : str) :
  blank w -> lstrip (s ++ w) = match lstrip s with [] => [] | _ => lstrip s ++ w end.
Proof.
  intros Hw. induction s as [|c s IH].
  - simpl. now apply lstrip_blank.
  - simpl. destruct (isspace c); [exact IH|reflexivity].
Qed.

Lemma blank_rev (w : str) : blank w -> blank (rev w).
Proof. unfold blank. rewrite !Forall_forall. intros H c Hc. apply H. now apply in_rev. Qed.

Lemma rstrip_blank_r (s w : str) : blank w -> rstrip (s ++ w) = rstrip s.
Proof.
  intros Hw. unfold rstrip. rewrite rev_app_distr.
  rewrite lstrip_blank_l by now apply blank_rev. reflexivity.
Qed.

Lemma rstrip_split (s : str) : exists w, blank w /\ s = rstrip s ++ w.
Proof.
  destruct (lstrip_split (rev s)) as [w [Hw Hs]].
  exists (rev w). split; [now apply blank_rev|].
  unfold rstrip. rewrite <- rev_app_distr, <- Hs. now rewrite rev_involutive.
Qed.

(** Whitespace around a text does not change what [strip] returns. *)
Lemma strip_blank_around (w1 s w2 : str) :
  blank w1 -> blank w2 -> strip (w1 ++ s ++ w2) = strip s.
Proof.
  intros H1 H2. unfold strip.
  rewrite lstrip_blank_l by assumption.
  rewrite lstrip_app_blank by assumption.
  destruct (lstrip s) as [|c t]; [reflexivity|].
  now apply rstrip_blank_r.
Qed.

Lemma strip_split (s : str) :
  exists w1 w2, blank w1 /\ blank w2 /\ s = w1 ++ strip s ++ w2.
Proof.
  destruct (lstrip_split s) as [w1 [H1 Hs]].
  destruct (rstrip_split (lstrip s)) as [w2 [H2 Ht]].
  exists w1, w2. repeat split; try assumption.
  unfold strip. now rewrite <- Ht.
Qed.

(** A whitespace character is in neither fence pattern. *)
Lemma blank_outside (old : str) (w : str) :
  forallb (fun c => negb (isspace c)) old = true ->
  blank w -> Forall (fun c => ~ In c old) w.
Proof.
  intros Ho Hw. rewrite forallb_forall in Ho.
  eapply Forall_impl; [|exact Hw]. intros c Hc Hin.
  apply Ho in Hin. simpl in Hc. rewrite Hc in Hin. discriminate.
Qed.

End StrFacts.

(** ** Code fences *)

Module FenceFacts.
Import StrFacts.

Lemma fence_patterns_no_space :
  forallb (fun c => negb (isspace c)) (lit "```json") = true
  /\ forallb (fun c => negb (isspace c)) (lit "```") = true.
Proof. split; reflexivity. Qed.

Lemma nl_blank : blank nl.
Proof. repeat constructor. Qed.

Lemma json_str_unfence (text : str) :
  json_str text = strip (unfence (strip text)).
Proof. reflexivity. Qed.

Lemma unfence_blank_around (w1 s w2 : str) :
  blank w1 -> blank w2 ->
  unfence (w1 ++ s ++ w2) = w1 ++ unfence s ++ w2.
Proof.
  intros H1 H2. unfold unfence.
  destruct fence_patterns_no_space as [P1 P2].
  rewrite (@replace_outside_l (lit "```json")); [|discriminate|now apply blank_outside].
  rewrite (@replace_outside_r (lit "```json")); [|discriminate|now apply blank_outside].
  rewrite (@replace_outside_l (lit "```")); [|discriminate|now apply blank_outside].
  rewrite (@replace_outside_r (lit "```")); [|discriminate|now apply blank_outside].
  reflexivity.
Qed.

(** Stripping before the replacements or only after them is the same. *)
Lemma strip_unfence_strip (s : str) :
  strip (unfence (strip s)) = strip (unfence s).
Proof.
  destruct (strip_split s) as [w1 [w2 [H1 [H2 Hs]]]].
  rewrite Hs at 2.
  rewrite unfence_blank_around by assumption.
  now rewrite strip_blank_around.
Qed.

Lemma rstrip_last (s : str) (c : char) :
  isspace c = false -> rstrip (s ++ [c]) = s ++ [c].
Proof.
  intros Hc. unfold rstrip. rewrite rev_app_distr. simpl. rewrite Hc.
  simpl. now rewrite rev_involutive.
Qed.

Lemma strip_fenced (tagged : bool) (j : str) :
  strip (fenced tagged j) = fenced tagged j.
Proof.
  unfold strip.
  assert (L : lstrip (fenced tagged j) = fenced tagged j)
    by (destruct tagged; reflexivity).
  rewrite L. unfold fenced.
  change (lit "```") with (lit "``" ++ [96%N]).
  rewrite !app_assoc. now apply rstrip_last.
Qed.

Lemma unfence_fenced (tagged : bool) (j : str) :
  unfence (fenced tagged j) = nl ++ unfence j ++ nl.
Proof.
  unfold unfence, fenced, nl.
  assert (N1 : ~ In 10%N (lit "```json")) by (simpl; intuition discriminate).
  assert (N2 : ~ In 10%N (lit "```")) by (simpl; intuition discriminate).
  change ([10%N] ++ j ++ [10%N] ++ lit "```")
    with (10%N :: (j ++ 10%N :: lit "```")).
  rewrite !(@replace_sep (lit "```json")) by (assumption || discriminate).
  change (replace (lit "```json") [] (lit "```")) with (lit "```").
  rewrite !(@replace_sep (lit "```")) by (assumption || discriminate).
  change (replace (lit "```") [] (lit "```")) with (@nil char).
  destruct tagged; reflexivity.
Qed.

Lemma rstrip_fence (x : str) : rstrip (x ++ lit "```") = x ++ lit "```".
Proof.
  change (lit "```") with (lit "``" ++ [96%N]).
  rewrite app_assoc. now apply rstrip_last.
Qed.

(** The same with any whitespace, not none, after the opening fence and
    before the closing one. *)
Lemma json_str_fenced_with (tagged : bool) (c1 c2 : N) (w1 w2 j : str) :
  blank (c1 :: w1) -> blank (c2 :: w2) ->
  json_str (fence_open tagged ++ (c1 :: w1) ++ j ++ (c2 :: w2) ++ lit "```")
  = json_str j.
Proof.
  intros B1 B2.
  destruct fence_patterns_no_space as [P1 P2].
  pose proof (blank_outside _ _ P1 B1) as O1.
  pose proof (blank_outside _ _ P2 B1) as O1'.
  pose proof (blank_outside _ _ P1 B2) as O2.
  pose proof (blank_outside _ _ P2 B2) as O2'.
  inversion O1 as [|? ? N1 T1]; inversion O1' as [|? ? N1' T1'];
    inversion O2 as [|? ? N2 T2]; inversion O2' as [|? ? N2' T2']; subst.
  rewrite !json_str_unfence.
  assert (S : strip (fence_open tagged ++ (c1 :: w1) ++ j ++ (c2 :: w2) ++ lit "```")
              = fence_open tagged ++ (c1 :: w1) ++ j ++ (c2 :: w2) ++ lit "```").
  { unfold strip.
    assert (L : forall x, lstrip (fence_open tagged ++ x) = fence_open tagged ++ x)
      by (intros x; destruct tagged; reflexivity).
    rewrite L, !app_assoc. apply rstrip_fence. }
  rewrite S. clear S.
  assert (U : unfence (fence_open tagged ++ (c1 :: w1) ++ j ++ (c2 :: w2) ++ lit "```")
              = (c1 :: w1) ++ unfence j ++ (c2 :: w2)).
  { unfold unfence. cbn [app].
    rewrite (replace_sep (lit "```json")) by (assumption || discriminate).
    rewrite (replace_outside_l (lit "```json")) by (assumption || discriminate).
    rewrite (replace_sep (lit "```json")) by (assumption || discriminate).
    rewrite (replace_outside_l (lit "```json")) by (assumption || discriminate).
    change (replace (lit "```json") [] (lit "```")) with (lit "```").
    rewrite (replace_sep (lit "```")) by (assumption || discriminate).
    rewrite (replace_outside_l (lit "```")) by (assumption || discriminate).
    rewrite (replace_sep (lit "```")) by (assumption || discriminate).
    rewrite (replace_outside_l (lit "```")) by (assumption || discriminate).
    change (replace (lit "```") [] (lit "```")) with (@nil N).
    rewrite app_nil_r.
    destruct tagged; reflexivity. }
  rewrite U, strip_blank_around by assumption.
  symmetry. apply strip_unfence_strip.
Qed.

(** Line 71 on a fenced reply gives what it gives on the text inside. *)
Lemma json_str_fenced (tagged : bool) (j : str) :
  json_str (fenced tagged j) = json_str j.
Proof.
  rewrite !json_str_unfence, strip_fenced, unfence_fenced.
  rewrite strip_blank_around by apply nl_blank.
  symmetry. apply strip_unfence_strip.
Qed.

End FenceFacts.

(** ** The decoder *)

Module JsonFacts.
Import Json StrFacts.

Lemma shrinks_weaken {A} (m : res (A * str)) (n n' : nat) :
  shrinks m n -> n <= n' -> shrinks m n'.
Proof. destruct m as [[a r]| |]; simpl; auto; lia. Qed.

Lemma shrinks_bind {A B} (m : res (A * str)) (f : A * str -> res (B * str))
      (n n' : nat) :
  shrinks m n ->
  (forall p, List.length (snd p) < n -> shrinks (f p) n') ->
  shrinks (Json.bind m f) n'.
Proof. destruct m as [p| |]; simpl; auto. Qed.

Lemma shrinks_push (c : char) (m : res (str * str)) (n n' : nat) :
  shrinks m n -> n <= n' -> shrinks (push c m) n'.
Proof.
  intros Hm Hn. unfold push. eapply shrinks_bind; [exact Hm|].
  intros p Hp. simpl. lia.
Qed.

Lemma skip_ws_length (s : str) : List.length (skip_ws s) <= List.length s.
Proof.
  induction s as [|c s IH]; simpl; [lia|].
  destruct (is_ws c); simpl; lia.
Qed.

Lemma scanstring_shrinks_upto (n : nat) :
  forall s, List.length s <= n -> shrinks (scanstring s) (List.length s).
Proof.
  induction n as [|n IH]; intros s Hn.
  - destruct s; [exact I|simpl in Hn; lia].
  - destruct s as [|c t]; [exact I|].
    cbn [scanstring].
    destruct (c =? 34)%N; [simpl; lia|].
    destruct (c =? 92)%N.
    + destruct t as [|e t1]; [exact I|].
      destruct (e =? 117)%N.
      * destruct t1 as [|h1 [|h2 [|h3 [|h4 t2]]]]; try exact I.
        destruct (hex4 h1 h2 h3 h4); [|exact I].
        destruct t2 as [|b [|u' [|g1 [|g2 [|g3 [|g4 t3]]]]]];
          try (eapply shrinks_push; [apply IH; simpl in *; lia|simpl; lia]).
        destruct (if is_high n0 then _ else _) as [[u2 r]|];
          (eapply shrinks_push; [apply IH; simpl in *; lia|simpl; lia]).
      * destruct (escape e); [|exact I].
        eapply shrinks_push; [apply IH; simpl in *; lia|simpl; lia].
    + destruct (c <? 32)%N; [exact I|].
      eapply shrinks_push; [apply IH; simpl in *; lia|simpl; lia].
Qed.

Lemma scanstring_shrinks (s : str) : shrinks (scanstring s) (List.length s).
Proof. now apply (@scanstring_shrinks_upto (List.length s)). Qed.

Lemma span_digits_length (s : str) :
  List.length (snd (span_digits s)) <= List.length s.
Proof.
  induction s as [|c s IH]; simpl; [lia|].
  destruct (isdigit c); simpl; lia.
Qed.

Lemma int_part_length (s i r : str) :
  int_part s = Some (i, r) -> List.length r < List.length s.
Proof.
  destruct s as [|c t]; [discriminate|]. unfold int_part.
  destruct (c =? 48)%N.
  - intros H. inversion H; subst. simpl. lia.
  - destruct (isdigit c) eqn:Hd; [|discriminate].
    intros H. simpl in H. rewrite Hd in H. inversion H; subst.
    pose proof (span_digits_length t). simpl. lia.
Qed.

Lemma frac_part_length (s f r : str) :
  frac_part s = Some (f, r) -> List.length r <= List.length s.
Proof.
  destruct s as [|d [|c t]]; try discriminate. unfold frac_part.
  destruct ((d =? 46)%N && isdigit c); [|discriminate].
  intros H. injection H as H.
  pose proof (span_digits_length (c :: t)) as L.
  change (span_digits (c :: t) = (f, r)) in H. rewrite H in L.
  simpl in *. lia.
Qed.

Lemma exp_part_length (s r : str) (e : Z) :
  exp_part s = Some (e, r) -> List.length r <= List.length s.
Proof.
  destruct s as [|x t]; [discriminate|]. unfold exp_part.
  destruct ((x =? 101)%N || (x =? 69)%N); [|discriminate].
  set (sg := match t with [] => _ | _ :: _ => _ end).
  assert (Hsg : List.length (snd sg) <= List.length t).
  { subst sg. destruct t as [|g u]; simpl; [lia|].
    destruct (g =? 45)%N; [simpl; lia|].
    destruct (g =? 43)%N; simpl; lia. }
  destruct sg as [neg t']. simpl in Hsg.
  pose proof (span_digits_length t') as Hd.
  destruct (span_digits t') as [[|d0 d] r']; [discriminate|].
  intros H. inversion H; subst. simpl in *. lia.
Qed.

Lemma match_number_length (s r : str) (v : value) :
  match_number s = Some (v, r) -> List.length r < List.length s.
Proof.
  unfold match_number.
  set (sg := match s with [] => _ | _ :: _ => _ end).
  assert (Hsg : List.length (snd sg) <= List.length s).
  { subst sg. destruct s as [|c t]; simpl; [lia|].
    destruct (c =? 45)%N; simpl; lia. }
  destruct sg as [neg s1]. simpl in Hsg.
  destruct (int_part s1) as [[i r1]|] eqn:Hi; [|discriminate].
  apply int_part_length in Hi.
  destruct (frac_part r1) as [[f r2]|] eqn:Hf.
  - apply frac_part_length in Hf.
    destruct (exp_part r2) as [[e r3]|] eqn:He.
    + apply exp_part_length in He. intros H; inversion H; subst. lia.
    + intros H; inversion H; subst. lia.
  - destruct (exp_part r1) as [[e r3]|] eqn:He.
    + apply exp_part_length in He. intros H; inversion H; subst. lia.
    + intros H; inversion H; subst. lia.
Qed.

Lemma constant_length (w : string) (v v' : value) (s r : str) :
  lit w <> [] ->
  constant w v s = Some (v', r) -> List.length r < List.length s.
Proof.
  intros Hw. unfold constant.
  destruct (startswith (lit w) s) eqn:Hs; [|discriminate].
  intros H; inversion H; subst. rewrite length_skipn.
  apply startswith_length in Hs.
  destruct (lit w); [congruence|]. simpl in *. lia.
Qed.

Lemma scan_atom_length (s r : str) (v : value) :
  scan_atom s = Some (v, r) -> List.length r < List.length s.
Proof.
  unfold scan_atom, first_of.
  repeat match goal with
         | |- context [match constant ?w ?x s with _ => _ end] =>
             let H := fresh "H" in
             destruct (constant w x s) as [[? ?]|] eqn:H;
             [intros H'; inversion H'; subst; revert H; apply constant_length; discriminate|]
         | |- context [match match_number s with _ => _ end] =>
             let H := fresh "H" in
             destruct (match_number s) as [[? ?]|] eqn:H;
             [intros H'; inversion H'; subst; revert H; apply match_number_length|]
         end.
  apply constant_length. discriminate.
Qed.

Ltac len := simpl in *; lia.

(** With the fuel [loads] gives, no call of the scanner runs out. *)
Lemma scanner_shrinks (fuel : nat) :
  (forall s, 2 * List.length s + 1 <= fuel ->
             shrinks (scan_once fuel s) (List.length s))
  /\ (forall s, 2 * List.length s + 2 <= fuel ->
                shrinks (object_loop fuel s) (List.length s))
  /\ (forall s, 2 * List.length s + 2 <= fuel ->
                shrinks (array_loop fuel s) (List.length s)).
Proof.
  induction fuel as [|n [IHs [IHo IHa]]].
  - repeat split; intros s H; lia.
  - repeat split; intros s Hf.
    + destruct s as [|c t]; [exact I|]. cbn [scan_once].
      destruct (c =? 34)%N.
      { eapply shrinks_bind; [apply scanstring_shrinks|].
        intros p Hp. len. }
      destruct (c =? 123)%N.
      { pose proof (skip_ws_length t) as Hw.
        destruct (skip_ws t) as [|c' t']; [exact I|].
        destruct (c' =? 125)%N; [len|].
        eapply shrinks_bind; [apply IHo; len|].
        intros p Hp. len. }
      destruct (c =? 91)%N.
      { pose proof (skip_ws_length t) as Hw.
        destruct (skip_ws t) as [|c' t']; [exact I|].
        destruct (c' =? 93)%N; [len|].
        eapply shrinks_bind; [apply IHa; len|].
        intros p Hp. len. }
      destruct (scan_atom (c :: t)) as [[v r]|] eqn:Ha; [|exact I].
      apply scan_atom_length in Ha. exact Ha.
    + destruct s as [|q t]; [exact I|]. cbn [object_loop].
      destruct (q =? 34)%N; [|exact I].
      eapply shrinks_bind; [apply scanstring_shrinks|].
      intros k Hk.
      pose proof (skip_ws_length (snd k)) as Hw.
      destruct (skip_ws (snd k)) as [|d r]; [exact I|].
      destruct (d =? 58)%N; [|exact I].
      pose proof (skip_ws_length r) as Hw'.
      eapply shrinks_bind; [apply IHs; len|].
      intros v Hv.
      pose proof (skip_ws_length (snd v)) as Hw''.
      destruct (skip_ws (snd v)) as [|e r']; [exact I|].
      destruct (e =? 125)%N; [len|].
      destruct (e =? 44)%N; [|exact I].
      pose proof (skip_ws_length r') as Hw3.
      eapply shrinks_bind; [apply IHo; len|].
      intros p Hp. len.
    + cbn [array_loop].
      eapply shrinks_bind; [apply IHs; len|].
      intros v Hv.
      pose proof (skip_ws_length (snd v)) as Hw''.
      destruct (skip_ws (snd v)) as [|e r']; [exact I|].
      destruct (e =? 93)%N; [len|].
      destruct (e =? 44)%N; [|exact I].
      pose proof (skip_ws_length r') as Hw3.
      eapply shrinks_bind; [apply IHa; len|].
      intros p Hp. len.
Qed.

(** [loads] always has fuel enough: it returns a value or a
    [JSONDecodeError]. *)
Lemma loads_total (s : str) : loads s <> inl RecursionError.
Proof.
  unfold loads. destruct (startswith _ s); [discriminate|].
  pose proof (proj1 (scanner_shrinks (fuel_for (skip_ws s))) (skip_ws s)) as H.
  unfold fuel_for in *. specialize (H (le_n _)).
  destruct (scan_once _ _) as [[v r]| |]; [|discriminate|destruct H].
  destruct (skip_ws r); discriminate.
Qed.

(** An empty reply and a reply in prose are not JSON; a lone [NaN] is
    taken for a float. *)
Lemma loads_samples :
  loads [] = inl (JSONDecodeError "Expecting value")
  /\ loads (lit "Sorry, I cannot help.") = inl (JSONDecodeError "Expecting value")
  /\ loads (lit "{} and more") = inl (JSONDecodeError "Extra data")
  /\ loads (lit "NaN") = inr VNaN.
Proof. repeat apply conj; reflexivity. Qed.

End JsonFacts.

(** ** The prompt *)

Module PromptFacts.

Lemma contains_refl (s : str) : contains s s.
Proof. exists [], []. now rewrite app_nil_r. Qed.

Lemma contains_app_l (x s t : str) : contains x s -> contains x (s ++ t).
Proof.
  intros [pre [post ->]]. exists pre, (post ++ t).
  now rewrite <- !app_assoc.
Qed.

Lemma contains_app_r (x s t : str) : contains x t -> contains x (s ++ t).
Proof.
  intros [pre [post ->]]. exists (s ++ pre), post.
  now rewrite <- !app_assoc.
Qed.

Lemma contains_trans (x y s : str) :
  contains x y -> contains y s -> contains x s.
Proof.
  intros [p1 [q1 ->]] [p2 [q2 ->]]. exists (p2 ++ p1), (q1 ++ q2).
  now rewrite <- !app_assoc.
Qed.

(** Every part of a joined string is in it. *)
Lemma join_contains (sep : str) (parts : list str) (p : str) :
  In p parts -> contains p (join sep parts).
Proof.
  induction parts as [|q parts IH]; [intros []|].
  intros [->|Hin].
  - destruct parts as [|q' parts]; [apply contains_refl|].
    cbn [join]. apply contains_app_l, contains_refl.
  - destruct parts as [|q' parts]; [destruct Hin|].
    cbn [join]. apply contains_app_r, contains_app_r, IH, Hin.
Qed.

Lemma prompt_contains_field (fields : list str) (f : str) :
  In f fields -> contains f (make_prompt fields).
Proof.
  intros Hin. unfold make_prompt.
  apply contains_app_r, contains_app_l, join_contains, Hin.
Qed.

Lemma prompt_contains_after (fields : list str) (x : str) :
  contains x prompt_after -> contains x (make_prompt fields).
Proof.
  intros H. unfold make_prompt. now apply contains_app_r, contains_app_r.
Qed.

Lemma worked_example_has_json : contains example_json worked_example.
Proof.
  unfold worked_example. do 5 apply contains_app_r. apply contains_refl.
Qed.

Lemma prompt_has_worked_example (fields : list str) :
  contains worked_example (make_prompt fields).
Proof.
  apply prompt_contains_after. unfold prompt_after.
  do 9 apply contains_app_r. apply contains_app_l, contains_refl.
Qed.

End PromptFacts.

(** ** The script *)

Module AppFacts.
Import StrFacts FenceFacts JsonFacts.

Arguments make_prompt : simpl never.
Arguments json_str : simpl never.
Arguments Json.loads : simpl never.
Arguments placeholders_of : simpl never.

Local Open Scope Z_scope.

Section Calls.

Variable convert_from_bytes : bytes -> Z -> Z -> exn + list image.
Variable generate_content : str -> image -> exn + str.

Local Abbreviation pdf_to_image := (pdf_to_image convert_from_bytes).
Local Abbreviation analyze_body := (analyze_body generate_content).
Local Abbreviation analyze := (analyze_document_with_gemini generate_content).
Local Abbreviation run_script := (run_script convert_from_bytes generate_content).
Local Abbreviation handle_extract := (handle_extract convert_from_bytes generate_content).

(** *** The body of the extraction *)

Lemma analyze_body_fails (img : image) (fields : list str) (e : exn) (w : world) :
  extraction_fails (generate_content (make_prompt fields) img) e ->
  analyze_body img fields w
  = (inr VNone,
     snd (emit (analysis_error e)
               (snd (call_model generate_content (make_prompt fields) img w)))).
Proof.
  unfold extraction_fails, App.analyze_body, try_except, bind, call_model, json_loads.
  destruct (generate_content (make_prompt fields) img) as [e'|text].
  - intros ->. reflexivity.
  - intros ->. reflexivity.
Qed.

Lemma analyze_body_parses (img : image) (fields : list str) (text : str)
      (v : value) (w : world) :
  generate_content (make_prompt fields) img = inr text ->
  Json.loads (json_str text) = inr v ->
  analyze_body img fields w
  = (inr v, snd (call_model generate_content (make_prompt fields) img w)).
Proof.
  unfold App.analyze_body, try_except, bind, call_model, json_loads.
  intros -> ->. reflexivity.
Qed.

(** The body never raises: it returns a value in every case. *)
Lemma analyze_body_returns (img : image) (fields : list str) (w : world) :
  exists v, fst (analyze_body img fields w) = inr v.
Proof.
  unfold App.analyze_body, try_except, bind, call_model, json_loads.
  destruct (generate_content (make_prompt fields) img) as [e'|text];
    [eexists; reflexivity|].
  destruct (Json.loads (json_str text)); eexists; reflexivity.
Qed.

(** The request made by the body carries the prompt of lines 45-64. *)
Lemma analyze_body_request (img : image) (fields : list str) (w : world) :
  model_calls (snd (analyze_body img fields w))
  = model_calls w ++ [(make_prompt fields, img)].
Proof.
  unfold App.analyze_body, try_except, bind, call_model, json_loads.
  destruct (generate_content (make_prompt fields) img) as [e'|text];
    [reflexivity|].
  destruct (Json.loads (json_str text)); reflexivity.
Qed.

(** C1: the prompt the extraction sends holds every requested field name
    as it was given, the instruction that the reply be a single JSON
    object, the instruction that its keys match the field names, the
    instruction to answer "N/A" for a value that cannot be found, and the
    worked example on the fields Invoice Number, Customer Name, Total
    Amount. *)
Theorem prompt_contents (img : image) (fields : list str) (w : world) :
  model_calls (snd (analyze_body img fields w))
  = model_calls w ++ [(make_prompt fields, img)]
  /\ Forall (fun f => contains f (make_prompt fields)) fields
  /\ contains json_object_rule (make_prompt fields)
  /\ contains matching_keys_rule (make_prompt fields)
  /\ contains sentinel_rule (make_prompt fields)
  /\ contains (dq ++ lit "N/A" ++ dq) sentinel_rule
  /\ contains worked_example (make_prompt fields)
  /\ contains example_fields worked_example
  /\ contains example_json worked_example.
Proof.
  repeat apply conj.
  - apply analyze_body_request.
  - apply Forall_forall. intros f Hf.
    now apply PromptFacts.prompt_contains_field.
  - apply PromptFacts.prompt_contains_after. unfold prompt_after.
    apply PromptFacts.contains_app_r, PromptFacts.contains_app_r,
      PromptFacts.contains_app_l, PromptFacts.contains_refl.
  - apply PromptFacts.prompt_contains_after. unfold prompt_after.
    do 4 apply PromptFacts.contains_app_r.
    apply PromptFacts.contains_app_l, PromptFacts.contains_refl.
  - apply PromptFacts.prompt_contains_after. unfold prompt_after.
    do 6 apply PromptFacts.contains_app_r.
    apply PromptFacts.contains_app_l, PromptFacts.contains_refl.
  - unfold sentinel_rule. apply PromptFacts.contains_app_r.
    exists [], (lit "."). reflexivity.
  - apply PromptFacts.prompt_has_worked_example.
  - unfold worked_example.
    apply PromptFacts.contains_app_l, PromptFacts.contains_refl.
  - apply PromptFacts.worked_example_has_json.
Qed.

(** *** The handler up to the extraction *)

Lemma fields_text_truthy (text : str) :
  placeholders_of text <> [] -> Str.truthy text = true.
Proof. destruct text; [intros H; now destruct H|reflexivity]. Qed.

Lemma run_extraction (inp : inputs) (pdf : bytes) (img : image)
      (fields : list str) (w : world) :
  extraction_run convert_from_bytes inp pdf img fields ->
  analysis_miss w ->
  forall v w',
    analyze_body img fields
      (with_elements []
         (snd (set_image_to_display (Some img)
            (snd (call_backend convert_from_bytes pdf
                    (page_number inp + 1) (page_number inp + 1) w)))))
    = (inr v, w') ->
    handle_extract inp w
    = (inr tt,
       snd (set_result v
              (slot_set analysis_slot
                 (([], (v, elements w')) :: analysis_cache w')
                 (with_elements (elements w ++ elements w') w')))).
Proof.
  intros (Hb & Hf & Hp & Hne & rest & Hc) Hmiss v w' Hbody.
  unfold App.handle_extract. rewrite Hf, Hb.
  rewrite fields_text_truthy by (rewrite Hp; exact Hne).
  rewrite Hp. destruct fields as [|f0 fs]; [congruence|].
  cbn [andb].
  unfold bind at 1. unfold App.pdf_to_image, try_except, bind at 1.
  unfold call_backend at 1. rewrite Hc. cbn [ret first_image].
  unfold bind at 1. cbn [set_image_to_display bind get_session set_session].
  unfold bind at 1.
  unfold analyze_document_with_gemini, cache_data.
  cbn [cache_key filter map fst snd underscored negb Ascii.eqb Bool.eqb andb slot_get analysis_slot
       analysis_cache].
  unfold analysis_miss in Hmiss. rewrite Hmiss.
  unfold call_backend, set_image_to_display, bind, get_session, set_session in Hbody.
  cbn in Hbody. unfold with_elements in Hbody. cbn in Hbody.
  unfold with_elements at 1. cbn [elements stdout backend_calls model_calls raster_cache analysis_cache session].
  rewrite Hbody.
  reflexivity.
Qed.


(** *** The results *)

Lemma show_results_nothing (inp : inputs) (w : world) :
  Py.truthy (result (session w)) = false ->
  extract_button inp = true ->
  show_results inp w = (inr tt, w).
Proof.
  intros Hr Hb. unfold show_results, bind, get_session.
  now rewrite Hr, Hb.
Qed.

Lemma show_results_not_dict (inp : inputs) (w : world) :
  Py.truthy (result (session w)) = true ->
  is_dict (result (session w)) = false ->
  fst (show_results inp w) = inl (no_items (result (session w))).
Proof.
  intros Hr Hd. unfold show_results, bind, get_session. rewrite Hr.
  cbn [emit]. unfold items.
  cbn [session]. destruct (result (session w)); try reflexivity.
  discriminate.
Qed.

Lemma text_input_step (kv : str * value) (w : world) :
  text_input kv w
  = if field_encodable kv
    then emit (st_text_input (fst kv) [StrOfValue (snd kv)] true
                             [Text (lit "result_"); Text (fst kv)]) w
    else (inl UnicodeEncodeError, w).
Proof. unfold text_input. now destruct (field_encodable kv). Qed.

(** The results change neither the session nor the logs of calls,
    whether the loop of line 159 ends or raises. *)
Lemma for_each_emit_keeps (l : list (str * value)) (w : world) :
  let r := for_each l text_input w in
  session (snd r) = session w
  /\ backend_calls (snd r) = backend_calls w
  /\ model_calls (snd r) = model_calls w
  /\ exists more, elements (snd r) = elements w ++ more.
Proof.
  revert w. induction l as [|a l IH]; intros w; cbn [for_each].
  - cbn. repeat apply conj; try reflexivity. exists []. now rewrite app_nil_r.
  - unfold bind. rewrite text_input_step. destruct (field_encodable a).
    + cbn [emit].
      match goal with
      | |- context [for_each l text_input ?w0] =>
          destruct (IH w0) as (H2 & H3 & H4 & more & H5)
      end.
      cbn [elements session backend_calls model_calls] in *.
      repeat apply conj; try assumption.
      eexists. rewrite H5, <- app_assoc. reflexivity.
    + cbn. repeat apply conj; try reflexivity.
      exists []. now rewrite app_nil_r.
Qed.

Lemma show_results_keeps (inp : inputs) (w : world) :
  let r := show_results inp w in
  session (snd r) = session w
  /\ backend_calls (snd r) = backend_calls w
  /\ model_calls (snd r) = model_calls w
  /\ exists more, elements (snd r) = elements w ++ more.
Proof.
  unfold show_results, bind, get_session.
  destruct (Py.truthy (result (session w))).
  - cbn [emit]. unfold items. cbn [session].
    destruct (result (session w)) as [| | | | | | | |d];
      try (cbn; repeat apply conj; try reflexivity;
           eexists; rewrite <- app_assoc; reflexivity).
    cbn [ret].
    match goal with
    | |- context [for_each d text_input ?w0] =>
        pose proof (for_each_emit_keeps d w0) as H
    end.
    cbv zeta in H. destruct H as (H2 & H3 & H4 & more & H5).
    destruct (for_each d _ _) as [[e|[]] w1]; cbn [fst snd] in *;
      cbn [elements session backend_calls model_calls] in *.
    + rewrite H2, H3, H4, H5. repeat apply conj; try reflexivity.
      eexists. rewrite <- !app_assoc. reflexivity.
    + rewrite H2. destruct (image_to_display (session w));
        cbn; rewrite ?H2, ?H3, ?H4, ?H5; repeat apply conj; try reflexivity;
        eexists; rewrite <- !app_assoc; reflexivity.
  - destruct (negb (extract_button inp)); cbn; repeat apply conj;
      try reflexivity; eexists; try reflexivity.
    now rewrite app_nil_r.
Qed.


(** *** Rasterization *)

Lemma pdf_to_image_spec (pdf : bytes) (n : Z) (w : world) :
  let r := pdf_to_image pdf n w in
  fst r = inr (match convert_from_bytes pdf (n + 1) (n + 1) with
               | inr images => first_image images
               | inl _ => None
               end)
  /\ elements (snd r) = elements w
  /\ stdout (snd r) = stdout w ++ printed (convert_from_bytes pdf (n + 1) (n + 1))
  /\ backend_calls (snd r) = backend_calls w ++ [(pdf, n + 1, n + 1)]
  /\ model_calls (snd r) = model_calls w
  /\ analysis_cache (snd r) = analysis_cache w
  /\ session (snd r) = session w.
Proof.
  unfold App.pdf_to_image, try_except, bind, call_backend, printed.
  destruct (convert_from_bytes pdf (n + 1) (n + 1)) as [e|images]; cbn;
    repeat apply conj; try reflexivity.
  now rewrite app_nil_r.
Qed.

(** The handler when the backend gives no image. *)
Lemma handle_extract_no_image (inp : inputs) (pdf : bytes) (w : world) :
  extract_button inp = true ->
  uploaded_file inp = Some pdf ->
  placeholders_of (placeholders_text inp) <> [] ->
  rasterization_fails
    (convert_from_bytes pdf (page_number inp + 1) (page_number inp + 1)) ->
  let r := handle_extract inp w in
  fst r = inr tt
  /\ elements (snd r) = elements w
  /\ stdout (snd r)
     = stdout w ++ printed (convert_from_bytes pdf (page_number inp + 1)
                                               (page_number inp + 1))
  /\ backend_calls (snd r)
     = backend_calls w ++ [(pdf, page_number inp + 1, page_number inp + 1)]
  /\ model_calls (snd r) = model_calls w
  /\ session (snd r) = {| result := VNone; image_to_display := None |}.
Proof.
  intros Hb Hf Hne Hfail.
  unfold App.handle_extract. rewrite Hf, Hb, (fields_text_truthy _ Hne).
  destruct (placeholders_of (placeholders_text inp)) as [|f0 fs];
    [congruence|].
  cbn [andb]. unfold bind at 1.
  unfold App.pdf_to_image, try_except, bind at 1, call_backend, printed.
  unfold rasterization_fails in Hfail.
  destruct (convert_from_bytes pdf _ _) as [e|images].
  - cbn. repeat apply conj; reflexivity.
  - subst images. cbn. repeat apply conj; try reflexivity.
    now rewrite app_nil_r.
Qed.

(** The handler when no field is named: nothing is called. *)
Lemma handle_extract_no_fields (inp : inputs) (w : world) :
  placeholders_of (placeholders_text inp) = [] ->
  let r := handle_extract inp w in
  fst r = inr tt
  /\ backend_calls (snd r) = backend_calls w
  /\ model_calls (snd r) = model_calls w
  /\ session (snd r) = session w
  /\ elements (snd r)
     = elements w ++
       (if extract_button inp && Str.truthy (placeholders_text inp)
        then match uploaded_file inp with
             | Some _ => [placeholder_warning]
             | None => []
             end
        else []).
Proof.
  intros Hp. unfold App.handle_extract. rewrite Hp.
  destruct (uploaded_file inp);
    destruct (extract_button inp && Str.truthy (placeholders_text inp));
    cbn; repeat apply conj; try reflexivity; now rewrite app_nil_r.
Qed.

Lemma run_script_split (inp : inputs) (w : world) (w1 : world) :
  handle_extract inp w = (inr tt, w1) ->
  run_script inp w = show_results inp w1.
Proof.
  intros H. unfold App.run_script, bind. now rewrite H.
Qed.


(** *** The decorated extraction *)

(** Neither argument of the extraction is part of its key. *)
Lemma analysis_key (img : image) (fields : list str) :
  cache_key [("_image"%string, AImage img);
             ("_placeholders"%string, AFields fields)] = [].
Proof. reflexivity. Qed.

Lemma analyze_on_miss (img : image) (fields : list str) (w : world)
      (v : value) (w' : world) :
  analysis_miss w ->
  analyze_body img fields (with_elements [] w) = (inr v, w') ->
  analyze img fields w
  = (inr v,
     slot_set analysis_slot (([], (v, elements w')) :: analysis_cache w')
              (with_elements (elements w ++ elements w') w')).
Proof.
  unfold analysis_miss, analyze_document_with_gemini, cache_data.
  rewrite analysis_key. cbn [slot_get analysis_slot].
  intros -> ->. reflexivity.
Qed.

(** C2, amended: when the request to the model raises, or [json.loads]
    raises on the reply after line 71 (plain prose, an empty reply), the
    extraction returns [None] and shows an error that carries the
    exception; the run that called it ends normally, with that error on
    the page and no result stored. *)
Theorem extraction_failure_reported (inp : inputs) (pdf : bytes)
        (img : image) (fields : list str) (e : exn) (w : world) :
  extraction_run convert_from_bytes inp pdf img fields ->
  analysis_miss w ->
  extraction_fails (generate_content (make_prompt fields) img) e ->
  (fst (analyze img fields w) = inr VNone
   /\ elements (snd (analyze img fields w))
      = elements w ++ [analysis_error e])
  /\ fst (run_script inp w) = inr tt
  /\ elements (snd (run_script inp w)) = elements w ++ [analysis_error e]
  /\ result (session (snd (run_script inp w))) = VNone.
Proof.
  intros Hrun Hmiss Hfail. split.
  - rewrite (analyze_on_miss img fields w VNone _ Hmiss
               (analyze_body_fails img fields e _ Hfail)).
    split; reflexivity.
  - pose proof (run_extraction inp pdf img fields w Hrun Hmiss VNone _
                  (analyze_body_fails img fields e _ Hfail)) as Hh.
    rewrite (run_script_split inp w _ Hh).
    destruct Hrun as (Hb & _).
    rewrite show_results_nothing; [|reflexivity|exact Hb].
    repeat apply conj; reflexivity.
Qed.


(** C9: whatever value the reply parses to after line 71, the
    extraction returns it as it is, a mapping or not; the handler
    stores it, and when it is true and not a dict the results section
    calls [.items()] on it and the run ends in an [AttributeError]. *)
Theorem parsed_reply_returned_unchanged (inp : inputs) (pdf : bytes)
        (img : image) (fields : list str) (text : str) (v : value)
        (w : world) :
  generate_content (make_prompt fields) img = inr text ->
  Json.loads (json_str text) = inr v ->
  extraction_run convert_from_bytes inp pdf img fields ->
  analysis_miss w ->
  (forall w0, fst (analyze_body img fields w0) = inr v
              /\ elements (snd (analyze_body img fields w0)) = elements w0)
  /\ fst (analyze img fields w) = inr v
  /\ result (session (snd (run_script inp w))) = v
  /\ (Py.truthy v = true -> is_dict v = false ->
      fst (run_script inp w) = inl (no_items v)).
Proof.
  intros Hreply Hloads Hrun Hmiss.
  pose proof (fun w0 => analyze_body_parses img fields text v w0 Hreply Hloads)
    as Hbody.
  split; [intros w0; rewrite Hbody; split; reflexivity|].
  split; [now rewrite (analyze_on_miss img fields w v _ Hmiss (Hbody _))|].
  pose proof (run_extraction inp pdf img fields w Hrun Hmiss v _ (Hbody _))
    as Hh.
  rewrite (run_script_split inp w _ Hh).
  split.
  - match goal with
    | |- context [show_results inp ?w1] =>
        destruct (show_results_keeps inp w1) as (Hs & _)
    end.
    rewrite Hs. reflexivity.
  - intros Ht Hd. rewrite show_results_not_dict; [reflexivity| |]; assumption.
Qed.

(** C10: a pressed button whose pipeline fails leaves no earlier result
    in the session: when the backend gives no image both keys are
    [None]; when the extraction fails the result is [None] and the image
    is the page just rendered. *)
Theorem failed_action_overwrites_session (inp : inputs) (pdf : bytes)
        (fields : list str) (w : world) :
  extract_button inp = true ->
  uploaded_file inp = Some pdf ->
  placeholders_of (placeholders_text inp) = fields ->
  fields <> [] ->
  (rasterization_fails
     (convert_from_bytes pdf (page_number inp + 1) (page_number inp + 1)) ->
   session (snd (run_script inp w))
   = {| result := VNone; image_to_display := None |})
  /\ (forall img rest e,
         convert_from_bytes pdf (page_number inp + 1) (page_number inp + 1)
         = inr (img :: rest) ->
         analysis_miss w ->
         extraction_fails (generate_content (make_prompt fields) img) e ->
         session (snd (run_script inp w))
         = {| result := VNone; image_to_display := Some img |}).
Proof.
  intros Hb Hf Hp Hne. split.
  - intros Hfail.
    assert (Hne' : placeholders_of (placeholders_text inp) <> [])
      by now rewrite Hp.
    pose proof (handle_extract_no_image inp pdf w Hb Hf Hne' Hfail) as Hh.
    cbv zeta in Hh. destruct Hh as (H1 & _ & _ & _ & _ & Hs).
    destruct (handle_extract inp w) as [[e|[]] w1] eqn:Hw;
      cbn [fst snd] in *; [discriminate|].
    rewrite (run_script_split inp w _ Hw).
    rewrite show_results_nothing; [exact Hs| |exact Hb].
    now rewrite Hs.
  - intros img rest e Hc Hmiss Hfail.
    assert (Hrun : extraction_run convert_from_bytes inp pdf img fields)
      by (repeat apply conj; try assumption; now exists rest).
    pose proof (run_extraction inp pdf img fields w Hrun Hmiss VNone _
                  (analyze_body_fails img fields e _ Hfail)) as Hh.
    rewrite (run_script_split inp w _ Hh).
    rewrite show_results_nothing; [reflexivity|reflexivity|exact Hb].
Qed.

(** C5, as the code has it: when the backend gives no image, the run
    ends normally with nothing added to the page; the exception, if
    there was one, is printed on the standard output; the model is not
    called and both keys of the session are [None]. *)
Theorem rasterization_failure_not_shown (inp : inputs) (pdf : bytes)
        (w : world) :
  extract_button inp = true ->
  uploaded_file inp = Some pdf ->
  placeholders_of (placeholders_text inp) <> [] ->
  rasterization_fails
    (convert_from_bytes pdf (page_number inp + 1) (page_number inp + 1)) ->
  fst (run_script inp w) = inr tt
  /\ elements (snd (run_script inp w)) = elements w
  /\ stdout (snd (run_script inp w))
     = stdout w ++ printed (convert_from_bytes pdf (page_number inp + 1)
                                               (page_number inp + 1))
  /\ model_calls (snd (run_script inp w)) = model_calls w
  /\ session (snd (run_script inp w))
     = {| result := VNone; image_to_display := None |}.
Proof.
  intros Hb Hf Hne Hfail.
  pose proof (handle_extract_no_image inp pdf w Hb Hf Hne Hfail) as Hh.
  cbv zeta in Hh. destruct Hh as (H1 & H2 & H3 & _ & H5 & Hs).
  destruct (handle_extract inp w) as [[e|[]] w1] eqn:Hw;
    cbn [fst snd] in *; [discriminate|].
  rewrite (run_script_split inp w _ Hw).
  rewrite show_results_nothing; [|now rewrite Hs|exact Hb].
  cbn [fst snd]. repeat apply conj; try assumption; reflexivity.
Qed.

(** The definition of line 29, which line 79 replaces, shows the
    exception on the page. *)
Lemma pdf_to_image_line29_shows_error (pdf : bytes) (n : Z) (e : exn)
      (w : world) :
  raster_cache w = [] ->
  convert_from_bytes pdf (n + 1) (n + 1) = inl e ->
  elements (snd (pdf_to_image_line29 convert_from_bytes pdf n w))
  = elements w
    ++ [st_error [Text (lit "Error converting PDF to image: "); StrOfExn e]
                 [128444%N; 65039%N]].
Proof.
  intros Hc He. unfold pdf_to_image_line29, cache_data.
  cbn [slot_get raster_slot]. rewrite Hc. cbn [cache_find].
  unfold try_except, bind, call_backend. cbn [with_elements].
  cbn [elements stdout backend_calls model_calls raster_cache analysis_cache session].
  rewrite He. reflexivity.
Qed.

(** C6, amended: a pressed button whose text gives no field name calls
    neither the backend nor the model; with a file uploaded and a text
    that is not empty, the warning is on the page. *)
Theorem empty_field_list_run (inp : inputs) (w : world) :
  extract_button inp = true ->
  placeholders_of (placeholders_text inp) = [] ->
  backend_calls (snd (run_script inp w)) = backend_calls w
  /\ model_calls (snd (run_script inp w)) = model_calls w
  /\ (uploaded_file inp <> None -> placeholders_text inp <> [] ->
      In placeholder_warning (elements (snd (run_script inp w)))).
Proof.
  intros Hb Hp.
  pose proof (handle_extract_no_fields inp w Hp) as Hh.
  cbv zeta in Hh. destruct Hh as (H1 & H2 & H3 & _ & H5).
  destruct (handle_extract inp w) as [[e|[]] w1] eqn:Hw;
    cbn [fst snd] in *; [discriminate|].
  rewrite (run_script_split inp w _ Hw).
  destruct (show_results_keeps inp w1) as (_ & K2 & K3 & more & K4).
  rewrite K2, K3, K4, H2, H3. repeat apply conj; try reflexivity.
  intros Hfile Htext. rewrite H5, Hb.
  destruct (placeholders_text inp) as [|c t]; [congruence|].
  destruct (uploaded_file inp); [|congruence].
  cbn. rewrite !in_app_iff. left. right. now left.
Qed.

(** C7, as the code has it: the key of the extraction holds none of its
    arguments, so a second call, whatever its image and fields, gets
    the value of the first and does not reach the model; and
    [pdf_to_image], as bound at line 79, reaches the backend at every
    call, also with the same arguments. *)
Theorem analysis_cache_shared (img1 img2 : image) (fields1 fields2 : list str)
        (w : world) :
  cache_key [("_image"%string, AImage img1);
             ("_placeholders"%string, AFields fields1)]
  = cache_key [("_image"%string, AImage img2);
               ("_placeholders"%string, AFields fields2)]
  /\ fst (analyze img2 fields2 (snd (analyze img1 fields1 w)))
     = fst (analyze img1 fields1 w)
  /\ model_calls (snd (analyze img2 fields2 (snd (analyze img1 fields1 w))))
     = model_calls (snd (analyze img1 fields1 w))
  /\ (forall pdf n,
         backend_calls (snd (pdf_to_image pdf n (snd (pdf_to_image pdf n w))))
         = backend_calls w ++ [(pdf, n + 1, n + 1); (pdf, n + 1, n + 1)]).
Proof.
  split; [reflexivity|].
  enough (K : fst (analyze img2 fields2 (snd (analyze img1 fields1 w)))
              = fst (analyze img1 fields1 w)
              /\ model_calls (snd (analyze img2 fields2
                                     (snd (analyze img1 fields1 w))))
                 = model_calls (snd (analyze img1 fields1 w))).
  { destruct K as [K1 K2]. repeat apply conj; try assumption.
    intros pdf n.
    destruct (pdf_to_image_spec pdf n (snd (pdf_to_image pdf n w)))
      as (_ & _ & _ & H2 & _).
    destruct (pdf_to_image_spec pdf n w) as (_ & _ & _ & H1 & _).
    rewrite H2, H1, <- app_assoc. reflexivity. }
  unfold analyze_document_with_gemini, cache_data.
  rewrite !analysis_key. cbn [slot_get analysis_slot].
  destruct (cache_find [] (analysis_cache w)) as [[a els]|] eqn:Hc.
  - cbn [snd with_elements analysis_cache]. rewrite Hc. split; reflexivity.
  - destruct (analyze_body_returns img1 fields1 (with_elements [] w))
      as [v Hv].
    destruct (analyze_body img1 fields1 (with_elements [] w)) as [[e|v'] w1];
      cbn [fst] in Hv; [discriminate|].
    cbn. split; reflexivity.
Qed.


(** *** The page asked of the backend *)

Lemma analyze_keeps_backend_calls (img : image) (fields : list str)
      (w : world) :
  backend_calls (snd (analyze img fields w)) = backend_calls w.
Proof.
  unfold analyze_document_with_gemini, cache_data.
  rewrite analysis_key. cbn [slot_get analysis_slot].
  destruct (cache_find [] (analysis_cache w)) as [[a els]|]; [reflexivity|].
  unfold App.analyze_body, try_except, bind, call_model, json_loads.
  destruct (generate_content (make_prompt fields) img) as [e|text];
    [reflexivity|].
  destruct (Json.loads (json_str text)); reflexivity.
Qed.

Lemma handle_extract_backend_calls (inp : inputs) (pdf : bytes) (w : world) :
  extract_button inp = true ->
  uploaded_file inp = Some pdf ->
  placeholders_of (placeholders_text inp) <> [] ->
  backend_calls (snd (handle_extract inp w))
  = backend_calls w ++ [(pdf, page_number inp + 1, page_number inp + 1)].
Proof.
  intros Hb Hf Hne.
  unfold App.handle_extract. rewrite Hf, Hb, (fields_text_truthy _ Hne).
  destruct (placeholders_of (placeholders_text inp)) as [|f0 fs];
    [congruence|].
  cbn [andb]. unfold bind at 1.
  destruct (pdf_to_image_spec pdf (page_number inp) w)
    as (H1 & _ & _ & H4 & _).
  destruct (pdf_to_image pdf (page_number inp) w) as [[e|image] w1];
    cbn [fst snd] in *; [discriminate|].
  destruct image as [img|].
  - unfold bind at 1. cbn [set_image_to_display bind get_session set_session].
    unfold bind at 1.
    match goal with
    | |- context [analyze img ?f ?w2] =>
        pose proof (analyze_keeps_backend_calls img f w2) as Ha;
        destruct (analyze img f w2) as [[e|v] w3]
    end; cbn [fst snd] in *; cbn; rewrite ?Ha; cbn; exact H4.
  - cbn. exact H4.
Qed.

Lemma first_of_skipn (pages : list image) (k : nat) :
  firstn 1 (skipn k pages)
  = match nth_error pages k with
    | Some p => [p]
    | None => []
    end.
Proof.
  revert k. induction pages as [|p pages IH]; intros [|k]; try reflexivity.
  cbn [skipn nth_error]. apply IH.
Qed.

Lemma pages_between_one (pages : list image) (n : Z) :
  0 <= n ->
  pages_between pages (n + 1) (n + 1)
  = match nth_error pages (Z.to_nat n) with
    | Some p => [p]
    | None => []
    end.
Proof.
  intros Hn. unfold pages_between.
  replace (n + 1 - (n + 1) + 1) with 1 by lia.
  replace (n + 1 - 1) with n by lia.
  change (Z.to_nat 1) with 1%nat. apply first_of_skipn.
Qed.

(** C8: the page number is the selector minus one; the backend is asked
    for the range from [page_number + 1] to [page_number + 1], which is
    the selected page; the first image of its answer is the result; and
    when the backend renders the pages of the document, its answer is
    the one page at index [page_number]. *)
Theorem single_page_requested (inp : inputs) (pdf : bytes)
        (images : list image) (w : world) :
  uploaded_file inp = Some pdf ->
  convert_from_bytes pdf (page_number inp + 1) (page_number inp + 1)
  = inr images ->
  page_number inp = page_selector inp - 1
  /\ backend_calls (snd (pdf_to_image pdf (page_number inp) w))
     = backend_calls w ++ [(pdf, page_selector inp, page_selector inp)]
  /\ fst (pdf_to_image pdf (page_number inp) w) = inr (first_image images)
  /\ (forall pages,
         0 <= page_number inp < Z.of_nat (List.length pages) ->
         images = pages_between pages (page_number inp + 1)
                                (page_number inp + 1) ->
         exists page,
           nth_error pages (Z.to_nat (page_number inp)) = Some page
           /\ images = [page]
           /\ first_image images = Some page)
  /\ (extract_button inp = true ->
      placeholders_of (placeholders_text inp) <> [] ->
      backend_calls (snd (run_script inp w))
      = backend_calls w ++ [(pdf, page_selector inp, page_selector inp)]).
Proof.
  intros Hf Hc.
  assert (Hn : page_number inp = page_selector inp - 1)
    by (unfold page_number; now rewrite Hf).
  assert (Hs : page_number inp + 1 = page_selector inp) by lia.
  destruct (pdf_to_image_spec pdf (page_number inp) w)
    as (H1 & _ & _ & H4 & _).
  rewrite Hc in H1. rewrite Hs in H4.
  repeat apply conj; try assumption.
  - intros pages Hrange Himages.
    rewrite pages_between_one in Himages by lia.
    destruct (nth_error pages (Z.to_nat (page_number inp))) as [page|] eqn:Hp.
    + exists page. subst images. repeat apply conj; reflexivity.
    + apply nth_error_None in Hp. lia.
  - intros Hb Hne.
    pose proof (handle_extract_backend_calls inp pdf w Hb Hf Hne) as Hh.
    rewrite Hs in Hh.
    unfold App.run_script, bind.
    destruct (handle_extract inp w) as [[e|[]] w1]; cbn [fst snd] in *;
      [exact Hh|].
    destruct (show_results_keeps inp w1) as (_ & K2 & _).
    now rewrite K2.
Qed.

End Calls.


Import Samples.

(** *** Fenced replies *)

(** The extraction depends on the reply only through line 71. *)
Lemma analyze_body_by_json_str (a b : str) (img : image) (fields : list str)
      (w : world) :
  json_str a = json_str b ->
  analyze_body (replies a) img fields w = analyze_body (replies b) img fields w.
Proof.
  intros H. unfold analyze_body, try_except, bind, call_model, json_loads, replies.
  now rewrite H.
Qed.

Lemma analyze_by_json_str (a b : str) (img : image) (fields : list str)
      (w : world) :
  json_str a = json_str b ->
  analyze_document_with_gemini (replies a) img fields w
  = analyze_document_with_gemini (replies b) img fields w.
Proof.
  intros H. unfold analyze_document_with_gemini, cache_data.
  now rewrite (analyze_body_by_json_str a b img fields _ H).
Qed.

Lemma run_script_by_json_str convert (a b : str) (inp : inputs) (w : world) :
  json_str a = json_str b ->
  run_script convert (replies a) inp w = run_script convert (replies b) inp w.
Proof.
  intros H. unfold run_script, bind, handle_extract.
  destruct (uploaded_file inp) as [pdf|]; [|reflexivity].
  destruct (extract_button inp && Str.truthy (placeholders_text inp));
    [|reflexivity].
  destruct (placeholders_of (placeholders_text inp)) as [|f0 fs];
    [reflexivity|].
  unfold bind.
  destruct (pdf_to_image convert pdf (page_number inp) w) as [[e|[img|]] w1];
    try reflexivity.
  destruct (set_image_to_display (Some img) w1) as [[e|[]] w2];
    [reflexivity|].
  now rewrite (analyze_by_json_str a b img (f0 :: fs) w2 H).
Qed.

(** C3: a reply inside a fenced block, tagged [json] or not, gives the
    same text at line 71 as the reply without the fences, so the
    extraction and the whole run come out the same. *)
Theorem fenced_reply_same convert (tagged : bool) (j : str) (img : image)
        (fields : list str) (inp : inputs) (w : world) :
  json_str (fenced tagged j) = json_str j
  /\ analyze_body (replies (fenced tagged j)) img fields w
     = analyze_body (replies j) img fields w
  /\ analyze_document_with_gemini (replies (fenced tagged j)) img fields w
     = analyze_document_with_gemini (replies j) img fields w
  /\ run_script convert (replies (fenced tagged j)) inp w
     = run_script convert (replies j) inp w.
Proof.
  pose proof (json_str_fenced tagged j) as H.
  repeat apply conj.
  - exact H.
  - now apply analyze_body_by_json_str.
  - now apply analyze_by_json_str.
  - now apply run_script_by_json_str.
Qed.

(** *** The worked example *)

Lemma example_json_loads : Json.loads (json_str example_json) = inr example_mapping.
Proof. vm_compute. reflexivity. Qed.

(** C4: the example reply shown in the prompt, given back by the model,
    is parsed to the mapping of Invoice Number, Customer Name and Total
    Amount to their example values. *)
Theorem example_reply_parsed (img : image) (fields : list str) (w : world) :
  contains example_json (make_prompt fields)
  /\ Json.loads (json_str example_json) = inr example_mapping
  /\ fst (analyze_body (replies example_json) img fields w)
     = inr example_mapping
  /\ fst (analyze_document_with_gemini (replies example_json) img fields
            (slot_set analysis_slot [] w))
     = inr example_mapping.
Proof.
  repeat apply conj.
  - eapply PromptFacts.contains_trans;
      [apply PromptFacts.worked_example_has_json
      |apply PromptFacts.prompt_has_worked_example].
  - exact example_json_loads.
  - now rewrite (analyze_body_parses (replies example_json) img fields
                   example_json example_mapping w eq_refl example_json_loads).
  - rewrite (analyze_on_miss (replies example_json) img fields _
               example_mapping _
               (eq_refl : analysis_miss (slot_set analysis_slot [] w))
               (analyze_body_parses (replies example_json) img fields
                  example_json example_mapping _ eq_refl example_json_loads)).
    reflexivity.
Qed.


(** *** The statements at sample runs *)

Lemma extraction_failure_reported_witness :
  let inp := click (lit "Invoice Number") in
  let e := JSONDecodeError "Expecting value" in
  extraction_run renders inp pdf page_one one_field
  /\ analysis_miss empty_world
  /\ extraction_fails (replies prose (make_prompt one_field) page_one) e
  /\ fst (run_script renders (replies prose) inp empty_world) = inr tt
  /\ elements (snd (run_script renders (replies prose) inp empty_world))
     = [analysis_error e]
  /\ result (session (snd (run_script renders (replies prose) inp empty_world)))
     = VNone.
Proof.
  intros inp e.
  assert (H1 : extraction_run renders inp pdf page_one one_field).
  { repeat apply conj; try reflexivity; [discriminate|].
    exists []. reflexivity. }
  assert (H2 : analysis_miss empty_world) by reflexivity.
  assert (H3 : extraction_fails (replies prose (make_prompt one_field) page_one) e)
    by (vm_compute; reflexivity).
  pose proof (extraction_failure_reported renders (replies prose) inp pdf
                page_one one_field e empty_world H1 H2 H3)
    as (_ & K1 & K2 & K3).
  exact (conj H1 (conj H2 (conj H3 (conj K1 (conj K2 K3))))).
Defined.

(** C2 as stated fails: the replies [NaN] and [{"Total": NaN}] are not
    valid JSON, which has no such value (the letter N stands in no JSON
    text outside a string, while the worked example of the prompt is made
    of JSON's characters), and [json.loads] accepts them.  For the first
    the float is returned and stored, no error is shown and the run ends
    in an [AttributeError]; for the second the mapping is returned and
    shown as a result. *)
Lemma invalid_json_accepted_counterexample :
  let inp := click (lit "Invoice Number") in
  let nan := lit "NaN" in
  let obj := lit "{" ++ dq ++ lit "Total" ++ dq ++ lit ": NaN}" in
  let call text := analyze_document_with_gemini (replies text) page_one
                     one_field empty_world in
  let run text := run_script renders (replies text) inp empty_world in
  extraction_run renders inp pdf page_one one_field
  /\ analysis_miss empty_world
  /\ Vocab.within_json_alphabet false (json_str example_json) = true
  /\ (Vocab.within_json_alphabet false (json_str nan) = false
      /\ fst (call nan) = inr VNaN
      /\ elements (snd (call nan)) = []
      /\ fst (run nan)
         = inl (AttributeError "'float' object has no attribute 'items'")
      /\ result (session (snd (run nan))) = VNaN
      /\ elements (snd (run nan))
         = [st_header (lit "Extracted Information");
            st_subheader (lit "Results")])
  /\ (Vocab.within_json_alphabet false (json_str obj) = false
      /\ fst (call obj) = inr (VDict [(lit "Total", VNaN)])
      /\ elements (snd (call obj)) = []
      /\ fst (run obj) = inr tt
      /\ result (session (snd (run obj))) = VDict [(lit "Total", VNaN)]
      /\ elements (snd (run obj))
         = [st_header (lit "Extracted Information");
            st_subheader (lit "Results");
            st_text_input (lit "Total") [StrOfValue VNaN] true
                          [Text (lit "result_"); Text (lit "Total")];
            st_subheader (lit "Analyzed Document");
            st_image page_one [Text (lit "Analyzed Page "); StrOfInt 1]]).
Proof.
  intros inp nan obj call run.
  split; [|split; [reflexivity|split; [vm_compute; reflexivity|split]]].
  - split; [reflexivity|]. split; [reflexivity|]. split; [reflexivity|].
    split; [discriminate|]. exists []. reflexivity.
  - vm_compute. repeat apply conj; reflexivity.
  - vm_compute. repeat apply conj; reflexivity.
Qed.

Lemma parsed_reply_returned_unchanged_witness :
  let inp := click (lit "Invoice Number") in
  let v := VList [VInt 1; VInt 2] in
  replies array_reply (make_prompt one_field) page_one = inr array_reply
  /\ Json.loads (json_str array_reply) = inr v
  /\ extraction_run renders inp pdf page_one one_field
  /\ analysis_miss empty_world
  /\ result (session (snd (run_script renders (replies array_reply) inp
                             empty_world))) = v
  /\ fst (run_script renders (replies array_reply) inp empty_world)
     = inl (AttributeError "'list' object has no attribute 'items'").
Proof.
  intros inp v.
  assert (H1 : replies array_reply (make_prompt one_field) page_one
               = inr array_reply) by reflexivity.
  assert (H2 : Json.loads (json_str array_reply) = inr v)
    by (vm_compute; reflexivity).
  assert (H3 : extraction_run renders inp pdf page_one one_field).
  { repeat apply conj; try reflexivity; [discriminate|].
    exists []. reflexivity. }
  assert (H4 : analysis_miss empty_world) by reflexivity.
  pose proof (parsed_reply_returned_unchanged renders (replies array_reply)
                inp pdf page_one one_field array_reply v empty_world
                H1 H2 H3 H4) as (_ & _ & K1 & K2).
  exact (conj H1 (conj H2 (conj H3 (conj H4
           (conj K1 (K2 eq_refl eq_refl)))))).
Defined.

Lemma failed_action_overwrites_session_witness :
  let inp := click (lit "Invoice Number") in
  let before :=
    snd (set_session {| result := example_mapping;
                        image_to_display := Some page_two |} empty_world) in
  extract_button inp = true
  /\ uploaded_file inp = Some pdf
  /\ placeholders_of (placeholders_text inp) = one_field
  /\ one_field <> []
  /\ session (snd (run_script unreadable unreachable inp before))
     = {| result := VNone; image_to_display := None |}
  /\ session (snd (run_script renders unreachable inp before))
     = {| result := VNone; image_to_display := Some page_one |}.
Proof.
  intros inp before.
  assert (H1 : extract_button inp = true) by reflexivity.
  assert (H2 : uploaded_file inp = Some pdf) by reflexivity.
  assert (H3 : placeholders_of (placeholders_text inp) = one_field)
    by reflexivity.
  assert (H4 : one_field <> []) by discriminate.
  pose proof (proj1 (failed_action_overwrites_session unreadable unreachable
                       inp pdf one_field before H1 H2 H3 H4) I) as K1.
  pose proof (proj2 (failed_action_overwrites_session renders unreachable
                       inp pdf one_field before H1 H2 H3 H4)
                    page_one []
                    (Raised "ServiceUnavailable"
                            (lit "503 The service is unavailable."))
                    eq_refl eq_refl eq_refl) as K2.
  exact (conj H1 (conj H2 (conj H3 (conj H4 (conj K1 K2))))).
Defined.

Lemma rasterization_failure_not_shown_witness :
  let inp := click (lit "Invoice Number") in
  let r := run_script unreadable (replies example_json) inp empty_world in
  extract_button inp = true
  /\ uploaded_file inp = Some pdf
  /\ placeholders_of (placeholders_text inp) <> []
  /\ rasterization_fails (unreadable pdf (page_number inp + 1)
                                     (page_number inp + 1))
  /\ fst r = inr tt
  /\ elements (snd r) = []
  /\ stdout (snd r)
     = [[Text (lit "Error: ");
         StrOfExn (Raised "PDFPageCountError"
                          (lit "Unable to get page count."))]]
  /\ model_calls (snd r) = []
  /\ session (snd r) = {| result := VNone; image_to_display := None |}.
Proof.
  intros inp r.
  assert (H1 : extract_button inp = true) by reflexivity.
  assert (H2 : uploaded_file inp = Some pdf) by reflexivity.
  assert (H3 : placeholders_of (placeholders_text inp) <> [])
    by (vm_compute; discriminate).
  assert (H4 : rasterization_fails (unreadable pdf (page_number inp + 1)
                                               (page_number inp + 1)))
    by exact I.
  pose proof (rasterization_failure_not_shown unreadable
                (replies example_json) inp pdf empty_world H1 H2 H3 H4)
    as (K1 & K2 & K3 & K4 & K5).
  exact (conj H1 (conj H2 (conj H3 (conj H4
           (conj K1 (conj K2 (conj K3 (conj K4 K5)))))))).
Defined.

(** C6 as stated fails: with no file uploaded and a text of spaces, and
    with a file uploaded and an empty text, the field list is empty and
    the run shows no warning. *)
Lemma warning_not_shown_counterexample :
  (extract_button (click_without_file (lit "   ")) = true
   /\ placeholders_of (placeholders_text (click_without_file (lit "   "))) = []
   /\ ~ In placeholder_warning
        (elements (snd (run_script renders (replies example_json)
                          (click_without_file (lit "   ")) empty_world))))
  /\ (extract_button (click []) = true
      /\ placeholders_of (placeholders_text (click [])) = []
      /\ ~ In placeholder_warning
           (elements (snd (run_script renders (replies example_json)
                             (click []) empty_world)))).
Proof.
  split; (split; [reflexivity|]); (split; [reflexivity|]);
    vm_compute; intros [].
Qed.

Lemma empty_field_list_run_witness :
  let inp := click (lit "   ") in
  let r := run_script renders (replies example_json) inp empty_world in
  extract_button inp = true
  /\ placeholders_of (placeholders_text inp) = []
  /\ backend_calls (snd r) = []
  /\ model_calls (snd r) = []
  /\ In placeholder_warning (elements (snd r)).
Proof.
  intros inp r.
  assert (H1 : extract_button inp = true) by reflexivity.
  assert (H2 : placeholders_of (placeholders_text inp) = []) by reflexivity.
  pose proof (empty_field_list_run renders (replies example_json) inp
                empty_world H1 H2) as (K1 & K2 & K3).
  assert (N1 : uploaded_file inp <> None) by discriminate.
  assert (N2 : placeholders_text inp <> []) by discriminate.
  exact (conj H1 (conj H2 (conj K1 (conj K2 (K3 N1 N2))))).
Defined.

(** The shared entry at work: the model tells page one from page two, and
    the second call, on page two, gets the answer for page one. *)
Lemma second_call_gets_first_result :
  let first := analyze_document_with_gemini page_teller page_one
                 [lit "page"] empty_world in
  let second := analyze_document_with_gemini page_teller page_two
                  [lit "number"] (snd first) in
  fst first = inr (VDict [(lit "page", VInt 1)])
  /\ fst second = inr (VDict [(lit "page", VInt 1)])
  /\ fst (analyze_body page_teller page_two [lit "number"] (snd first))
     = inr (VDict [(lit "page", VInt 2)])
  /\ List.length (model_calls (snd second)) = 1%nat.
Proof. vm_compute. repeat apply conj; reflexivity. Qed.

Lemma single_page_requested_witness :
  let inp := {| extract_button := true; uploaded_file := Some pdf;
                page_selector := 2; placeholders_text := lit "Total Amount" |} in
  uploaded_file inp = Some pdf
  /\ renders pdf (page_number inp + 1) (page_number inp + 1) = inr [page_two]
  /\ page_number inp = 1
  /\ backend_calls (snd (pdf_to_image renders pdf (page_number inp) empty_world))
     = [(pdf, 2, 2)]
  /\ fst (pdf_to_image renders pdf (page_number inp) empty_world)
     = inr (Some page_two).
Proof.
  intros inp.
  assert (H1 : uploaded_file inp = Some pdf) by reflexivity.
  assert (H2 : renders pdf (page_number inp + 1) (page_number inp + 1)
               = inr [page_two]) by reflexivity.
  pose proof (single_page_requested renders unreachable inp pdf [page_two]
                empty_world H1 H2) as (K1 & K2 & K3 & _).
  exact (conj H1 (conj H2 (conj K1 (conj K2 K3)))).
Defined.

End AppFacts.

(** * More facts *)

Import Vocab.

(** ** Fields and lines *)

Module FieldFacts.
Import StrFacts FenceFacts.

(** *** [strip] *)

Lemma strip_idempotent (s : str) : strip (strip s) = strip s.
Proof.
  destruct (strip_split s) as (w1 & w2 & B1 & B2 & Hs).
  rewrite Hs at 2. now rewrite strip_blank_around.
Qed.

Lemma strip_In (s : str) (c : N) : In c (strip s) -> In c s.
Proof.
  destruct (strip_split s) as (w1 & w2 & _ & _ & Hs).
  intros H. rewrite Hs, !in_app_iff. auto.
Qed.

Lemma lstrip_length (s : str) : List.length (lstrip s) <= List.length s.
Proof.
  induction s as [|c s IH]; simpl; [lia|].
  destruct (isspace c); simpl; lia.
Qed.

Lemma rstrip_length (s : str) : List.length (rstrip s) <= List.length s.
Proof.
  unfold rstrip. rewrite length_rev.
  pose proof (lstrip_length (rev s)) as H. now rewrite length_rev in H.
Qed.

Lemma strip_length (s : str) : List.length (strip s) <= List.length s.
Proof.
  unfold strip. pose proof (rstrip_length (lstrip s)).
  pose proof (lstrip_length s). lia.
Qed.

(** A stripped, non-empty string starts and ends with a character that is
    not whitespace. *)
Lemma stripped_first (c : N) (t : str) :
  strip (c :: t) = c :: t -> isspace c = false.
Proof.
  intros H. destruct (isspace c) eqn:Hc; [|reflexivity].
  exfalso. unfold strip in H. cbn [lstrip] in H. rewrite Hc in H.
  pose proof (rstrip_length (lstrip t)) as H1.
  pose proof (lstrip_length t) as H2.
  rewrite H in H1. simpl in H1. lia.
Qed.

Lemma stripped_last (t : str) (c : N) :
  strip (t ++ [c]) = t ++ [c] -> isspace c = false.
Proof.
  intros H. destruct (isspace c) eqn:Hc; [|reflexivity].
  exfalso.
  assert (B : blank [c]) by (repeat constructor; exact Hc).
  pose proof (strip_blank_around [] t [c] (Forall_nil _) B) as K.
  cbn [app] in K. rewrite K in H.
  pose proof (strip_length t) as L. rewrite H, length_app in L.
  simpl in L. lia.
Qed.

Lemma strip_fixed (c c' : N) (t t' : str) :
  isspace c = false -> isspace c' = false ->
  c :: t = t' ++ [c'] ->
  strip (c :: t) = c :: t.
Proof.
  intros Hc Hc' E. unfold strip. cbn [lstrip]. rewrite Hc.
  rewrite E. now apply rstrip_last.
Qed.

(** *** [split] and [join] on line breaks *)

Lemma split_not_nil (sep : N) (s : str) : split sep s <> [].
Proof.
  destruct s as [|c t]; simpl; [discriminate|].
  destruct (c =? sep)%N; [discriminate|].
  destruct (split sep t); discriminate.
Qed.

Lemma split_pieces (sep : N) (s : str) :
  Forall (fun p => ~ In sep p) (split sep s).
Proof.
  induction s as [|c t IH]; simpl.
  - constructor; [intros []|constructor].
  - destruct (N.eqb_spec c sep) as [->|Hne].
    + constructor; [intros []|exact IH].
    + destruct (split sep t) as [|p ps].
      * constructor; [|constructor]. intros [H|[]]. congruence.
      * inversion IH as [|? ? Hp Hps]; subst.
        constructor; [|exact Hps].
        intros [H|H]; [congruence|now apply Hp].
Qed.

Lemma split_one (sep : N) (f : str) :
  ~ In sep f -> split sep f = [f].
Proof.
  induction f as [|c t IH]; intros H; [reflexivity|].
  simpl. destruct (N.eqb_spec c sep) as [->|Hne].
  - exfalso. apply H. now left.
  - rewrite IH; [reflexivity|]. intros K. apply H. now right.
Qed.

Lemma split_app_sep (sep : N) (f rest : str) :
  ~ In sep f -> split sep (f ++ sep :: rest) = f :: split sep rest.
Proof.
  induction f as [|c t IH]; intros H.
  - simpl. now rewrite N.eqb_refl.
  - simpl. destruct (N.eqb_spec c sep) as [->|Hne].
    + exfalso. apply H. now left.
    + rewrite IH; [reflexivity|]. intros K. apply H. now right.
Qed.

Lemma split_join (sep : N) (fields : list str) :
  fields <> [] ->
  Forall (fun f => ~ In sep f) fields ->
  split sep (join [sep] fields) = fields.
Proof.
  intros Hne H. induction H as [|f fs Hf Hfs IH]; [congruence|].
  destruct fs as [|g fs].
  - simpl. now apply split_one.
  - change (join [sep] (f :: g :: fs)) with (f ++ sep :: join [sep] (g :: fs)).
    rewrite split_app_sep by assumption.
    rewrite IH; [reflexivity|discriminate].
Qed.

(** *** Line 133 *)

Lemma clean_strip (p : str) :
  ~ In 10%N p -> Str.truthy (strip p) = true -> clean (strip p).
Proof.
  intros Hn Ht. repeat apply conj.
  - destruct (strip p); [discriminate|discriminate].
  - apply strip_idempotent.
  - intros H. apply Hn. now apply strip_In.
Qed.

(** X1: every field the handler hands on is non-empty, has no whitespace
    at either end and holds no line break, whatever the text area holds. *)
Theorem placeholders_clean (text : str) :
  Forall clean (placeholders_of text).
Proof.
  unfold placeholders_of.
  apply Forall_map.
  pose proof (split_pieces 10%N (strip text)) as H.
  induction H as [|p ps Hp _ IH]; [constructor|].
  cbn [filter]. destruct (Str.truthy (strip p)) eqn:Ht; [|exact IH].
  constructor; [now apply clean_strip|exact IH].
Qed.

Lemma clean_ends (f : str) :
  clean f ->
  exists c t t' c', f = c :: t /\ f = t' ++ [c']
                    /\ isspace c = false /\ isspace c' = false.
Proof.
  intros (Hne & Hs & _).
  destruct f as [|c t]; [congruence|].
  destruct (exists_last (l := c :: t)) as (t' & c' & E); [discriminate|].
  exists c, t, t', c'. repeat apply conj; try assumption; try reflexivity.
  - now apply (stripped_first c t).
  - apply (stripped_last t' c'). now rewrite <- E.
Qed.

Lemma join_first (sep : str) (f : str) (fs : list str) (c : N) (t : str) :
  f = c :: t -> exists u, join sep (f :: fs) = c :: u.
Proof.
  intros ->. destruct fs; simpl; eexists; reflexivity.
Qed.

Lemma join_last (sep : str) (fs : list str) :
  forall f, (forall g, In g (f :: fs) -> exists t c, g = t ++ [c] /\ isspace c = false) ->
  exists t c, join sep (f :: fs) = t ++ [c] /\ isspace c = false.
Proof.
  induction fs as [|g fs IH]; intros f H.
  - simpl. apply H. now left.
  - destruct (IH g) as (t & c & E & Hc).
    { intros k Hk. apply H. now right. }
    change (join sep (f :: g :: fs)) with (f ++ sep ++ join sep (g :: fs)).
    rewrite E. exists (f ++ sep ++ t), c. split; [|exact Hc].
    now rewrite <- !app_assoc.
Qed.

Lemma strip_join_clean (fields : list str) :
  Forall clean fields ->
  strip (join nl fields) = join nl fields.
Proof.
  intros H. destruct fields as [|f fs]; [reflexivity|].
  inversion H as [|? ? Hf Hfs]; subst.
  destruct (clean_ends f Hf) as (c & t & _ & _ & E & _ & Hc & _).
  destruct (join_first nl f fs c t E) as (u & Eu).
  destruct (join_last nl fs f) as (t' & c' & El & Hc').
  { intros g Hg. rewrite Forall_forall in H.
    destruct (clean_ends g (H g Hg)) as (_ & _ & t2 & c2 & _ & E2 & _ & H2).
    now exists t2, c2. }
  rewrite Eu. apply (strip_fixed c c' u t'); try assumption.
  now rewrite <- Eu.
Qed.

(** X2: the lines of the text area come back as the fields, in their
    order and with their repetitions: for fields that are non-empty, have
    no whitespace at either end and hold no line break, the text that has
    one field per line gives exactly those fields. *)
Theorem placeholders_of_lines (fields : list str) :
  Forall clean fields ->
  placeholders_of (join nl fields) = fields.
Proof.
  intros H. unfold placeholders_of.
  rewrite (strip_join_clean fields H).
  destruct fields as [|f fs]; [reflexivity|].
  unfold nl. rewrite split_join; [|discriminate|].
  - induction H as [|g gs (Hne & Hs & _) _ IH]; [reflexivity|].
    cbn [filter map]. rewrite Hs.
    destruct g; [congruence|]. cbn [Str.truthy filter map].
    rewrite Hs. f_equal. exact IH.
  - eapply Forall_impl; [|exact H]. intros g (_ & _ & Hn). exact Hn.
Qed.

Lemma placeholders_of_lines_witness :
  let fields := [lit "Invoice Number"; lit "Total Amount"; lit "Invoice Number"] in
  Forall clean fields /\ placeholders_of (join nl fields) = fields.
Proof.
  intros fields.
  assert (H : Forall clean fields).
  { repeat constructor; try discriminate;
      simpl; intuition discriminate. }
  exact (conj H (placeholders_of_lines fields H)).
Defined.

End FieldFacts.

(** ** The text of line 71 *)

Module ReplyFacts.
Import StrFacts FenceFacts FieldFacts.

(** *** The prompt and the separator of the field list *)

Lemma join_merge (sep a b : str) (rest : list str) :
  join sep ((a ++ sep ++ b) :: rest) = join sep (a :: b :: rest).
Proof.
  destruct rest as [|r rest]; cbn [join]; [reflexivity|].
  now rewrite <- !app_assoc.
Qed.

(** X3: the prompt cannot tell a field name that holds a comma and a space
    from two fields: naming [a, b] as one field gives the same prompt as
    naming [a] and [b]. *)
Theorem prompt_merges_fields (a b : str) (rest : list str) :
  make_prompt ((a ++ lit ", " ++ b) :: rest) = make_prompt (a :: b :: rest).
Proof.
  unfold make_prompt. now rewrite join_merge.
Qed.

(** *** Occurrences *)

Lemma startswith_prefix (p s : str) :
  startswith p s = true <-> exists t, s = p ++ t.
Proof.
  revert s. induction p as [|a p IH]; intros s.
  - split; [intros _; now exists s|reflexivity].
  - destruct s as [|b s]; simpl.
    + split; [discriminate|intros [t H]; discriminate].
    + rewrite andb_true_iff, N.eqb_eq, IH. split.
      * intros [-> [t ->]]. now exists t.
      * intros [t H]. injection H as -> ->. split; [reflexivity|now exists t].
Qed.

Lemma occurs_contains (x s : str) : occurs x s = true <-> contains x s.
Proof.
  split.
  - induction s as [|c s IH]; cbn [occurs]; rewrite orb_true_iff.
    + intros [H|H]; [|discriminate].
      apply startswith_prefix in H as [t H]. now exists [], t.
    + intros [H|H].
      * apply startswith_prefix in H as [t H]. now exists [], t.
      * destruct (IH H) as (pre & post & ->). now exists (c :: pre), post.
  - intros (pre & post & ->). induction pre as [|c pre IH].
    + destruct (x ++ post) eqn:E; cbn [occurs app]; rewrite <- ?E;
        apply orb_true_iff; left; apply startswith_prefix; now exists post.
    + cbn [occurs app]. apply orb_true_iff. now right.
Qed.

Lemma occurs_tail (x s : str) (c : N) :
  occurs x (c :: s) = false -> occurs x s = false.
Proof. cbn [occurs]. intros H. now apply orb_false_iff in H. Qed.

(** Where the pattern does not occur, [replace] changes nothing. *)
Lemma replace_from_absent (old new s : str) :
  occurs old s = false -> replace_from old new 0 s = s.
Proof.
  induction s as [|c s IH]; intros H; [reflexivity|].
  cbn [replace_from]. cbn [occurs] in H. apply orb_false_iff in H as [H1 H2].
  rewrite H1. now rewrite IH.
Qed.

Lemma replace_absent (old new s : str) :
  old <> [] -> occurs old s = false -> replace old new s = s.
Proof.
  intros Hne H. destruct old; [congruence|]. now apply replace_from_absent.
Qed.

(** *** No fence is left *)


Lemma ticks : lit "```" = [tick; tick; tick].
Proof. reflexivity. Qed.

Lemma replace_from_keep (old new : str) (c : N) (t : str) :
  startswith old (c :: t) = false ->
  replace_from old new 0 (c :: t) = c :: replace_from old new 0 t.
Proof. intros H. cbn [replace_from]. now rewrite H. Qed.

Lemma replace_from_ticks (t : str) :
  replace_from [tick; tick; tick] [] 0 (tick :: tick :: tick :: t)
  = replace_from [tick; tick; tick] [] 0 t.
Proof. reflexivity. Qed.

Lemma occurs_skip (x : str) (c : N) (r : str) :
  startswith x (c :: r) = false -> occurs x (c :: r) = occurs x r.
Proof. intros H. cbn [occurs]. now rewrite H. Qed.

Lemma no_ticks_other (c : N) (r : str) :
  c <> tick -> startswith [tick; tick; tick] (c :: r) = false.
Proof.
  intros H. cbn [startswith]. apply N.eqb_neq in H.
  rewrite N.eqb_sym in H. now rewrite H.
Qed.

Lemma no_ticks_one (c : N) (r : str) :
  c <> tick -> startswith [tick; tick; tick] (tick :: c :: r) = false.
Proof.
  intros H. cbn [startswith]. apply N.eqb_neq in H.
  rewrite N.eqb_sym in H. rewrite H. now rewrite andb_false_r.
Qed.

Lemma no_ticks_two (c : N) (r : str) :
  c <> tick -> startswith [tick; tick; tick] (tick :: tick :: c :: r) = false.
Proof.
  intros H. cbn [startswith]. apply N.eqb_neq in H.
  rewrite N.eqb_sym in H. rewrite H. now rewrite !andb_false_r.
Qed.

(** After the removal of the triple backticks none is left: a run of
    backticks keeps fewer than three. *)
Lemma replace_ticks_upto (n : nat) :
  forall s, List.length s <= n ->
    occurs [tick; tick; tick] (replace_from [tick; tick; tick] [] 0 s) = false.
Proof.
  induction n as [|n IH]; intros s Hn.
  - destruct s; [reflexivity|simpl in Hn; lia].
  - destruct s as [|c t]; [reflexivity|].
    assert (Ht : List.length t <= n) by (simpl in Hn; lia).
    destruct (N.eq_dec c tick) as [->|Hc].
    + destruct t as [|c1 t1]; [reflexivity|].
      destruct (N.eq_dec c1 tick) as [->|Hc1].
      * destruct t1 as [|c2 t2]; [reflexivity|].
        destruct (N.eq_dec c2 tick) as [->|Hc2].
        -- rewrite replace_from_ticks. apply IH. simpl in *. lia.
        -- pose proof (IH (c2 :: t2)) as K.
           rewrite (replace_from_keep _ _ _ _ (no_ticks_other c2 t2 Hc2)) in K.
           rewrite (replace_from_keep _ _ _ _ (no_ticks_two c2 t2 Hc2)).
           rewrite (replace_from_keep _ _ _ _ (no_ticks_one c2 t2 Hc2)).
           rewrite (replace_from_keep _ _ _ _ (no_ticks_other c2 t2 Hc2)).
           rewrite (occurs_skip _ _ _ (no_ticks_two c2 _ Hc2)).
           rewrite (occurs_skip _ _ _ (no_ticks_one c2 _ Hc2)).
           apply K. simpl in *. lia.
      * pose proof (IH (c1 :: t1) Ht) as K.
        rewrite (replace_from_keep _ _ _ _ (no_ticks_other c1 t1 Hc1)) in K.
        rewrite (replace_from_keep _ _ _ _ (no_ticks_one c1 t1 Hc1)).
        rewrite (replace_from_keep _ _ _ _ (no_ticks_other c1 t1 Hc1)).
        rewrite (occurs_skip _ _ _ (no_ticks_one c1 _ Hc1)).
        exact K.
    + rewrite (replace_from_keep _ _ _ _ (no_ticks_other c t Hc)).
      rewrite (occurs_skip _ _ _ (no_ticks_other c _ Hc)).
      now apply IH.
Qed.

Lemma replace_ticks_none (s : str) :
  occurs (lit "```") (replace (lit "```") [] s) = false.
Proof.
  change (replace (lit "```") [] s)
    with (replace_from [tick; tick; tick] [] 0 s).
  change (lit "```") with [tick; tick; tick].
  exact (replace_ticks_upto (List.length s) s (le_n _)).
Qed.

Lemma unfence_no_ticks (s : str) : occurs (lit "```") (unfence s) = false.
Proof. unfold unfence. apply replace_ticks_none. Qed.

Lemma not_contains_strip (x s : str) :
  occurs x s = false -> occurs x (strip s) = false.
Proof.
  intros H. destruct (occurs x (strip s)) eqn:E; [|reflexivity].
  apply occurs_contains in E as (pre & post & E).
  destruct (strip_split s) as (w1 & w2 & _ & _ & Hs).
  assert (K : contains x s).
  { exists (w1 ++ pre), (post ++ w2). rewrite Hs at 1. rewrite E.
    now rewrite <- !app_assoc. }
  apply occurs_contains in K. congruence.
Qed.

(** The tagged fence holds the plain one. *)
Lemma no_ticks_no_tagged (s : str) :
  occurs (lit "```") s = false -> occurs (lit "```json") s = false.
Proof.
  intros H. destruct (occurs (lit "```json") s) eqn:E; [|reflexivity].
  apply occurs_contains in E as (pre & post & E).
  assert (K : contains (lit "```") s).
  { exists pre, (lit "json" ++ post). rewrite E. reflexivity. }
  apply occurs_contains in K. congruence.
Qed.

(** X4: the text line 71 hands to [json.loads] holds no triple backtick,
    wherever it stood in the reply, and no whitespace at either end. *)
Theorem json_str_no_fence (text : str) :
  ~ contains (lit "```") (json_str text)
  /\ ~ contains (lit "```json") (json_str text)
  /\ strip (json_str text) = json_str text.
Proof.
  assert (H : occurs (lit "```") (json_str text) = false).
  { rewrite json_str_unfence. apply not_contains_strip, unfence_no_ticks. }
  repeat apply conj.
  - intros K. apply occurs_contains in K. congruence.
  - intros K. apply occurs_contains in K.
    rewrite (no_ticks_no_tagged _ H) in K. discriminate.
  - rewrite json_str_unfence. apply strip_idempotent.
Qed.

(** X5: line 71 applied to its own result changes nothing. *)
Theorem json_str_idempotent (text : str) :
  json_str (json_str text) = json_str text.
Proof.
  assert (H : occurs (lit "```") (json_str text) = false).
  { rewrite json_str_unfence. apply not_contains_strip, unfence_no_ticks. }
  assert (S : strip (json_str text) = json_str text)
    by (rewrite json_str_unfence; apply strip_idempotent).
  rewrite (json_str_unfence (json_str text)), S.
  unfold unfence.
  rewrite (replace_absent (lit "```json")); [|discriminate|now apply no_ticks_no_tagged].
  rewrite (replace_absent (lit "```")); [|discriminate|exact H].
  exact S.
Qed.

End ReplyFacts.

(** ** The handler and the results, case by case *)

Module RunFacts.
Import StrFacts FenceFacts FieldFacts ReplyFacts.

Arguments make_prompt : simpl never.
Arguments json_str : simpl never.
Arguments Json.loads : simpl never.
Arguments placeholders_of : simpl never.

Local Open Scope Z_scope.

Lemma only_elements_refl (w : world) : only_elements w w.
Proof. repeat apply conj; reflexivity. Qed.

Lemma only_elements_trans (w1 w2 w3 : world) :
  only_elements w1 w2 -> only_elements w2 w3 -> only_elements w1 w3.
Proof.
  intros (A1 & A2 & A3 & A4 & A5 & A6) (B1 & B2 & B3 & B4 & B5 & B6).
  repeat apply conj; congruence.
Qed.

Lemma only_elements_with (els : list element) (w : world) :
  only_elements w (with_elements els w).
Proof. repeat apply conj; reflexivity. Qed.

Section Calls.

Variable convert_from_bytes : bytes -> Z -> Z -> exn + list image.
Variable generate_content : str -> image -> exn + str.

Local Abbreviation pdf_to_image := (pdf_to_image convert_from_bytes).
Local Abbreviation analyze_body := (analyze_body generate_content).
Local Abbreviation analyze := (analyze_document_with_gemini generate_content).
Local Abbreviation run_script := (run_script convert_from_bytes generate_content).
Local Abbreviation handle_extract := (handle_extract convert_from_bytes generate_content).

(** *** The results section *)

Lemma shown_fields_all (l : list (str * value)) :
  forallb field_encodable l = true -> shown_fields l = l.
Proof.
  induction l as [|a l IH]; [reflexivity|].
  cbn [forallb shown_fields]. intros H.
  apply andb_prop in H as (Ha & Hl). rewrite Ha. f_equal. now apply IH.
Qed.

Lemma for_each_text_input (l : list (str * value)) (w : world) :
  let r := for_each l text_input w in
  fst r = (if forallb field_encodable l then inr tt
           else inl UnicodeEncodeError)
  /\ only_elements w (snd r)
  /\ elements (snd r) = elements w ++ map result_field (shown_fields l).
Proof.
  cbv zeta. revert w.
  induction l as [|a l IH]; intros w; cbn [for_each forallb shown_fields].
  - cbn. rewrite app_nil_r. split; [reflexivity|].
    split; [apply only_elements_refl|reflexivity].
  - unfold bind. rewrite AppFacts.text_input_step.
    destruct (field_encodable a); cbn [andb].
    + cbn [emit].
      match goal with
      | |- context [for_each l text_input ?w0] =>
          destruct (IH w0) as (H1 & H2 & H3)
      end.
      split; [exact H1|]. split.
      * eapply only_elements_trans; [|exact H2].
        repeat apply conj; reflexivity.
      * rewrite H3. cbn [elements map]. now rewrite <- app_assoc.
    + cbn. rewrite app_nil_r. split; [reflexivity|].
      split; [apply only_elements_refl|reflexivity].
Qed.

Ltac falsy inp :=
  destruct (extract_button inp); cbn; rewrite ?app_nil_r;
  (split; [repeat apply conj; reflexivity|split; reflexivity]).

Ltac crash :=
  cbn; rewrite <- ?app_assoc;
  (split; [repeat apply conj; reflexivity|split; reflexivity]).

(** What [show_results] does, case by case. *)
Lemma show_results_cases (inp : inputs) (w : world) :
  let r := show_results inp w in
  only_elements w (snd r)
  /\ match result (session w) with
     | VDict (kv :: d) =>
         if forallb field_encodable (kv :: d)
         then fst r = inr tt
              /\ elements (snd r)
                 = elements w
                   ++ results_section (kv :: d) (image_to_display (session w))
                                      (page_number inp + 1)
         else fst r = inl UnicodeEncodeError
              /\ elements (snd r) = elements w ++ results_begun (kv :: d)
     | v =>
         if Py.truthy v
         then fst r = inl (no_items v)
              /\ elements (snd r)
                 = elements w ++ [st_header (lit "Extracted Information");
                                  st_subheader (lit "Results")]
         else fst r = inr tt
              /\ elements (snd r)
                 = elements w ++ (if extract_button inp then [] else [begin_info])
     end.
Proof.
  unfold show_results, bind, get_session.
  destruct (result (session w)) as [|b|z|ng dg ex| |ng|s|l|d] eqn:Hr;
    cbn [Py.truthy].
  - falsy inp.
  - destruct b; [crash|falsy inp].
  - destruct (negb (z =? 0)); [crash|falsy inp].
  - destruct (negb (float_is_zero dg ex)); [crash|falsy inp].
  - crash.
  - crash.
  - destruct s; cbn [Str.truthy]; [falsy inp|crash].
  - destruct l; [falsy inp|crash].
  - destruct d as [|kv d].
    + falsy inp.
    + cbn [emit items ret session].
      match goal with
      | |- context [for_each (kv :: d) text_input ?w0] =>
          pose proof (for_each_text_input (kv :: d) w0) as E;
          assert (O : only_elements w w0) by (repeat apply conj; reflexivity)
      end.
      cbv zeta in E. destruct E as (E1 & E2 & E3).
      pose proof (only_elements_trans _ _ _ O E2) as O2.
      cbn [elements] in E3.
      destruct (forallb field_encodable (kv :: d)) eqn:F;
        destruct (for_each (kv :: d) text_input _) as [[e|[]] w1];
        cbn [fst snd] in *; try discriminate.
      * pose proof O2 as (_ & _ & _ & _ & _ & S6).
        unfold results_section. rewrite S6.
        destruct (image_to_display (session w)); cbn [emit ret fst snd elements];
          (split; [destruct O2 as (A1 & A2 & A3 & A4 & A5 & A6);
                   repeat apply conj; cbn; congruence|]);
          (split; [reflexivity|]);
          rewrite E3, (shown_fields_all _ F), <- ?app_assoc; cbn [app];
          rewrite ?app_nil_r; reflexivity.
      * injection E1 as ->.
        split; [exact O2|]. split; [reflexivity|].
        unfold results_begun. rewrite E3, <- !app_assoc. reflexivity.
Qed.

(** *** The extraction, hit or miss *)

Lemma analyze_body_frame (img : image) (fields : list str) (w : world) :
  let r := analyze_body img fields w in
  (exists v, fst r = inr v)
  /\ stdout (snd r) = stdout w
  /\ backend_calls (snd r) = backend_calls w
  /\ raster_cache (snd r) = raster_cache w
  /\ analysis_cache (snd r) = analysis_cache w
  /\ session (snd r) = session w
  /\ model_calls (snd r) = model_calls w ++ [(make_prompt fields, img)].
Proof.
  unfold App.analyze_body, try_except, bind, call_model, json_loads.
  destruct (generate_content (make_prompt fields) img) as [e|text].
  - cbn. repeat apply conj; try reflexivity. now exists VNone.
  - destruct (Json.loads (json_str text)) as [e|v]; cbn;
      repeat apply conj; try reflexivity; eexists; reflexivity.
Qed.

Lemma analyze_cases (img : image) (fields : list str) (w : world) :
  let r := analyze img fields w in
  exists v,
    fst r = inr v
    /\ stdout (snd r) = stdout w
    /\ backend_calls (snd r) = backend_calls w
    /\ raster_cache (snd r) = raster_cache w
    /\ session (snd r) = session w
    /\ match cache_find [] (analysis_cache w) with
       | Some (a, els) =>
           v = a
           /\ model_calls (snd r) = model_calls w
           /\ analysis_cache (snd r) = analysis_cache w
           /\ elements (snd r) = elements w ++ els
       | None =>
           fst (analyze_body img fields (with_elements [] w)) = inr v
           /\ model_calls (snd r) = model_calls w ++ [(make_prompt fields, img)]
           /\ exists els,
               analysis_cache (snd r) = ([], (v, els)) :: analysis_cache w
               /\ elements (snd r) = elements w ++ els
       end.
Proof.
  unfold analyze_document_with_gemini, cache_data.
  rewrite AppFacts.analysis_key. cbn [slot_get analysis_slot].
  destruct (cache_find [] (analysis_cache w)) as [[a els]|] eqn:Hc.
  - exists a. cbn. repeat apply conj; reflexivity.
  - destruct (analyze_body_frame img fields (with_elements [] w))
      as ((v & Hv) & F1 & F2 & F3 & F4 & F5 & F6).
    destruct (analyze_body img fields (with_elements [] w)) as [[e|v'] w1];
      cbn [fst snd] in *; [discriminate|].
    injection Hv as ->. exists v. cbn.
    repeat apply conj; try assumption; try reflexivity.
    exists (elements w1). rewrite F4. split; reflexivity.
Qed.

(** *** The handler, case by case *)

Lemma reaches_pipeline_true (inp : inputs) :
  reaches_pipeline inp = true ->
  exists pdf f fs,
    uploaded_file inp = Some pdf
    /\ extract_button inp = true
    /\ Str.truthy (placeholders_text inp) = true
    /\ placeholders_of (placeholders_text inp) = f :: fs.
Proof.
  unfold reaches_pipeline.
  destruct (uploaded_file inp) as [pdf|]; [|discriminate].
  destruct (extract_button inp); [|discriminate].
  destruct (Str.truthy (placeholders_text inp)); [|discriminate].
  destruct (placeholders_of (placeholders_text inp)) as [|f fs]; [discriminate|].
  intros _. now exists pdf, f, fs.
Qed.

(** A run that does not reach the pipeline changes the page at most. *)
Lemma handle_extract_skipped (inp : inputs) (w : world) :
  reaches_pipeline inp = false ->
  let r := handle_extract inp w in
  fst r = inr tt
  /\ only_elements w (snd r)
  /\ (elements (snd r) = elements w
      \/ (elements (snd r) = elements w ++ [placeholder_warning]
          /\ uploaded_file inp <> None
          /\ placeholders_text inp <> []
          /\ placeholders_of (placeholders_text inp) = [])).
Proof.
  unfold reaches_pipeline, App.handle_extract.
  destruct (uploaded_file inp) as [pdf|].
  - destruct (extract_button inp); cbn [andb].
    + destruct (placeholders_text inp) as [|c t] eqn:Ht; cbn [Str.truthy].
      * intros _. cbn. repeat apply conj; try reflexivity. now left.
      * destruct (placeholders_of (c :: t)) as [|f fs]; [|discriminate].
        intros _. cbn. repeat apply conj; try reflexivity.
        right. repeat apply conj; try reflexivity; discriminate.
    + intros _. cbn. repeat apply conj; try reflexivity. now left.
  - intros _. cbn. repeat apply conj; try reflexivity. now left.
Qed.

Lemma handle_extract_image (inp : inputs) (pdf : bytes) (f : str)
      (fs : list str) (img : image) (rest : list image) (w : world) :
  uploaded_file inp = Some pdf ->
  extract_button inp = true ->
  Str.truthy (placeholders_text inp) = true ->
  placeholders_of (placeholders_text inp) = f :: fs ->
  convert_from_bytes pdf (page_number inp + 1) (page_number inp + 1)
  = inr (img :: rest) ->
  handle_extract inp w
  = (let (s, w2) :=
       analyze img (f :: fs)
         (snd (set_image_to_display (Some img)
                 (snd (call_backend convert_from_bytes pdf
                         (page_number inp + 1) (page_number inp + 1) w)))) in
     match s with
     | inl e => (inl e, w2)
     | inr v => set_result v w2
     end).
Proof.
  intros Hf Hb Ht Hp Hc.
  unfold App.handle_extract. rewrite Hf, Hb, Ht, Hp. cbn [andb].
  unfold bind at 1.
  unfold App.pdf_to_image, try_except, bind at 1, call_backend.
  rewrite Hc. reflexivity.
Qed.

Lemma handle_extract_without_image (inp : inputs) (pdf : bytes) (f : str)
      (fs : list str) (w : world) :
  uploaded_file inp = Some pdf ->
  extract_button inp = true ->
  Str.truthy (placeholders_text inp) = true ->
  placeholders_of (placeholders_text inp) = f :: fs ->
  first_image
    (match convert_from_bytes pdf (page_number inp + 1) (page_number inp + 1) with
     | inr images => images
     | inl _ => []
     end) = None ->
  let answer := convert_from_bytes pdf (page_number inp + 1)
                                   (page_number inp + 1) in
  handle_extract inp w
  = (inr tt,
     {| elements := elements w; stdout := stdout w ++ printed answer;
        backend_calls := backend_calls w
                         ++ [(pdf, page_number inp + 1, page_number inp + 1)];
        model_calls := model_calls w;
        raster_cache := raster_cache w; analysis_cache := analysis_cache w;
        session := {| result := VNone; image_to_display := None |} |}).
Proof.
  intros Hf Hb Ht Hp Hc. cbv zeta.
  unfold App.handle_extract. rewrite Hf, Hb, Ht, Hp. cbn [andb].
  unfold bind at 1.
  unfold App.pdf_to_image, try_except, bind at 1, call_backend, printed.
  destruct (convert_from_bytes pdf (page_number inp + 1) (page_number inp + 1))
    as [e|[|img rest]]; [| |discriminate].
  - reflexivity.
  - cbn. now rewrite app_nil_r.
Qed.

(** A run that reaches the pipeline: one call of the backend, then the
    extraction if there is an image. *)
Lemma handle_extract_pipeline (inp : inputs) (w : world) :
  reaches_pipeline inp = true ->
  exists pdf,
    uploaded_file inp = Some pdf
    /\ let r := handle_extract inp w in
       let answer := convert_from_bytes pdf (page_number inp + 1)
                                        (page_number inp + 1) in
       fst r = inr tt
       /\ backend_calls (snd r)
          = backend_calls w ++ [(pdf, page_number inp + 1, page_number inp + 1)]
       /\ raster_cache (snd r) = raster_cache w
       /\ stdout (snd r) = stdout w ++ printed answer
       /\ match answer with
          | inr (img :: _) =>
              exists v,
                session (snd r) = {| result := v; image_to_display := Some img |}
                /\ match cache_find [] (analysis_cache w) with
                   | Some (a, els) =>
                       v = a
                       /\ model_calls (snd r) = model_calls w
                       /\ analysis_cache (snd r) = analysis_cache w
                       /\ elements (snd r) = elements w ++ els
                   | None =>
                       model_calls (snd r)
                       = model_calls w
                           ++ [(make_prompt (placeholders_of (placeholders_text inp)),
                                img)]
                       /\ exists els,
                           analysis_cache (snd r)
                           = ([], (v, els)) :: analysis_cache w
                           /\ elements (snd r) = elements w ++ els
                   end
          | _ =>
              session (snd r) = {| result := VNone; image_to_display := None |}
              /\ model_calls (snd r) = model_calls w
              /\ analysis_cache (snd r) = analysis_cache w
              /\ elements (snd r) = elements w
          end.
Proof.
  intros H. destruct (reaches_pipeline_true inp H) as (pdf & f & fs & Hf & Hb & Ht & Hp).
  exists pdf. split; [exact Hf|]. cbv zeta.
  destruct (convert_from_bytes pdf (page_number inp + 1) (page_number inp + 1))
    as [e|[|img rest]] eqn:Hc.
  - pose proof (handle_extract_without_image inp pdf f fs w Hf Hb Ht Hp) as E.
    rewrite Hc in E. rewrite (E eq_refl). cbn.
    repeat apply conj; reflexivity.
  - pose proof (handle_extract_without_image inp pdf f fs w Hf Hb Ht Hp) as E.
    rewrite Hc in E. rewrite (E eq_refl). cbn.
    repeat apply conj; reflexivity.
  - rewrite (handle_extract_image inp pdf f fs img rest w Hf Hb Ht Hp Hc).
    rewrite Hp.
    match goal with
    | |- context [analyze img (f :: fs) ?w0] => set (w1 := w0)
    end.
    destruct (analyze_cases img (f :: fs) w1)
      as (v & A1 & A2 & A3 & A4 & A5 & A6).
    destruct (analyze img (f :: fs) w1) as [[e|v'] w2];
      cbn [fst snd] in *; [discriminate|].
    injection A1 as ->. subst w1.
    cbn [elements stdout backend_calls model_calls raster_cache
         analysis_cache session] in *.
    cbn in A2, A3, A4, A5, A6 |- *. rewrite ?app_nil_r, ?A2, ?A3, ?A4, ?A5.
    repeat apply conj; try reflexivity.
    exists v. split; [reflexivity|].
    destruct (cache_find [] (analysis_cache w)) as [[a els]|].
    + exact A6.
    + destruct A6 as (_ & A6 & A7). split; assumption.
Qed.

End Calls.


End RunFacts.

(** ** Decoded objects *)

Module DictFacts.
Import Json StrFacts FenceFacts JsonFacts FieldFacts ReplyFacts.

(** *** The keys of a decoded object *)

Lemma dict_set_keys (d : list (str * value)) (k : str) (v : value) :
  map fst (dict_set d k v)
  = if in_dec str_eq_dec k (map fst d) then map fst d else map fst d ++ [k].
Proof.
  induction d as [|[k' v'] d IH]; [reflexivity|].
  cbn [dict_set map fst].
  destruct (str_eq_dec k k') as [->|Hne].
  - cbn [map fst]. destruct (in_dec str_eq_dec k' (k' :: map fst d)) as [_|N];
      [reflexivity|]. exfalso. apply N. now left.
  - cbn [map fst]. rewrite IH.
    destruct (in_dec str_eq_dec k (map fst d)) as [I|N];
      destruct (in_dec str_eq_dec k (k' :: map fst d)) as [I'|N'];
      try reflexivity.
    + exfalso. apply N'. now right.
    + exfalso. destruct I' as [E|I']; [congruence|contradiction].
Qed.

Lemma dict_set_NoDup (d : list (str * value)) (k : str) (v : value) :
  NoDup (map fst d) -> NoDup (map fst (dict_set d k v)).
Proof.
  intros H. rewrite dict_set_keys.
  destruct (in_dec str_eq_dec k (map fst d)) as [I|N]; [exact H|].
  apply NoDup_app; [exact H|repeat constructor; intros []|].
  intros x Hx [<-|[]]. contradiction.
Qed.

Lemma dict_of_pairs_NoDup (pairs : list (str * value)) :
  NoDup (map fst (dict_of_pairs pairs)).
Proof.
  unfold dict_of_pairs.
  assert (G : forall d, NoDup (map fst d) ->
                NoDup (map fst (fold_left
                                  (fun d kv => dict_set d (fst kv) (snd kv))
                                  pairs d))).
  { induction pairs as [|kv pairs IH]; intros d Hd; [exact Hd|].
    cbn [fold_left]. apply IH. now apply dict_set_NoDup. }
  apply G. constructor.
Qed.

(** *** What the scanner needs for an object *)

Lemma constant_value (w : string) (v v' : value) (s r : str) :
  constant w v s = Some (v', r) -> v' = v.
Proof.
  unfold constant. destruct (startswith (lit w) s); [|discriminate].
  intros H. now inversion H.
Qed.

Lemma match_number_value (s r : str) (v : value) :
  match_number s = Some (v, r) -> is_dict v = false.
Proof.
  unfold match_number.
  destruct (match s with [] => _ | _ :: _ => _ end) as [neg s1].
  destruct (int_part s1) as [[i r1]|]; [|discriminate].
  destruct (frac_part r1) as [[f r2]|].
  - destruct (exp_part r2) as [[e r3]|]; intros H; inversion H; reflexivity.
  - destruct (exp_part r1) as [[e r3]|]; intros H; inversion H; reflexivity.
Qed.

Lemma scan_atom_value (s r : str) (v : value) :
  scan_atom s = Some (v, r) -> is_dict v = false.
Proof.
  unfold scan_atom, first_of.
  repeat match goal with
         | |- context [match constant ?w ?x s with _ => _ end] =>
             let H := fresh "H" in
             destruct (constant w x s) as [[? ?]|] eqn:H;
             [intros H'; inversion H'; subst;
              apply constant_value in H; subst; reflexivity|]
         | |- context [match match_number s with _ => _ end] =>
             let H := fresh "H" in
             destruct (match_number s) as [[? ?]|] eqn:H;
             [intros H'; inversion H'; subst;
              revert H; apply match_number_value|]
         end.
  intros K. apply constant_value in K. now subst.
Qed.

(** The scanner gives a dict only at an opening brace, and the dict has
    each key once. *)
Lemma scan_once_dict (fuel : nat) (s r : str) (d : list (str * value)) :
  scan_once fuel s = Ok (VDict d, r) ->
  (exists t, s = 123%N :: t) /\ NoDup (map fst d).
Proof.
  destruct fuel as [|n]; [discriminate|].
  destruct s as [|c t]; [discriminate|]. cbn [scan_once].
  destruct (c =? 34)%N.
  { destruct (scanstring t) as [p| |]; cbn [Json.bind]; discriminate. }
  destruct (N.eqb_spec c 123) as [->|Hc].
  { destruct (skip_ws t) as [|c' t']; [discriminate|].
    destruct (c' =? 125)%N.
    - intros H. inversion H. split; [now exists t|constructor].
    - destruct (object_loop n (c' :: t')) as [p| |]; cbn [Json.bind];
        try discriminate.
      intros H. inversion H. split; [now exists t|apply dict_of_pairs_NoDup]. }
  destruct (c =? 91)%N.
  { destruct (skip_ws t) as [|c' t']; [discriminate|].
    destruct (c' =? 93)%N; [discriminate|].
    destruct (array_loop n (c' :: t')) as [p| |]; cbn [Json.bind]; discriminate. }
  destruct (scan_atom (c :: t)) as [[v r']|] eqn:Ha; [|discriminate].
  intros H. inversion H; subst. apply scan_atom_value in Ha. discriminate.
Qed.

Lemma loads_dict (s : str) (d : list (str * value)) :
  loads s = inr (VDict d) ->
  (exists t, skip_ws s = 123%N :: t) /\ NoDup (map fst d).
Proof.
  unfold loads. destruct (startswith _ s); [discriminate|].
  destruct (scan_once _ _) as [[v r]| |] eqn:Hs; try discriminate.
  destruct (skip_ws r); [|discriminate].
  intros H. inversion H; subst. now apply scan_once_dict in Hs.
Qed.

(** JSON whitespace is whitespace for [strip]. *)
Lemma is_ws_isspace (c : N) : is_ws c = true -> isspace c = true.
Proof.
  unfold is_ws. rewrite !orb_true_iff, !N.eqb_eq.
  intros [[[->| ->]| ->]| ->]; reflexivity.
Qed.

Lemma skip_ws_stripped (s : str) : strip s = s -> skip_ws s = s.
Proof.
  intros H. destruct s as [|c t]; [reflexivity|].
  apply stripped_first in H. cbn [skip_ws].
  destruct (is_ws c) eqn:E; [|reflexivity].
  apply is_ws_isspace in E. congruence.
Qed.

End DictFacts.

(** ** Replies without escapes *)

Module EncodeFacts.
Import Json StrFacts FenceFacts JsonFacts FieldFacts ReplyFacts DictFacts.

Lemma rest_of_refl (s : str) : rest_of s s.
Proof. now exists []. Qed.

Lemma rest_of_trans (s r q : str) : rest_of s r -> rest_of r q -> rest_of s q.
Proof.
  intros (p1 & ->) (p2 & ->). exists (p1 ++ p2). now rewrite app_assoc.
Qed.

Lemma rest_of_cons (c : N) (s r : str) : rest_of s r -> rest_of (c :: s) r.
Proof. intros (p & ->). now exists (c :: p). Qed.

Lemma rest_of_skipn (n : nat) (s : str) : rest_of s (skipn n s).
Proof. exists (firstn n s). now rewrite firstn_skipn. Qed.

Lemma rest_of_plain (s r : str) :
  rest_of s r -> plain_text s = true -> plain_text r = true.
Proof.
  intros (p & ->). unfold plain_text. rewrite forallb_app.
  intros H. now apply andb_prop in H.
Qed.

Lemma skip_ws_rest (s : str) : rest_of s (skip_ws s).
Proof.
  induction s as [|c s IH]; [apply rest_of_refl|]. cbn [skip_ws].
  destruct (is_ws c); [now apply rest_of_cons|apply rest_of_refl].
Qed.

Lemma span_digits_rest (s : str) : rest_of s (snd (span_digits s)).
Proof.
  induction s as [|c s IH]; [apply rest_of_refl|]. cbn [span_digits].
  destruct (isdigit c); [now apply rest_of_cons|apply rest_of_refl].
Qed.

Lemma int_part_rest (s i r : str) : int_part s = Some (i, r) -> rest_of s r.
Proof.
  destruct s as [|c t]; [discriminate|]. unfold int_part.
  destruct (c =? 48)%N.
  - intros H. inversion H; subst. apply rest_of_cons, rest_of_refl.
  - destruct (isdigit c); [|discriminate].
    intros H. injection H as E.
    change (span_digits (c :: t) = (i, r)) in E.
    pose proof (span_digits_rest (c :: t)) as R. now rewrite E in R.
Qed.

Lemma frac_part_rest (s f r : str) : frac_part s = Some (f, r) -> rest_of s r.
Proof.
  destruct s as [|d [|c t]]; try discriminate. unfold frac_part.
  destruct ((d =? 46)%N && isdigit c); [|discriminate].
  intros H. injection H as H.
  pose proof (span_digits_rest (c :: t)) as R.
  change (span_digits (c :: t) = (f, r)) in H. rewrite H in R.
  now apply rest_of_cons.
Qed.

Lemma exp_part_rest (s r : str) (e : Z) : exp_part s = Some (e, r) -> rest_of s r.
Proof.
  destruct s as [|x t]; [discriminate|]. unfold exp_part.
  destruct ((x =? 101)%N || (x =? 69)%N); [|discriminate].
  set (sg := match t with [] => _ | _ :: _ => _ end).
  assert (Hsg : rest_of t (snd sg)).
  { subst sg. destruct t as [|g u]; [apply rest_of_refl|].
    destruct (g =? 45)%N; [apply rest_of_cons, rest_of_refl|].
    destruct (g =? 43)%N; [apply rest_of_cons|]; apply rest_of_refl. }
  destruct sg as [neg t']. cbn [snd] in Hsg.
  pose proof (span_digits_rest t') as Hd.
  destruct (span_digits t') as [[|d0 d] r']; [discriminate|].
  intros H. inversion H; subst.
  apply rest_of_cons. eapply rest_of_trans; eassumption.
Qed.

Lemma match_number_rest (s r : str) (v : value) :
  match_number s = Some (v, r) -> rest_of s r.
Proof.
  unfold match_number.
  set (sg := match s with [] => _ | _ :: _ => _ end).
  assert (Hsg : rest_of s (snd sg)).
  { subst sg. destruct s as [|c t]; [apply rest_of_refl|].
    destruct (c =? 45)%N; [apply rest_of_cons|]; apply rest_of_refl. }
  destruct sg as [neg s1]. cbn [snd] in Hsg.
  destruct (int_part s1) as [[i r1]|] eqn:Hi; [|discriminate].
  apply int_part_rest in Hi.
  pose proof (rest_of_trans _ _ _ Hsg Hi) as H1.
  destruct (frac_part r1) as [[f r2]|] eqn:Hf.
  - apply frac_part_rest in Hf.
    pose proof (rest_of_trans _ _ _ H1 Hf) as H2.
    destruct (exp_part r2) as [[e r3]|] eqn:He.
    + apply exp_part_rest in He. intros H; inversion H; subst.
      eapply rest_of_trans; eassumption.
    + intros H; inversion H; subst. exact H2.
  - destruct (exp_part r1) as [[e r3]|] eqn:He.
    + apply exp_part_rest in He. intros H; inversion H; subst.
      eapply rest_of_trans; eassumption.
    + intros H; inversion H; subst. exact H1.
Qed.

Lemma match_number_plain_value (s r : str) (v : value) :
  match_number s = Some (v, r) -> str_encodable v = true.
Proof.
  unfold match_number.
  destruct (match s with [] => _ | _ :: _ => _ end) as [neg s1].
  destruct (int_part s1) as [[i r1]|]; [|discriminate].
  destruct (frac_part r1) as [[f r2]|].
  - destruct (exp_part r2) as [[e r3]|]; intros H; inversion H; reflexivity.
  - destruct (exp_part r1) as [[e r3]|]; intros H; inversion H; reflexivity.
Qed.

Lemma constant_rest (w : string) (v v' : value) (s r : str) :
  constant w v s = Some (v', r) -> rest_of s r.
Proof.
  unfold constant. destruct (startswith (lit w) s); [|discriminate].
  intros H. inversion H. apply rest_of_skipn.
Qed.

(** The scanner's atoms are no strings, and leave the rest of the text. *)
Lemma scan_atom_plain (s r : str) (v : value) :
  scan_atom s = Some (v, r) -> str_encodable v = true /\ rest_of s r.
Proof.
  unfold scan_atom, first_of.
  repeat match goal with
         | |- context [match constant ?w ?x s with _ => _ end] =>
             let H := fresh "H" in
             destruct (constant w x s) as [[? ?]|] eqn:H;
             [intros H'; inversion H'; subst;
              pose proof (constant_value _ _ _ _ _ H); subst;
              split; [reflexivity|exact (constant_rest _ _ _ _ _ H)]|]
         | |- context [match match_number s with _ => _ end] =>
             let H := fresh "H" in
             destruct (match_number s) as [[? ?]|] eqn:H;
             [intros H'; inversion H'; subst;
              split; [exact (match_number_plain_value _ _ _ H)
                     |exact (match_number_rest _ _ _ H)]|]
         end.
  intros K. pose proof (constant_value _ _ _ _ _ K); subst.
  split; [reflexivity|exact (constant_rest _ _ _ _ _ K)].
Qed.

(** Without a backslash the decoded string is a piece of the text. *)
Lemma scanstring_plain (s a r : str) :
  plain_text s = true ->
  scanstring s = Ok (a, r) ->
  encodable a = true /\ plain_text r = true.
Proof.
  revert a r. induction s as [|c t IH]; intros a r Hp; [discriminate|].
  cbn [plain_text forallb] in Hp. apply andb_prop in Hp as (Hc & Ht).
  unfold plain_char in Hc. apply andb_prop in Hc as (Hs & Hb).
  cbn [scanstring].
  destruct (c =? 34)%N.
  { intros H. inversion H; subst. split; [reflexivity|exact Ht]. }
  destruct (c =? 92)%N; [discriminate|].
  destruct (c <? 32)%N; [discriminate|].
  unfold push. destruct (scanstring t) as [[a' r']| |]; cbn [Json.bind];
    try discriminate.
  intros H. inversion H; subst. cbn [fst snd].
  destruct (IH _ _ Ht eq_refl) as (Ia & Ir).
  split; [|exact Ir]. unfold encodable in *. cbn [forallb].
  now rewrite Hs, Ia.
Qed.

Lemma dict_set_encodable (d : list (str * value)) (k : str) (v : value) :
  forallb field_encodable d = true ->
  field_encodable (k, v) = true ->
  forallb field_encodable (dict_set d k v) = true.
Proof.
  intros Hd Hkv. induction d as [|[k' v'] d IH]; cbn [dict_set forallb].
  - now rewrite Hkv.
  - cbn [forallb] in Hd. apply andb_prop in Hd as (H1 & H2).
    destruct (str_eq_dec k k') as [->|Hne]; cbn [forallb].
    + now rewrite Hkv, H2.
    + now rewrite H1, (IH H2).
Qed.

Lemma dict_of_pairs_encodable (pairs : list (str * value)) :
  forallb field_encodable pairs = true ->
  forallb field_encodable (dict_of_pairs pairs) = true.
Proof.
  unfold dict_of_pairs.
  assert (G : forall d, forallb field_encodable d = true ->
                forallb field_encodable pairs = true ->
                forallb field_encodable
                  (fold_left (fun d kv => dict_set d (fst kv) (snd kv))
                             pairs d) = true).
  { induction pairs as [|[k v] pairs IH]; intros d Hd Hp; [exact Hd|].
    cbn [forallb] in Hp. apply andb_prop in Hp as (H1 & H2).
    cbn [fold_left fst snd]. apply IH; [|exact H2].
    now apply dict_set_encodable. }
  apply G. reflexivity.
Qed.

(** On a text without escapes the scanner builds strings and keys that
    can be encoded, and leaves such a text. *)
Lemma scanner_plain (fuel : nat) :
  (forall s v r, plain_text s = true -> scan_once fuel s = Ok (v, r) ->
                 str_encodable v = true /\ plain_text r = true)
  /\ (forall s ps r, plain_text s = true -> object_loop fuel s = Ok (ps, r) ->
                     forallb field_encodable ps = true /\ plain_text r = true)
  /\ (forall s vs r, plain_text s = true -> array_loop fuel s = Ok (vs, r) ->
                     plain_text r = true).
Proof.
  induction fuel as [|n (IHs & IHo & IHa)].
  - split; [|split]; intros; discriminate.
  - split; [|split].
    + intros s v r Hp. destruct s as [|c t]; [discriminate|].
      assert (Ht : plain_text t = true)
        by (apply (rest_of_plain (c :: t)); [apply rest_of_cons, rest_of_refl|exact Hp]).
      cbn [scan_once].
      destruct (c =? 34)%N.
      { destruct (scanstring t) as [[a r']| |] eqn:Hs; cbn [Json.bind];
          try discriminate.
        intros H. inversion H; subst. cbn [fst snd].
        exact (scanstring_plain _ _ _ Ht Hs). }
      destruct (c =? 123)%N.
      { pose proof (rest_of_plain _ _ (skip_ws_rest t) Ht) as Hw.
        destruct (skip_ws t) as [|c' t']; [discriminate|].
        destruct (c' =? 125)%N.
        - intros H. inversion H; subst. split; [reflexivity|].
          apply (rest_of_plain (c' :: r)); [apply rest_of_cons, rest_of_refl|exact Hw].
        - destruct (object_loop n (c' :: t')) as [[ps r']| |] eqn:Ho;
            cbn [Json.bind]; try discriminate.
          intros H. inversion H; subst. split; [reflexivity|].
          exact (proj2 (IHo _ _ _ Hw Ho)). }
      destruct (c =? 91)%N.
      { pose proof (rest_of_plain _ _ (skip_ws_rest t) Ht) as Hw.
        destruct (skip_ws t) as [|c' t']; [discriminate|].
        destruct (c' =? 93)%N.
        - intros H. inversion H; subst. split; [reflexivity|].
          apply (rest_of_plain (c' :: r)); [apply rest_of_cons, rest_of_refl|exact Hw].
        - destruct (array_loop n (c' :: t')) as [[vs r']| |] eqn:Ha;
            cbn [Json.bind]; try discriminate.
          intros H. inversion H; subst. split; [reflexivity|].
          exact (IHa _ _ _ Hw Ha). }
      destruct (scan_atom (c :: t)) as [[v' r']|] eqn:Ha; [|discriminate].
      intros H. inversion H; subst.
      destruct (scan_atom_plain _ _ _ Ha) as (Hv & Hr).
      split; [exact Hv|exact (rest_of_plain _ _ Hr Hp)].
    + intros s ps r Hp. destruct s as [|q t]; [discriminate|].
      assert (Ht : plain_text t = true)
        by (apply (rest_of_plain (q :: t)); [apply rest_of_cons, rest_of_refl|exact Hp]).
      cbn [object_loop].
      destruct (q =? 34)%N; [|discriminate].
      destruct (scanstring t) as [[k rk]| |] eqn:Hk; cbn [Json.bind];
        try discriminate.
      destruct (scanstring_plain _ _ _ Ht Hk) as (Ek & Prk). cbn [fst snd].
      pose proof (rest_of_plain _ _ (skip_ws_rest rk) Prk) as Hw.
      destruct (skip_ws rk) as [|d r0]; [discriminate|].
      destruct (d =? 58)%N; [|discriminate].
      assert (Pr0 : plain_text (skip_ws r0) = true).
      { apply (rest_of_plain (d :: r0)); [|exact Hw].
        apply rest_of_cons, skip_ws_rest. }
      destruct (scan_once n (skip_ws r0)) as [[v rv]| |] eqn:Hv;
        cbn [Json.bind]; try discriminate.
      destruct (IHs _ _ _ Pr0 Hv) as (Ev & Prv). cbn [fst snd].
      pose proof (rest_of_plain _ _ (skip_ws_rest rv) Prv) as Hw'.
      destruct (skip_ws rv) as [|e r']; [discriminate|].
      assert (Pr' : plain_text r' = true)
        by (apply (rest_of_plain (e :: r')); [apply rest_of_cons, rest_of_refl|exact Hw']).
      assert (F : field_encodable (k, v) = true)
        by (unfold field_encodable; cbn [fst snd]; now rewrite Ek, Ev).
      destruct (e =? 125)%N.
      { intros H. inversion H; subst. split; [|exact Pr'].
        cbn [forallb]. now rewrite F. }
      destruct (e =? 44)%N; [|discriminate].
      destruct (object_loop n (skip_ws r')) as [[ps' r'']| |] eqn:Ho;
        cbn [Json.bind]; try discriminate.
      intros H. inversion H; subst. cbn [fst snd].
      destruct (IHo _ _ _ (rest_of_plain _ _ (skip_ws_rest r') Pr') Ho)
        as (Eps & Pr'').
      split; [|exact Pr'']. cbn [forallb]. now rewrite F, Eps.
    + intros s vs r Hp. cbn [array_loop].
      destruct (scan_once n s) as [[v rv]| |] eqn:Hv; cbn [Json.bind];
        try discriminate.
      destruct (IHs _ _ _ Hp Hv) as (_ & Prv). cbn [fst snd].
      pose proof (rest_of_plain _ _ (skip_ws_rest rv) Prv) as Hw'.
      destruct (skip_ws rv) as [|e r']; [discriminate|].
      assert (Pr' : plain_text r' = true)
        by (apply (rest_of_plain (e :: r')); [apply rest_of_cons, rest_of_refl|exact Hw']).
      destruct (e =? 93)%N.
      { intros H. inversion H; subst. exact Pr'. }
      destruct (e =? 44)%N; [|discriminate].
      destruct (array_loop n (skip_ws r')) as [[vs' r'']| |] eqn:Ha;
        cbn [Json.bind]; try discriminate.
      intros H. inversion H; subst. cbn [fst snd].
      exact (IHa _ _ _ (rest_of_plain _ _ (skip_ws_rest r') Pr') Ha).
Qed.

(** The fields of an object decoded from a text without escapes can all
    be encoded. *)
Lemma scan_once_fields (fuel : nat) (s r : str) (d : list (str * value)) :
  plain_text s = true ->
  scan_once fuel s = Ok (VDict d, r) ->
  forallb field_encodable d = true.
Proof.
  intros Hp. destruct fuel as [|n]; [discriminate|].
  destruct s as [|c t]; [discriminate|].
  assert (Ht : plain_text t = true)
    by (apply (rest_of_plain (c :: t)); [apply rest_of_cons, rest_of_refl|exact Hp]).
  cbn [scan_once].
  destruct (c =? 34)%N.
  { destruct (scanstring t) as [p| |]; cbn [Json.bind]; discriminate. }
  destruct (c =? 123)%N.
  { pose proof (rest_of_plain _ _ (skip_ws_rest t) Ht) as Hw.
    destruct (skip_ws t) as [|c' t']; [discriminate|].
    destruct (c' =? 125)%N.
    - intros H. inversion H. reflexivity.
    - destruct (object_loop n (c' :: t')) as [[ps r']| |] eqn:Ho;
        cbn [Json.bind]; try discriminate.
      intros H. inversion H. apply dict_of_pairs_encodable.
      exact (proj1 (proj1 (proj2 (scanner_plain n)) _ _ _ Hw Ho)). }
  destruct (c =? 91)%N.
  { destruct (skip_ws t) as [|c' t']; [discriminate|].
    destruct (c' =? 93)%N; [discriminate|].
    destruct (array_loop n (c' :: t')) as [p| |]; cbn [Json.bind]; discriminate. }
  destruct (scan_atom (c :: t)) as [[v r']|] eqn:Ha; [|discriminate].
  intros H. inversion H; subst. apply scan_atom_value in Ha. discriminate.
Qed.

Lemma loads_fields (s : str) (d : list (str * value)) :
  plain_text s = true ->
  loads s = inr (VDict d) ->
  forallb field_encodable d = true.
Proof.
  intros Hp. unfold loads. destruct (startswith _ s); [discriminate|].
  destruct (scan_once _ _) as [[v r]| |] eqn:Hs; try discriminate.
  destruct (skip_ws r); [|discriminate].
  intros H. inversion H; subst.
  exact (scan_once_fields _ _ _ _ (rest_of_plain _ _ (skip_ws_rest s) Hp) Hs).
Qed.

(** Line 71 adds no character to the reply. *)
Lemma strip_plain (s : str) : plain_text s = true -> plain_text (strip s) = true.
Proof.
  destruct (strip_split s) as (w1 & w2 & _ & _ & Hs).
  intros H. rewrite Hs in H. unfold plain_text in *.
  rewrite !forallb_app in H.
  apply andb_prop in H as (_ & H). now apply andb_prop in H.
Qed.

Lemma replace_from_plain (old : str) (k : nat) (s : str) :
  plain_text s = true -> plain_text (replace_from old [] k s) = true.
Proof.
  revert k. induction s as [|c t IH]; intros k H; [reflexivity|].
  cbn [plain_text forallb] in H. apply andb_prop in H as (Hc & Ht).
  cbn [replace_from]. destruct k as [|k]; [|now apply IH].
  destruct (startswith old (c :: t)); cbn [app]; [now apply IH|].
  cbn [plain_text forallb]. rewrite Hc. now apply IH.
Qed.

Lemma json_str_plain (text : str) :
  plain_text text = true -> plain_text (json_str text) = true.
Proof.
  intros H. rewrite json_str_unfence. apply strip_plain.
  unfold unfence. apply (replace_from_plain (lit "```") 0).
  apply (replace_from_plain (lit "```json") 0). now apply strip_plain.
Qed.

End EncodeFacts.

(** ** Runs *)

Module RunProps.
Import StrFacts FenceFacts JsonFacts FieldFacts ReplyFacts RunFacts DictFacts.
Import EncodeFacts.

Local Open Scope Z_scope.

Section Calls.

Variable convert_from_bytes : bytes -> Z -> Z -> exn + list image.
Variable generate_content : str -> image -> exn + str.

Local Abbreviation pdf_to_image := (pdf_to_image convert_from_bytes).
Local Abbreviation analyze_body := (analyze_body generate_content).
Local Abbreviation analyze := (analyze_document_with_gemini generate_content).
Local Abbreviation run_script := (run_script convert_from_bytes generate_content).
Local Abbreviation handle_extract := (handle_extract convert_from_bytes generate_content).

Lemma run_script_after (inp : inputs) (w : world) :
  fst (handle_extract inp w) = inr tt ->
  run_script inp w = show_results inp (snd (handle_extract inp w)).
Proof.
  intros H. unfold App.run_script, bind.
  destruct (handle_extract inp w) as [[e|[]] w1]; [discriminate|reflexivity].
Qed.

(** The handler returns: what the backend, the request and the decoder
    raise is caught inside the helpers. *)
Lemma handle_extract_returns (inp : inputs) (w : world) :
  fst (handle_extract inp w) = inr tt.
Proof.
  destruct (reaches_pipeline inp) eqn:R.
  - destruct (handle_extract_pipeline convert_from_bytes generate_content inp w R)
      as (pdf & _ & H). cbv zeta in H. apply H.
  - apply (handle_extract_skipped convert_from_bytes generate_content inp w R).
Qed.

(** X6: a run in which the button is not pressed, or no file is uploaded,
    or the text names no field, leaves the session, both caches and the
    standard output as they were and calls neither the backend nor the
    model: it changes the page only. *)
Theorem run_without_pipeline (inp : inputs) (w : world) :
  reaches_pipeline inp = false ->
  only_elements w (snd (run_script inp w)).
Proof.
  intros R. rewrite (run_script_after inp w (handle_extract_returns inp w)).
  destruct (handle_extract_skipped convert_from_bytes generate_content inp w R)
    as (_ & F & _).
  eapply only_elements_trans; [exact F|].
  apply (show_results_cases inp (snd (handle_extract inp w))).
Qed.

(** X7: one run calls the backend at most once and the model at most
    once; the model is called only after the backend gave an image in this
    run, with that image and the prompt of this run's fields. *)
Theorem run_calls_at_most_once (inp : inputs) (w : world) :
  exists bs ms,
    backend_calls (snd (run_script inp w)) = backend_calls w ++ bs
    /\ model_calls (snd (run_script inp w)) = model_calls w ++ ms
    /\ (List.length bs <= 1)%nat
    /\ (List.length ms <= List.length bs)%nat
    /\ (ms <> [] ->
        exists pdf img rest,
          uploaded_file inp = Some pdf
          /\ bs = [(pdf, page_selector inp, page_selector inp)]
          /\ convert_from_bytes pdf (page_selector inp) (page_selector inp)
             = inr (img :: rest)
          /\ ms = [(make_prompt (placeholders_of (placeholders_text inp)), img)]).
Proof.
  rewrite (run_script_after inp w (handle_extract_returns inp w)).
  destruct (show_results_cases inp (snd (handle_extract inp w)))
    as ((_ & S2 & S3 & _) & _).
  rewrite S2, S3.
  destruct (reaches_pipeline inp) eqn:R.
  - destruct (handle_extract_pipeline convert_from_bytes generate_content inp w R)
      as (pdf & Hf & H). cbv zeta in H.
    destruct H as (_ & B & _ & _ & H).
    assert (P : page_number inp + 1 = page_selector inp)
      by (unfold page_number; rewrite Hf; lia).
    rewrite P in *.
    destruct (convert_from_bytes pdf (page_selector inp) (page_selector inp))
      as [e|[|img rest]] eqn:Hc.
    + destruct H as (_ & M & _).
      exists [(pdf, page_selector inp, page_selector inp)], [].
      rewrite app_nil_r. repeat apply conj; auto; simpl; try lia. congruence.
    + destruct H as (_ & M & _).
      exists [(pdf, page_selector inp, page_selector inp)], [].
      rewrite app_nil_r. repeat apply conj; auto; simpl; try lia. congruence.
    + destruct H as (v & _ & H).
      destruct (cache_find [] (analysis_cache w)) as [[a els]|].
      * destruct H as (_ & M & _).
        exists [(pdf, page_selector inp, page_selector inp)], [].
        rewrite app_nil_r. repeat apply conj; auto; simpl; try lia. congruence.
      * destruct H as (M & _).
        exists [(pdf, page_selector inp, page_selector inp)],
          [(make_prompt (placeholders_of (placeholders_text inp)), img)].
        repeat apply conj; auto; simpl; try lia.
        intros _. exists pdf, img, rest. repeat apply conj; auto.
  - destruct (handle_extract_skipped convert_from_bytes generate_content inp w R)
      as (_ & (_ & F2 & F3 & _) & _).
    exists [], []. rewrite !app_nil_r.
    repeat apply conj; auto. congruence.
Qed.

(** X8: whenever the session holds a result it holds an image: every run
    keeps it so (and a new session holds neither). *)
Theorem result_has_image_kept (inp : inputs) (w : world) :
  result_has_image (session w) ->
  result_has_image (session (snd (run_script inp w))).
Proof.
  intros I.
  rewrite (run_script_after inp w (handle_extract_returns inp w)).
  destruct (show_results_cases inp (snd (handle_extract inp w)))
    as ((_ & _ & _ & _ & _ & S6) & _).
  rewrite S6.
  destruct (reaches_pipeline inp) eqn:R.
  - destruct (handle_extract_pipeline convert_from_bytes generate_content inp w R)
      as (pdf & Hf & H). cbv zeta in H.
    destruct H as (_ & _ & _ & _ & H).
    destruct (convert_from_bytes pdf (page_number inp + 1) (page_number inp + 1))
      as [e|[|img rest]].
    + destruct H as (-> & _). intros K. now destruct K.
    + destruct H as (-> & _). intros K. now destruct K.
    + destruct H as (v & -> & _). intros _. discriminate.
  - destruct (handle_extract_skipped convert_from_bytes generate_content inp w R)
      as (_ & (_ & _ & _ & _ & _ & F6) & _).
    now rewrite F6.
Qed.

Lemma run_script_no_button (inp : inputs) (w : world) :
  extract_button inp = false ->
  run_script inp w = show_results inp w.
Proof.
  intros Hb.
  assert (E : handle_extract inp w = (inr tt, w)).
  { unfold App.handle_extract. rewrite Hb.
    destruct (uploaded_file inp); reflexivity. }
  unfold App.run_script, bind. now rewrite E.
Qed.

Lemma extraction_run_reaches (inp : inputs) (pdf : bytes) (img : image)
      (fields : list str) :
  extraction_run convert_from_bytes inp pdf img fields ->
  reaches_pipeline inp = true.
Proof.
  intros (Hb & Hf & Hp & Hne & _). unfold reaches_pipeline.
  rewrite Hf, Hb, (AppFacts.fields_text_truthy _ (eq_ind_r (fun l => l <> []) Hne Hp)).
  rewrite Hp. destruct fields; [congruence|reflexivity].
Qed.

(** X9: on a run without the button a stored mapping is shown field by
    field, in the order of the mapping, until a field cannot be encoded.
    When every field can, the page gets the header, one disabled field per
    key with its value and the key [result_] followed by the field name,
    then the stored image with the page number of this run, and the run
    ends normally.  Otherwise the run ends in a [UnicodeEncodeError] at the
    first such field: the fields before it are shown; the later fields and
    the image are not. *)
Theorem stored_mapping_shown (inp : inputs) (w : world) (kv : str * value)
        (d : list (str * value)) :
  extract_button inp = false ->
  result (session w) = VDict (kv :: d) ->
  (fst (run_script inp w) = inr tt
   <-> forallb field_encodable (kv :: d) = true)
  /\ (forallb field_encodable (kv :: d) = true ->
      elements (snd (run_script inp w))
      = elements w
        ++ results_section (kv :: d) (image_to_display (session w))
                           (page_number inp + 1))
  /\ (forallb field_encodable (kv :: d) = false ->
      fst (run_script inp w) = inl UnicodeEncodeError
      /\ elements (snd (run_script inp w))
         = elements w ++ results_begun (kv :: d)).
Proof.
  intros Hb Hr. rewrite (run_script_no_button inp w Hb).
  pose proof (show_results_cases inp w) as (_ & S).
  rewrite Hr in S.
  destruct (forallb field_encodable (kv :: d)).
  - destruct S as (S1 & S2).
    split; [split; intros _; [reflexivity|exact S1]|].
    split; [intros _; exact S2|discriminate].
  - destruct S as (S1 & S2).
    split; [rewrite S1; split; discriminate|].
    split; [discriminate|intros _; split; assumption].
Qed.

(** X12: once the cache of the extraction holds an entry, no run reaches
    the model or changes the cache, and a run that gets an image from the
    backend stores the value of that entry as its result, whatever the
    image and the fields are. *)
Theorem cached_entry_stays (inp : inputs) (w : world) (a : value)
        (els : list element) :
  cache_find [] (analysis_cache w) = Some (a, els) ->
  model_calls (snd (run_script inp w)) = model_calls w
  /\ analysis_cache (snd (run_script inp w)) = analysis_cache w
  /\ (forall pdf img rest,
         reaches_pipeline inp = true ->
         uploaded_file inp = Some pdf ->
         convert_from_bytes pdf (page_number inp + 1) (page_number inp + 1)
         = inr (img :: rest) ->
         session (snd (run_script inp w))
         = {| result := a; image_to_display := Some img |}).
Proof.
  intros Hc.
  rewrite (run_script_after inp w (handle_extract_returns inp w)).
  destruct (show_results_cases inp (snd (handle_extract inp w)))
    as ((_ & _ & S3 & _ & S5 & S6) & _).
  rewrite S3, S5, S6.
  destruct (reaches_pipeline inp) eqn:R.
  - destruct (handle_extract_pipeline convert_from_bytes generate_content inp w R)
      as (pdf & Hf & H). cbv zeta in H.
    destruct H as (_ & _ & _ & _ & H). rewrite Hc in H.
    destruct (convert_from_bytes pdf (page_number inp + 1) (page_number inp + 1))
      as [e|[|img rest]] eqn:Hconv.
    + destruct H as (_ & M & A & _). repeat apply conj; auto.
      intros pdf' img' rest' _ Hf' Hc'. rewrite Hf in Hf'. injection Hf' as <-.
      rewrite Hconv in Hc'. discriminate.
    + destruct H as (_ & M & A & _). repeat apply conj; auto.
      intros pdf' img' rest' _ Hf' Hc'. rewrite Hf in Hf'. injection Hf' as <-.
      rewrite Hconv in Hc'. discriminate.
    + destruct H as (v & Hs & -> & M & A & _). repeat apply conj; auto.
      intros pdf' img' rest' _ Hf' Hc'. rewrite Hf in Hf'. injection Hf' as <-.
      rewrite Hconv in Hc'. injection Hc' as <- _. exact Hs.
  - destruct (handle_extract_skipped convert_from_bytes generate_content inp w R)
      as (_ & (_ & _ & F3 & _ & F5 & _) & _).
    repeat apply conj; auto. intros ? ? ? K. discriminate.
Qed.

(** X13: the extraction gives a mapping only when the text of line 71
    starts with an opening brace: a reply with anything but whitespace and
    fences before the object never gives one. *)
Theorem mapping_needs_brace (img : image) (fields : list str) (w : world)
        (d : list (str * value)) :
  fst (analyze_body img fields w) = inr (VDict d) ->
  exists text t,
    generate_content (make_prompt fields) img = inr text
    /\ json_str text = 123%N :: t.
Proof.
  unfold App.analyze_body, try_except, bind, call_model, json_loads.
  destruct (generate_content (make_prompt fields) img) as [e|text];
    [discriminate|].
  destruct (Json.loads (json_str text)) as [e|v] eqn:L; [discriminate|].
  cbn. intros H. injection H as ->.
  apply loads_dict in L as ((t & Ht) & _).
  rewrite skip_ws_stripped in Ht
    by (rewrite FenceFacts.json_str_unfence; apply strip_idempotent).
  now exists text, t.
Qed.

(** X10: the widgets built for a mapping the extraction returns have
    pairwise different keys: the mapping holds each field name once. *)
Theorem result_widget_keys_distinct (img : image) (fields : list str)
        (w : world) (d : list (str * value)) :
  fst (analyze_body img fields w) = inr (VDict d) ->
  NoDup (map fst d)
  /\ NoDup (map widget_key (map result_field d)).
Proof.
  unfold App.analyze_body, try_except, bind, call_model, json_loads.
  destruct (generate_content (make_prompt fields) img) as [e|text];
    [discriminate|].
  destruct (Json.loads (json_str text)) as [e|v] eqn:L; [discriminate|].
  cbn. intros H. injection H as ->.
  apply loads_dict in L as (_ & N).
  split; [exact N|].
  rewrite map_map. cbn [widget_key result_field].
  clear -N. induction d as [|[k v] d IH]; [constructor|].
  cbn [map fst] in *. inversion N as [|? ? Hk Hd]; subst.
  constructor; [|now apply IH].
  intros K. apply Hk. apply in_map_iff in K as ([k' v'] & E & Hin).
  cbn [fst] in E. injection E as ->. apply in_map_iff. now exists (k, v').
Qed.

(** X14: when the reply parses to a value that is false (an empty
    object or array, an empty string, zero, [false], [null]), the run
    stores it and shows nothing: no result, no error, no invitation. *)
Theorem falsy_reply_shows_nothing (inp : inputs) (pdf : bytes) (img : image)
        (fields : list str) (text : str) (v : value) (w : world) :
  extraction_run convert_from_bytes inp pdf img fields ->
  analysis_miss w ->
  generate_content (make_prompt fields) img = inr text ->
  Json.loads (json_str text) = inr v ->
  Py.truthy v = false ->
  fst (run_script inp w) = inr tt
  /\ elements (snd (run_script inp w)) = elements w
  /\ session (snd (run_script inp w))
     = {| result := v; image_to_display := Some img |}.
Proof.
  intros Hrun Hmiss Hreply Hloads Hv.
  pose proof (AppFacts.run_extraction convert_from_bytes generate_content inp
                pdf img fields w Hrun Hmiss v _
                (AppFacts.analyze_body_parses generate_content img fields text
                   v _ Hreply Hloads)) as Hh.
  rewrite (AppFacts.run_script_split convert_from_bytes generate_content
             inp w _ Hh).
  destruct Hrun as (Hb & _).
  rewrite AppFacts.show_results_nothing; [|exact Hv|exact Hb].
  cbn. rewrite app_nil_r. repeat apply conj; reflexivity.
Qed.

(** X16: a run prints at most one line, the one of line 86, and only when
    it reached the backend and the backend raised. *)
Theorem run_prints (inp : inputs) (w : world) :
  stdout (snd (run_script inp w))
  = stdout w
    ++ match uploaded_file inp with
       | Some pdf =>
           if reaches_pipeline inp
           then printed (convert_from_bytes pdf (page_selector inp)
                                            (page_selector inp))
           else []
       | None => []
       end.
Proof.
  rewrite (run_script_after inp w (handle_extract_returns inp w)).
  destruct (show_results_cases inp (snd (handle_extract inp w)))
    as ((S1 & _) & _).
  rewrite S1.
  destruct (reaches_pipeline inp) eqn:R.
  - destruct (handle_extract_pipeline convert_from_bytes generate_content inp w R)
      as (pdf & Hf & H). cbv zeta in H.
    destruct H as (_ & _ & _ & P & _).
    rewrite Hf, P. unfold page_number. rewrite Hf.
    now replace (page_selector inp - 1 + 1) with (page_selector inp) by lia.
  - destruct (handle_extract_skipped convert_from_bytes generate_content inp w R)
      as (_ & (F1 & _) & _).
    rewrite F1. destruct (uploaded_file inp); now rewrite app_nil_r.
Qed.

(** X17: [pdf_to_image] never raises; it returns [None] exactly when the
    backend raised or returned no image, and it changes neither the page
    nor the session. *)
Theorem pdf_to_image_none (pdf : bytes) (n : Z) (w : world) :
  (exists image, fst (pdf_to_image pdf n w) = inr image)
  /\ (fst (pdf_to_image pdf n w) = inr None
      <-> rasterization_fails (convert_from_bytes pdf (n + 1) (n + 1)))
  /\ elements (snd (pdf_to_image pdf n w)) = elements w
  /\ session (snd (pdf_to_image pdf n w)) = session w.
Proof.
  destruct (AppFacts.pdf_to_image_spec convert_from_bytes pdf n w)
    as (H1 & H2 & _ & _ & _ & _ & H7).
  rewrite H1. split; [eexists; reflexivity|].
  split; [|split; assumption].
  unfold rasterization_fails.
  destruct (convert_from_bytes pdf (n + 1) (n + 1)) as [e|[|img rest]];
    cbn; split; intros K; try reflexivity; try exact I; discriminate.
Qed.

(** X19: the body of the extraction returns [None] exactly when it failed
    or the reply was the JSON [null]; only in the first case is an error
    put on the page. *)
Theorem none_is_failure_or_null (img : image) (fields : list str) (w : world) :
  (fst (analyze_body img fields w) = inr VNone
   <-> (exists e, extraction_fails (generate_content (make_prompt fields) img) e)
       \/ (exists text,
              generate_content (make_prompt fields) img = inr text
              /\ Json.loads (json_str text) = inr VNone))
  /\ (forall e,
         extraction_fails (generate_content (make_prompt fields) img) e ->
         elements (snd (analyze_body img fields w))
         = elements w ++ [analysis_error e])
  /\ (forall text,
         generate_content (make_prompt fields) img = inr text ->
         Json.loads (json_str text) = inr VNone ->
         elements (snd (analyze_body img fields w)) = elements w).
Proof.
  split; [|split].
  - unfold App.analyze_body, try_except, bind, call_model, json_loads,
      extraction_fails.
    destruct (generate_content (make_prompt fields) img) as [e|text].
    + cbn. split; [intros _; left; exists e; reflexivity|intros _; reflexivity].
    + destruct (Json.loads (json_str text)) as [e|v] eqn:L.
      * cbn. split; [intros _; left; exists e; reflexivity|intros _; reflexivity].
      * cbn. split.
        -- intros H. injection H as ->. right. exists text. now split.
        -- intros [[e H]|(text' & E & H)]; [discriminate|].
           injection E as <-. rewrite L in H. now injection H as ->.
  - intros e H.
    now rewrite (AppFacts.analyze_body_fails generate_content img fields e w H).
  - intros text H1 H2.
    now rewrite (AppFacts.analyze_body_parses generate_content img fields text
                   VNone w H1 H2).
Qed.

(** X20: a reply without a backslash and without a surrogate that decodes
    to a mapping of scalar values is shown in full: the run stores the
    mapping with the new image, shows the header, one field per key in the
    order of the mapping and the image under the selected page, and ends
    normally. *)
Theorem plain_reply_shown (inp : inputs) (pdf : bytes) (img : image)
        (fields : list str) (text : str) (kv : str * value)
        (d : list (str * value)) (w : world) :
  extraction_run convert_from_bytes inp pdf img fields ->
  analysis_miss w ->
  generate_content (make_prompt fields) img = inr text ->
  plain_text text = true ->
  Json.loads (json_str text) = inr (VDict (kv :: d)) ->
  forallb (fun f => scalar (snd f)) (kv :: d) = true ->
  fst (run_script inp w) = inr tt
  /\ session (snd (run_script inp w))
     = {| result := VDict (kv :: d); image_to_display := Some img |}
  /\ elements (snd (run_script inp w))
     = elements w
       ++ results_section (kv :: d) (Some img) (page_selector inp).
Proof.
  intros Hrun Hmiss Hreply Hplain Hloads _.
  pose proof (loads_fields _ _ (json_str_plain _ Hplain) Hloads) as F.
  pose proof (AppFacts.run_extraction convert_from_bytes generate_content inp
                pdf img fields w Hrun Hmiss (VDict (kv :: d)) _
                (AppFacts.analyze_body_parses generate_content img fields text
                   _ _ Hreply Hloads)) as Hh.
  rewrite (AppFacts.run_script_split convert_from_bytes generate_content
             inp w _ Hh).
  assert (P : page_number inp + 1 = page_selector inp).
  { destruct Hrun as (_ & Hf & _). unfold page_number. rewrite Hf. lia. }
  match goal with
  | |- context [show_results inp ?w0] => set (w1 := w0)
  end.
  pose proof (show_results_cases inp w1) as ((_ & _ & _ & _ & _ & S6) & S).
  assert (Hs : session w1
               = {| result := VDict (kv :: d); image_to_display := Some img |})
    by reflexivity.
  assert (He : elements w1 = elements w) by (subst w1; cbn; apply app_nil_r).
  rewrite Hs in S. cbn [result image_to_display] in S.
  rewrite F, P in S. destruct S as (S1 & S2).
  rewrite S1, S2, S6, Hs, He. repeat apply conj; reflexivity.
Qed.

End Calls.

Import Samples.

(** *** Two runs in a row *)

(** The world a failed extraction leaves. *)
Lemma after_failed_extraction conv gen (inp : inputs) (pdf : bytes)
      (img : image) (fields : list str) (e : exn) (w : world) :
  extraction_run conv inp pdf img fields ->
  analysis_miss w ->
  extraction_fails (gen (make_prompt fields) img) e ->
  cache_find [] (analysis_cache (snd (run_script conv gen inp w)))
  = Some (VNone, [analysis_error e]).
Proof.
  intros Hrun Hmiss Hfail.
  pose proof (AppFacts.run_extraction conv gen inp pdf img fields w Hrun Hmiss
                VNone _ (AppFacts.analyze_body_fails gen img fields e _ Hfail))
    as Hh.
  rewrite (AppFacts.run_script_split conv gen inp w _ Hh).
  destruct Hrun as (Hb & _).
  rewrite AppFacts.show_results_nothing; [reflexivity|reflexivity|exact Hb].
Qed.

(** X15: a failed extraction is stored like a result: after it, a run
    that gets an image, with any file, page, fields and model, has [None]
    as its result and the first error on its page, and does not reach the
    model. *)
Theorem failure_is_cached conv1 gen1 conv2 gen2 (inp1 inp2 : inputs)
        (pdf1 pdf2 : bytes) (img1 img2 : image) (fields1 fields2 : list str)
        (e : exn) (w : world) :
  extraction_run conv1 inp1 pdf1 img1 fields1 ->
  analysis_miss w ->
  extraction_fails (gen1 (make_prompt fields1) img1) e ->
  extraction_run conv2 inp2 pdf2 img2 fields2 ->
  let w1 := snd (run_script conv1 gen1 inp1 w) in
  fst (run_script conv2 gen2 inp2 w1) = inr tt
  /\ model_calls (snd (run_script conv2 gen2 inp2 w1)) = model_calls w1
  /\ session (snd (run_script conv2 gen2 inp2 w1))
     = {| result := VNone; image_to_display := Some img2 |}
  /\ elements (snd (run_script conv2 gen2 inp2 w1))
     = elements w1 ++ [analysis_error e].
Proof.
  intros Hrun1 Hmiss Hfail Hrun2 w1.
  pose proof (after_failed_extraction conv1 gen1 inp1 pdf1 img1 fields1 e w
                Hrun1 Hmiss Hfail) as Hc.
  fold w1 in Hc.
  pose proof (extraction_run_reaches conv2 inp2 pdf2 img2 fields2 Hrun2) as R.
  destruct Hrun2 as (Hb & Hf & _ & _ & rest & Hconv).
  destruct (handle_extract_pipeline conv2 gen2 inp2 w1 R) as (pdf & Hf' & H).
  rewrite Hf in Hf'. injection Hf' as <-. cbv zeta in H.
  rewrite Hconv, Hc in H.
  destruct H as (H1 & _ & _ & _ & v & Hs & -> & M & _ & El).
  rewrite (run_script_after conv2 gen2 inp2 w1 H1).
  rewrite AppFacts.show_results_nothing; [|now rewrite Hs|exact Hb].
  cbn [fst snd]. repeat apply conj; try assumption; reflexivity.
Qed.

(** X11: the caption of the stored image is the page number of the
    current run, not of the run that rendered it: after an extraction
    that stored a mapping, a run without the button shows the mapping and
    the image of the first run under the page the selector shows now
    (when every field can be encoded; the fields before the first that
    cannot, and no image, otherwise). *)
Theorem caption_follows_selector conv gen (inp1 inp2 : inputs) (pdf : bytes)
        (img : image) (fields : list str) (text : str) (kv : str * value)
        (d : list (str * value)) (w : world) :
  extraction_run conv inp1 pdf img fields ->
  analysis_miss w ->
  gen (make_prompt fields) img = inr text ->
  Json.loads (json_str text) = inr (VDict (kv :: d)) ->
  extract_button inp2 = false ->
  let w1 := snd (run_script conv gen inp1 w) in
  elements (snd (run_script conv gen inp2 w1))
  = elements w1
    ++ (if forallb field_encodable (kv :: d)
        then results_section (kv :: d) (Some img) (page_number inp2 + 1)
        else results_begun (kv :: d)).
Proof.
  intros Hrun Hmiss Hreply Hloads Hb2 w1.
  assert (Hs : session w1
               = {| result := VDict (kv :: d); image_to_display := Some img |}).
  { subst w1.
    pose proof (AppFacts.run_extraction conv gen inp1 pdf img fields w Hrun Hmiss
                  (VDict (kv :: d)) _
                  (AppFacts.analyze_body_parses gen img fields text _ _
                     Hreply Hloads)) as Hh.
    rewrite (AppFacts.run_script_split conv gen inp1 w _ Hh).
    match goal with
    | |- session (snd (show_results ?i ?w0)) = _ =>
        destruct (show_results_cases i w0) as ((_ & _ & _ & _ & _ & S6) & _)
    end.
    rewrite S6. reflexivity. }
  rewrite (run_script_no_button conv gen inp2 w1 Hb2).
  pose proof (show_results_cases inp2 w1) as (_ & S).
  rewrite Hs in S. cbn [result image_to_display] in S.
  destruct (forallb field_encodable (kv :: d)); apply S.
Qed.

End RunProps.

(** ** Sample runs *)

Module RunSamples.
Import Samples RunProps.

Local Open Scope Z_scope.

Lemma run_without_pipeline_witness :
  reaches_pipeline (click []) = false
  /\ only_elements empty_world
       (snd (run_script renders (replies example_json) (click []) empty_world)).
Proof.
  assert (H : reaches_pipeline (click []) = false) by reflexivity.
  exact (conj H (run_without_pipeline renders (replies example_json)
                   (click []) empty_world H)).
Defined.

Lemma result_has_image_kept_witness :
  let inp := click (lit "Invoice Number") in
  result_has_image (session empty_world)
  /\ result_has_image
       (session (snd (run_script renders (replies example_json) inp
                        empty_world))).
Proof.
  intros inp.
  assert (H : result_has_image (session empty_world))
    by (intros K; now destruct K).
  exact (conj H (result_has_image_kept renders (replies example_json) inp
                   empty_world H)).
Defined.

Lemma stored_mapping_shown_witness :
  let w := stored example_mapping (Some page_one) in
  let half := [(lit "Invoice Number", VStr (lit "INV-12345"));
               (lit "Customer Name", VStr [55357%N]);
               (lit "Total Amount", VStr (lit "$999.99"))] in
  let w' := stored (VDict half) (Some page_one) in
  (extract_button (rerun 2) = false
   /\ result (session w)
      = VDict ((lit "Invoice Number", VStr (lit "INV-12345"))
               :: [(lit "Customer Name", VStr (lit "John Doe"));
                   (lit "Total Amount", VStr (lit "$999.99"))])
   /\ fst (run_script renders unreachable (rerun 2) w) = inr tt
   /\ elements (snd (run_script renders unreachable (rerun 2) w))
      = [st_header (lit "Extracted Information"); st_subheader (lit "Results");
         result_field (lit "Invoice Number", VStr (lit "INV-12345"));
         result_field (lit "Customer Name", VStr (lit "John Doe"));
         result_field (lit "Total Amount", VStr (lit "$999.99"));
         st_subheader (lit "Analyzed Document");
         analyzed_page page_one 2])
  /\ (result (session w') = VDict half
      /\ fst (run_script renders unreachable (rerun 2) w')
         = inl UnicodeEncodeError
      /\ elements (snd (run_script renders unreachable (rerun 2) w'))
         = [st_header (lit "Extracted Information"); st_subheader (lit "Results");
            result_field (lit "Invoice Number", VStr (lit "INV-12345"))]).
Proof.
  intros w half w'.
  assert (H1 : extract_button (rerun 2) = false) by reflexivity.
  assert (H2 : result (session w)
               = VDict ((lit "Invoice Number", VStr (lit "INV-12345"))
                        :: [(lit "Customer Name", VStr (lit "John Doe"));
                            (lit "Total Amount", VStr (lit "$999.99"))]))
    by reflexivity.
  assert (H3 : result (session w') = VDict half) by reflexivity.
  pose proof (stored_mapping_shown renders unreachable (rerun 2) w _ _ H1 H2)
    as (K1 & K2 & _).
  pose proof (stored_mapping_shown renders unreachable (rerun 2) w' _ _ H1 H3)
    as (_ & _ & K3).
  exact (conj (conj H1 (conj H2 (conj (proj2 K1 eq_refl) (K2 eq_refl))))
              (conj H3 (K3 eq_refl))).
Defined.

Lemma cached_entry_stays_witness :
  let w := snd (analyze_document_with_gemini (replies example_json) page_two
                  one_field empty_world) in
  let inp := click (lit "Total Amount") in
  cache_find [] (analysis_cache w) = Some (example_mapping, [])
  /\ model_calls (snd (run_script renders unreachable inp w)) = model_calls w
  /\ analysis_cache (snd (run_script renders unreachable inp w))
     = analysis_cache w
  /\ session (snd (run_script renders unreachable inp w))
     = {| result := example_mapping; image_to_display := Some page_one |}.
Proof.
  intros w inp.
  assert (H : cache_find [] (analysis_cache w) = Some (example_mapping, []))
    by (vm_compute; reflexivity).
  pose proof (cached_entry_stays renders unreachable inp w _ _ H)
    as (K1 & K2 & K3).
  exact (conj H (conj K1 (conj K2
           (K3 pdf page_one [] eq_refl eq_refl eq_refl)))).
Defined.

Lemma mapping_needs_brace_witness :
  let reply := lit "  " ++ fenced true example_json in
  fst (analyze_body (replies reply) page_one one_field empty_world)
  = inr example_mapping
  /\ exists text t,
      replies reply (make_prompt one_field) page_one = inr text
      /\ json_str text = 123%N :: t.
Proof.
  intros reply.
  assert (H : fst (analyze_body (replies reply) page_one one_field empty_world)
              = inr example_mapping) by (vm_compute; reflexivity).
  exact (conj H (mapping_needs_brace (replies reply) page_one one_field
                   empty_world _ H)).
Defined.

Lemma result_widget_keys_distinct_witness :
  fst (analyze_body (replies example_json) page_one one_field empty_world)
  = inr example_mapping
  /\ NoDup (map fst [(lit "Invoice Number", VStr (lit "INV-12345"));
                     (lit "Customer Name", VStr (lit "John Doe"));
                     (lit "Total Amount", VStr (lit "$999.99"))])
  /\ NoDup (map widget_key
              (map result_field
                   [(lit "Invoice Number", VStr (lit "INV-12345"));
                    (lit "Customer Name", VStr (lit "John Doe"));
                    (lit "Total Amount", VStr (lit "$999.99"))])).
Proof.
  assert (H : fst (analyze_body (replies example_json) page_one one_field
                     empty_world) = inr example_mapping)
    by (vm_compute; reflexivity).
  exact (conj H (result_widget_keys_distinct (replies example_json) page_one
                   one_field empty_world _ H)).
Defined.

Lemma failure_is_cached_witness :
  let inp1 := click (lit "Invoice Number") in
  let inp2 := {| extract_button := true; uploaded_file := Some pdf;
                 page_selector := 2; placeholders_text := lit "Total Amount" |} in
  let e := Raised "ServiceUnavailable" (lit "503 The service is unavailable.") in
  let w1 := snd (run_script renders unreachable inp1 empty_world) in
  extraction_run renders inp1 pdf page_one one_field
  /\ analysis_miss empty_world
  /\ extraction_fails (unreachable (make_prompt one_field) page_one) e
  /\ extraction_run renders inp2 pdf page_two [lit "Total Amount"]
  /\ fst (run_script renders (replies example_json) inp2 w1) = inr tt
  /\ model_calls (snd (run_script renders (replies example_json) inp2 w1))
     = model_calls w1
  /\ session (snd (run_script renders (replies example_json) inp2 w1))
     = {| result := VNone; image_to_display := Some page_two |}
  /\ elements (snd (run_script renders (replies example_json) inp2 w1))
     = elements w1 ++ [analysis_error e].
Proof.
  intros inp1 inp2 e w1.
  assert (H1 : extraction_run renders inp1 pdf page_one one_field).
  { split; [reflexivity|]. split; [reflexivity|]. split; [reflexivity|].
    split; [discriminate|]. exists []. reflexivity. }
  assert (H2 : analysis_miss empty_world) by reflexivity.
  assert (H3 : extraction_fails (unreachable (make_prompt one_field) page_one) e)
    by reflexivity.
  assert (H4 : extraction_run renders inp2 pdf page_two [lit "Total Amount"]).
  { split; [reflexivity|]. split; [reflexivity|]. split; [reflexivity|].
    split; [discriminate|]. exists []. reflexivity. }
  pose proof (failure_is_cached renders unreachable renders
                (replies example_json) inp1 inp2 pdf pdf page_one page_two
                one_field [lit "Total Amount"] e empty_world H1 H2 H3 H4)
    as (K1 & K2 & K3 & K4).
  exact (conj H1 (conj H2 (conj H3 (conj H4
           (conj K1 (conj K2 (conj K3 K4))))))).
Defined.

Lemma caption_follows_selector_witness :
  let inp1 := click (lit "Invoice Number") in
  let w1 := snd (run_script renders (replies example_json) inp1 empty_world) in
  extraction_run renders inp1 pdf page_one one_field
  /\ analysis_miss empty_world
  /\ replies example_json (make_prompt one_field) page_one = inr example_json
  /\ Json.loads (json_str example_json) = inr example_mapping
  /\ extract_button (rerun 2) = false
  /\ elements (snd (run_script renders (replies example_json) (rerun 2) w1))
     = elements w1
       ++ results_section
            [(lit "Invoice Number", VStr (lit "INV-12345"));
             (lit "Customer Name", VStr (lit "John Doe"));
             (lit "Total Amount", VStr (lit "$999.99"))]
            (Some page_one) 2.
Proof.
  intros inp1 w1.
  assert (H1 : extraction_run renders inp1 pdf page_one one_field).
  { split; [reflexivity|]. split; [reflexivity|]. split; [reflexivity|].
    split; [discriminate|]. exists []. reflexivity. }
  assert (H2 : analysis_miss empty_world) by reflexivity.
  assert (H3 : replies example_json (make_prompt one_field) page_one
               = inr example_json) by reflexivity.
  assert (H4 : Json.loads (json_str example_json) = inr example_mapping)
    by (vm_compute; reflexivity).
  assert (H5 : extract_button (rerun 2) = false) by reflexivity.
  pose proof (caption_follows_selector renders (replies example_json) inp1
                (rerun 2) pdf page_one one_field example_json _ _ empty_world
                H1 H2 H3 H4 H5) as K.
  exact (conj H1 (conj H2 (conj H3 (conj H4 (conj H5 K))))).
Defined.

Lemma plain_reply_shown_witness :
  let inp := click (lit "Invoice Number") in
  let r := run_script renders (replies example_json) inp empty_world in
  extraction_run renders inp pdf page_one one_field
  /\ analysis_miss empty_world
  /\ replies example_json (make_prompt one_field) page_one = inr example_json
  /\ plain_text example_json = true
  /\ Json.loads (json_str example_json) = inr example_mapping
  /\ fst r = inr tt
  /\ session (snd r)
     = {| result := example_mapping; image_to_display := Some page_one |}
  /\ elements (snd r)
     = [st_header (lit "Extracted Information"); st_subheader (lit "Results");
        result_field (lit "Invoice Number", VStr (lit "INV-12345"));
        result_field (lit "Customer Name", VStr (lit "John Doe"));
        result_field (lit "Total Amount", VStr (lit "$999.99"));
        st_subheader (lit "Analyzed Document");
        analyzed_page page_one 1].
Proof.
  intros inp r.
  assert (H1 : extraction_run renders inp pdf page_one one_field).
  { split; [reflexivity|]. split; [reflexivity|]. split; [reflexivity|].
    split; [discriminate|]. exists []. reflexivity. }
  assert (H2 : analysis_miss empty_world) by reflexivity.
  assert (H3 : replies example_json (make_prompt one_field) page_one
               = inr example_json) by reflexivity.
  assert (H4 : plain_text example_json = true) by reflexivity.
  assert (H5 : Json.loads (json_str example_json) = inr example_mapping)
    by (vm_compute; reflexivity).
  pose proof (plain_reply_shown renders (replies example_json) inp pdf
                page_one one_field example_json _ _ empty_world
                H1 H2 H3 H4 H5 eq_refl) as (K1 & K2 & K3).
  exact (conj H1 (conj H2 (conj H3 (conj H4 (conj H5
           (conj K1 (conj K2 K3))))))).
Defined.

Lemma falsy_reply_shows_nothing_witness :
  let inp := click (lit "Invoice Number") in
  let r := run_script renders (replies (lit "{}")) inp empty_world in
  extraction_run renders inp pdf page_one one_field
  /\ analysis_miss empty_world
  /\ replies (lit "{}") (make_prompt one_field) page_one = inr (lit "{}")
  /\ Json.loads (json_str (lit "{}")) = inr (VDict [])
  /\ Py.truthy (VDict []) = false
  /\ fst r = inr tt
  /\ elements (snd r) = []
  /\ session (snd r)
     = {| result := VDict []; image_to_display := Some page_one |}.
Proof.
  intros inp r.
  assert (H1 : extraction_run renders inp pdf page_one one_field).
  { split; [reflexivity|]. split; [reflexivity|]. split; [reflexivity|].
    split; [discriminate|]. exists []. reflexivity. }
  assert (H2 : analysis_miss empty_world) by reflexivity.
  assert (H3 : replies (lit "{}") (make_prompt one_field) page_one
               = inr (lit "{}")) by reflexivity.
  assert (H4 : Json.loads (json_str (lit "{}")) = inr (VDict []))
    by (vm_compute; reflexivity).
  assert (H5 : Py.truthy (VDict []) = false) by reflexivity.
  pose proof (falsy_reply_shows_nothing renders (replies (lit "{}")) inp pdf
                page_one one_field (lit "{}") (VDict []) empty_world
                H1 H2 H3 H4 H5) as (K1 & K2 & K3).
  exact (conj H1 (conj H2 (conj H3 (conj H4 (conj H5
           (conj K1 (conj K2 K3))))))).
Defined.

End RunSamples.
